(** * InvoiceForge: the in-memory storage layer ([server/storage.ts])

    A shallow embedding of the class [MemStorage], of the entities of
    [shared/schema.ts], of the JavaScript built-ins the class calls and of
    the line items and totals of the invoice form, followed by the
    properties of invoice totals, invoice numbering, cascade deletion,
    statistics and absent ids, of the life of clients, invoices and line
    items in the store, of the two listings and of the form.

    - A JavaScript [number] is an IEEE 754 binary64 value: [spec_float] with
      the operations of [SpecFloat] at precision 53 and [emax] 1024.
    - A JavaScript string is a [string] whose characters stand for the code
      units 0..255.
    - A [Map<string, V>] is an association list in insertion order, the
      order in which [Map.prototype.values] yields the values.
    - The methods are [async] and run to completion one after another; each
      is a computation in the state monad [M] over the three maps.
    - [randomUUID()] and [new Date()] are not functions of the store: each
      operation takes the values it draws as arguments.
    - A field of a [Partial<...>] argument is present with a value or
      absent.
    - [Array.prototype.sort] is the stable sort by the sign of the
      comparison function.
    - Of the form, the state [lineItems], the functions that change it and
      [calculateTotals] are modelled; what a row passes on from its inputs
      is a function of the text typed. *)

From Stdlib Require Import ZArith List String Ascii Bool Lia.
From Stdlib Require Import Permutation Sorted.
From Stdlib Require Import Floats.SpecFloat.
Import ListNotations.

Local Open Scope string_scope.
Local Open Scope Z_scope.

(** ** Strings *)

Module Str.

Definition char_code (c : ascii) : Z := Z.of_N (N_of_ascii c).

Definition length (s : string) : Z := Z.of_nat (String.length s).

Fixpoint skip (n : nat) (s : string) : string :=
  match n, s with
  | S n', String _ s' => skip n' s'
  | _, _ => s
  end.

Fixpoint take (n : nat) (s : string) : string :=
  match n, s with
  | S n', String c s' => String c (take n' s')
  | _, _ => ""
  end.

(** [s.startsWith(p)] *)
Definition startsWith (s p : string) : bool := String.prefix p s.

(** [s.replace(pat, rep)] with a string pattern: the first occurrence only. *)
Fixpoint replace (s pat rep : string) : string :=
  if String.prefix pat s then rep ++ skip (String.length pat) s
  else match s with
       | "" => ""
       | String c s' => String c (replace s' pat rep)
       end.

Fixpoint repeat_fill (n : nat) (pad cur : string) : string :=
  match n with
  | O => ""
  | S n' =>
      match cur with
      | "" => match pad with
              | "" => ""
              | String c rest => String c (repeat_fill n' pad rest)
              end
      | String c rest => String c (repeat_fill n' pad rest)
      end
  end.

(** [s.padStart(target, pad)] *)
Definition padStart (s : string) (target : nat) (pad : string) : string :=
  if (target <=? String.length s)%nat then s
  else match pad with
       | "" => s
       | _ => repeat_fill (target - String.length s) pad pad ++ s
       end.

Fixpoint take_while (p : ascii -> bool) (s : string) : string :=
  match s with
  | "" => ""
  | String c s' => if p c then String c (take_while p s') else ""
  end.

Fixpoint drop_while (p : ascii -> bool) (s : string) : string :=
  match s with
  | "" => ""
  | String c s' => if p c then drop_while p s' else s
  end.

(** White space and line terminators among the code units 0..255. *)
Definition is_space (c : ascii) : bool :=
  let n := char_code c in
  ((9 <=? n) && (n <=? 13)) || (n =? 32) || (n =? 160).

Definition trimStart : string -> string := drop_while is_space.

(** The value of a digit in a radix up to 36, if it is one. *)
Definition digit_value (radix : Z) (c : ascii) : option Z :=
  let n := char_code c in
  let v := if (48 <=? n) && (n <=? 57) then n - 48
           else if (97 <=? n) && (n <=? 122) then n - 87
           else if (65 <=? n) && (n <=? 90) then n - 55
           else 36 in
  if v <? radix then Some v else None.

Definition is_digit (radix : Z) (c : ascii) : bool :=
  match digit_value radix c with Some _ => true | None => false end.

Fixpoint digits_value (radix : Z) (s : string) (acc : Z) : Z :=
  match s with
  | "" => acc
  | String c s' =>
      match digit_value radix c with
      | Some d => digits_value radix s' (acc * radix + d)
      | None => acc
      end
  end.

Definition digit_char (d : Z) : ascii := ascii_of_N (Z.to_N (48 + d)).

Fixpoint digits_fuel (fuel : nat) (n : Z) : string :=
  match fuel with
  | O => ""
  | S fuel' =>
      if n <? 10 then String (digit_char n) ""
      else digits_fuel fuel' (n / 10) ++ String (digit_char (n mod 10)) ""
  end.

(** The decimal digits of a natural number, without leading zeros. *)
Definition digits (n : Z) : string :=
  digits_fuel (S (Z.to_nat (Z.log2 n))) n.

Definition zeros (n : Z) : string := repeat_fill (Z.to_nat n) "0" "0".

End Str.

(** ** JavaScript numbers *)

Module JS.

Definition number := spec_float.

Definition prec : Z := 53.
Definition emax : Z := 1024.

Definition NaN : number := S754_nan.
Definition posZero : number := S754_zero false.

Definition add : number -> number -> number := SFadd prec emax.
Definition mul : number -> number -> number := SFmul prec emax.
Definition div : number -> number -> number := SFdiv prec emax.

(** The binary64 value nearest to an integer, ties to even. *)
Definition of_Z (z : Z) : number := binary_normalize prec emax z 0 false.

(** The binary64 value nearest to [p / q] for [q > 0]: the quotient is taken
    with at least 64 significant bits and a sticky last bit, then rounded. *)
Definition of_ratio (p q : Z) : number :=
  let k := Z.max 0 (64 + Z.log2 q - Z.log2 (Z.abs p)) in
  let qt := Z.abs p * 2 ^ k / q in
  let sticky := if Z.abs p * 2 ^ k mod q =? 0 then 0 else 1 in
  let r := binary_normalize prec emax (2 * qt + sticky) (- k - 1) false in
  if p <? 0 then SFopp r else r.

(** [m * 10 ^ e] rounded to binary64. *)
Definition of_decimal (m e : Z) : number :=
  if 0 <=? e then of_Z (m * 10 ^ e) else of_ratio m (10 ^ (- e)).

Definition isNaN (x : number) : bool :=
  match x with S754_nan => true | _ => false end.

Definition ltb : number -> number -> bool := SFltb.
Definition leb : number -> number -> bool := SFleb.

Definition same (x y : number) : bool :=
  match x, y with
  | S754_nan, S754_nan => true
  | S754_zero a, S754_zero b => Bool.eqb a b
  | S754_infinity a, S754_infinity b => Bool.eqb a b
  | S754_finite a m e, S754_finite b m' e' =>
      Bool.eqb a b && (m =? m')%positive && (e =? e')
  | _, _ => false
  end.

(** [x || d] on numbers: [0], [-0] and [NaN] are falsy. *)
Definition truthy (x : number) : bool :=
  match x with
  | S754_nan | S754_zero _ => false
  | _ => true
  end.

(** *** [Math.max] *)

Definition max_step (highest x : number) : number :=
  match highest, x with
  | S754_nan, _ | _, S754_nan => S754_nan
  | S754_zero true, S754_zero false => x
  | _, _ => if ltb highest x then x else highest
  end.

Definition Math_max (xs : list number) : number :=
  fold_left max_step xs (S754_infinity true).

(** *** [Number::toString]

    The exact value of a finite positive number is [P / Q]. *)

Definition ratio (m : positive) (e : Z) : Z * Z :=
  if 0 <=? e then (Z.pos m * 2 ^ e, 1) else (Z.pos m, 2 ^ (- e)).

(** [10 ^ n <= P / Q] *)
Definition pow10_le (n P Q : Z) : bool :=
  if 0 <=? n then 10 ^ n * Q <=? P else Q <=? P * 10 ^ (- n).

(** The [n] with [10 ^ (n - 1) <= P / Q < 10 ^ n]. *)
Definition decimal_exponent (P Q : Z) : Z :=
  let est := (Z.log2 P - Z.log2 Q) * 30103 / 100000 in
  match find (fun n => negb (pow10_le n P Q))
             [est - 1; est; est + 1; est + 2; est + 3] with
  | Some n => n
  | None => est
  end.

(** The [k]-digit significands [s] with [s * 10 ^ (n - k)] read back as the
    number [m * 2 ^ e], the one nearest to the exact value first. *)
Definition candidates (m : positive) (e k n : Z) : list Z :=
  let '(P, Q) := ratio m e in
  let '(A, B) := if 0 <=? k - n then (P * 10 ^ (k - n), Q)
                 else (P, Q * 10 ^ (n - k)) in
  let lo := A / B in
  let ok s := (10 ^ (k - 1) <=? s) && (s <? 10 ^ k)
              && same (of_decimal s (n - k)) (S754_finite false m e) in
  let dlo := A - lo * B in
  let dhi := (lo + 1) * B - A in
  let ordered := if dlo <? dhi then [lo; lo + 1]
                 else if dhi <? dlo then [lo + 1; lo]
                 else if Z.even lo then [lo; lo + 1] else [lo + 1; lo] in
  filter ok ordered.

Fixpoint shortest_from (fuel : nat) (m : positive) (e k n0 : Z) : Z * Z :=
  match fuel with
  | O => (Z.pos m, n0)
  | S fuel' =>
      match candidates m e k n0, candidates m e k (n0 + 1) with
      | s :: _, _ => (s, n0)
      | [], s :: _ => (s, n0 + 1)
      | [], [] => shortest_from fuel' m e (k + 1) n0
      end
  end.

(** The shortest significand [s] and the exponent [n] that denote
    [m * 2 ^ e]. *)
Definition shortest (m : positive) (e : Z) : Z * Z :=
  let '(P, Q) := ratio m e in
  shortest_from 17 m e 1 (decimal_exponent P Q).

Definition render (s n : Z) : string :=
  let ds := Str.digits s in
  let k := Str.length ds in
  if (k <=? n) && (n <=? 21) then ds ++ Str.zeros (n - k)
  else if (0 <? n) && (n <=? 21) then
    Str.take (Z.to_nat n) ds ++ "." ++ Str.skip (Z.to_nat n) ds
  else if (-6 <? n) && (n <=? 0) then "0." ++ Str.zeros (- n) ++ ds
  else
    let ex := (if n - 1 <? 0 then "-" else "+") ++ Str.digits (Z.abs (n - 1)) in
    if k =? 1 then ds ++ "e" ++ ex
    else Str.take 1 ds ++ "." ++ Str.skip 1 ds ++ "e" ++ ex.

(** The integer a finite number denotes, when it denotes one. *)
Definition integer_value (m : positive) (e : Z) : option Z :=
  if 0 <=? e then Some (Z.pos m * 2 ^ e)
  else if Z.pos m mod 2 ^ (- e) =? 0 then Some (Z.pos m / 2 ^ (- e))
  else None.

Definition safe_bound : Z := 2 ^ 53.

(** [String(x)]. An integer below [2 ^ 53] is denoted by its own digits, which
    are then the shortest that read back as [x]. *)
Definition ToString (x : number) : string :=
  match x with
  | S754_nan => "NaN"
  | S754_zero _ => "0"
  | S754_infinity s => (if s then "-" else "") ++ "Infinity"
  | S754_finite s m e =>
      (if s then "-" else "") ++
      match integer_value m e with
      | Some a =>
          if a <? safe_bound then Str.digits a
          else let '(d, n) := shortest m e in render d n
      | None => let '(d, n) := shortest m e in render d n
      end
  end.

(** *** [Number.prototype.toFixed] for a fraction-digit count in 0..100 *)

Definition fixed_digits (n : Z) (f : nat) : string :=
  let m := Str.digits n in
  match f with
  | O => m
  | _ =>
      let m' := Str.padStart m (S f) "0" in
      let k := String.length m' in
      Str.take (k - f) m' ++ "." ++ Str.skip (k - f) m'
  end.

Definition toFixed (x : number) (f : nat) : string :=
  match x with
  | S754_finite s m e =>
      let '(P, Q) := ratio m e in
      (if s then "-" else "") ++
      (if 10 ^ 21 * Q <=? P then ToString (S754_finite false m e)
       else fixed_digits ((2 * P * 10 ^ Z.of_nat f + Q) / (2 * Q)) f)
  | S754_zero _ => fixed_digits 0 f
  | _ => ToString x
  end.

(** *** [parseInt] with no radix *)

Definition strip_sign (s : string) : bool * string :=
  match s with
  | String "-" r => (true, r)
  | String "+" r => (false, r)
  | _ => (false, s)
  end.

Definition strip_hex (s : string) : Z * string :=
  match s with
  | String "0" (String "x" r) | String "0" (String "X" r) => (16, r)
  | _ => (10, s)
  end.

Definition signed (neg : bool) (x : number) : number :=
  match x with
  | S754_zero _ => S754_zero neg
  | _ => if neg then SFopp x else x
  end.

Definition parseInt (input : string) : number :=
  let '(neg, s) := strip_sign (Str.trimStart input) in
  let '(radix, s) := strip_hex s in
  let ds := Str.take_while (Str.is_digit radix) s in
  match ds with
  | "" => NaN
  | _ => signed neg (of_Z (Str.digits_value radix ds 0))
  end.

(** *** [parseFloat] *)

Definition is_dec (c : ascii) : bool := Str.is_digit 10 c.

(** The exponent part at the head of [s], if there is one. *)
Definition exponent_part (s : string) : Z :=
  match s with
  | String c r =>
      if (Str.char_code c =? 101) || (Str.char_code c =? 69) then
        let '(neg, r') := strip_sign r in
        match Str.take_while is_dec r' with
        | "" => 0
        | ds => let v := Str.digits_value 10 ds 0 in if neg then - v else v
        end
      else 0
  | "" => 0
  end.

Definition parseFloat (input : string) : number :=
  let '(neg, s) := strip_sign (Str.trimStart input) in
  if String.prefix "Infinity" s then S754_infinity neg
  else
    let ip := Str.take_while is_dec s in
    let s1 := Str.drop_while is_dec s in
    let '(fp, s2) :=
      match s1 with
      | String "." r =>
          let fp := Str.take_while is_dec r in
          match ip, fp with
          | "", "" => ("", s1)
          | _, _ => (fp, Str.drop_while is_dec r)
          end
      | _ => ("", s1)
      end in
    match ip ++ fp with
    | "" => NaN
    | ds =>
        signed neg (of_decimal (Str.digits_value 10 ds 0)
                               (exponent_part s2 - Str.length fp))
    end.

End JS.

(** ** [Map<string, V>] *)

Module SMap.
Section Ops.
Context {V : Type}.

Definition t := list (string * V).

Definition empty : t := [].

Fixpoint get (k : string) (m : t) : option V :=
  match m with
  | [] => None
  | (k', v) :: m' => if String.eqb k' k then Some v else get k m'
  end.

Definition has (k : string) (m : t) : bool :=
  match get k m with Some _ => true | None => false end.

(** An existing key keeps its place, a new one goes last. *)
Fixpoint set (k : string) (v : V) (m : t) : t :=
  match m with
  | [] => [(k, v)]
  | (k', v') :: m' =>
      if String.eqb k' k then (k, v) :: m' else (k', v') :: set k v m'
  end.

Definition remove (k : string) (m : t) : t :=
  filter (fun kv => negb (String.eqb (fst kv) k)) m.

Definition values (m : t) : list V := map snd m.
End Ops.
Arguments t : clear implicits.
End SMap.

(** ** Entities ([shared/schema.ts]) *)

(** A [Date], as milliseconds since the epoch. *)
Definition Date := Z.

Module Client.
Record t := mk {
  id : string;
  name : string;
  email : string;
  address : option string;
  createdAt : option Date }.
End Client.

Module Invoice.
Record t := mk {
  id : string;
  invoiceNumber : string;
  clientId : option string;
  clientName : string;
  clientEmail : string;
  clientAddress : option string;
  issueDate : string;
  dueDate : option string;
  status : string;
  subtotal : string;
  taxRate : string;
  taxAmount : string;
  total : string;
  notes : option string;
  createdAt : option Date;
  updatedAt : option Date }.
End Invoice.

Module LineItem.
Record t := mk {
  id : string;
  invoiceId : string;
  description : string;
  quantity : JS.number;
  rate : string;
  amount : string }.
End LineItem.

(** [InsertClient] and [Partial<InsertClient>] *)
Module InsertClient.
Record t := mk {
  name : string;
  email : string;
  address : option string }.

Record partial := mkp {
  p_name : option string;
  p_email : option string;
  p_address : option (option string) }.
End InsertClient.

(** [Partial<InsertInvoice>]: every column but [id], [createdAt] and
    [updatedAt], each one present or not. *)
Module InsertInvoice.
Record partial := mkp {
  p_invoiceNumber : option string;
  p_clientId : option (option string);
  p_clientName : option string;
  p_clientEmail : option string;
  p_clientAddress : option (option string);
  p_issueDate : option string;
  p_dueDate : option (option string);
  p_status : option string;
  p_subtotal : option string;
  p_taxRate : option string;
  p_taxAmount : option string;
  p_total : option string;
  p_notes : option (option string) }.
End InsertInvoice.

(** [InsertLineItem] and [Partial<InsertLineItem>] *)
Module InsertLineItem.
Record t := mk {
  invoiceId : string;
  description : string;
  quantity : option JS.number;
  rate : option string;
  amount : option string }.

Record partial := mkp {
  p_invoiceId : option string;
  p_description : option string;
  p_quantity : option JS.number;
  p_rate : option string;
  p_amount : option string }.
End InsertLineItem.

(** [CreateInvoiceRequest] *)
Module Request.
Record item := mk_item {
  description : string;
  quantity : JS.number;
  rate : JS.number }.

Record t := mk {
  clientName : string;
  clientEmail : string;
  clientAddress : option string;
  issueDate : string;
  dueDate : option string;
  taxRate : JS.number;
  notes : option string;
  lineItems : list item }.
End Request.

(** [InvoiceWithLineItems]: the columns of the invoice together with the
    array [lineItems]. *)
Record InvoiceWithLineItems := {
  invoice : Invoice.t;
  lineItems : list LineItem.t }.

Record InvoiceStats := {
  totalInvoices : nat;
  totalRevenue : string;
  pendingInvoices : nat;
  overdueInvoices : nat }.

(** [a || b] where [a] is an optional string: absent and empty are falsy. *)
Definition or_string (a : option string) (b : string) : string :=
  match a with
  | Some (String c r) => String c r
  | _ => b
  end.

(** [a || null] *)
Definition or_null (a : option string) : option string :=
  match a with
  | Some (String c r) => Some (String c r)
  | _ => None
  end.

(** [{...x, field: v}] for an optional field of a partial record. *)
Definition over {A : Type} (old : A) (new : option A) : A :=
  match new with Some v => v | None => old end.

(** ** The store and its monad *)

(** The private fields of the class; [lineItemsMap] is the field
    [lineItems]. *)
Record MemStorage := {
  clients : SMap.t Client.t;
  invoices : SMap.t Invoice.t;
  lineItemsMap : SMap.t LineItem.t;
  invoiceCounter : Z }.

(** [new MemStorage()] *)
Definition newStorage : MemStorage :=
  {| clients := SMap.empty; invoices := SMap.empty;
     lineItemsMap := SMap.empty; invoiceCounter := 1 |}.

Definition M (A : Type) : Type := MemStorage -> A * MemStorage.

Definition ret {A} (a : A) : M A := fun s => (a, s).

Definition bind {A B} (c : M A) (k : A -> M B) : M B :=
  fun s => let '(a, s') := c s in k a s'.

Definition get_store : M MemStorage := fun s => (s, s).

Definition set_clients (m : SMap.t Client.t) : M unit :=
  fun s => (tt, {| clients := m; invoices := invoices s;
                   lineItemsMap := lineItemsMap s;
                   invoiceCounter := invoiceCounter s |}).

Definition set_invoices (m : SMap.t Invoice.t) : M unit :=
  fun s => (tt, {| clients := clients s; invoices := m;
                   lineItemsMap := lineItemsMap s;
                   invoiceCounter := invoiceCounter s |}).

Definition set_lineItems (m : SMap.t LineItem.t) : M unit :=
  fun s => (tt, {| clients := clients s; invoices := invoices s;
                   lineItemsMap := m;
                   invoiceCounter := invoiceCounter s |}).

Declare Scope storage_scope.
Delimit Scope storage_scope with storage.
Notation "x <- c ;; k" := (bind c (fun x => k))
  (at level 61, c at next level, right associativity) : storage_scope.
Notation "c ;;; k" := (bind c (fun _ => k))
  (at level 61, right associativity) : storage_scope.
Local Open Scope storage_scope.

(** [for (const x of xs) body(x)] *)
Fixpoint for_each {A} (xs : list A) (body : A -> M unit) : M unit :=
  match xs with
  | [] => ret tt
  | x :: xs' => body x ;;; for_each xs' body
  end.

(** A loop that pushes each result on an array, the index counting the
    iterations done before. *)
Fixpoint for_collect {A B} (i : nat) (xs : list A) (body : nat -> A -> M B)
  : M (list B) :=
  match xs with
  | [] => ret []
  | x :: xs' =>
      y <- body i x ;;
      ys <- for_collect (S i) xs' body ;;
      ret (y :: ys)
  end.

(** ** [MemStorage] ([server/storage.ts]) *)

(** *** Client operations *)

Definition getClient (id : string) : M (option Client.t) :=
  s <- get_store ;; ret (SMap.get id (clients s)).

Definition getClientByEmail (email : string) : M (option Client.t) :=
  s <- get_store ;;
  ret (find (fun client => String.eqb (Client.email client) email)
            (SMap.values (clients s))).

Definition createClient (id : string) (now : Date)
    (insertClient : InsertClient.t) : M Client.t :=
  let client :=
    {| Client.id := id;
       Client.name := InsertClient.name insertClient;
       Client.email := InsertClient.email insertClient;
       Client.address := or_null (InsertClient.address insertClient);
       Client.createdAt := Some now |} in
  s <- get_store ;;
  set_clients (SMap.set id client (clients s)) ;;;
  ret client.

Definition updateClient (id : string) (clientData : InsertClient.partial)
  : M (option Client.t) :=
  s <- get_store ;;
  match SMap.get id (clients s) with
  | None => ret None
  | Some existing =>
      let updated :=
        {| Client.id := Client.id existing;
           Client.name :=
             over (Client.name existing) (InsertClient.p_name clientData);
           Client.email :=
             over (Client.email existing) (InsertClient.p_email clientData);
           Client.address :=
             over (Client.address existing)
                  (InsertClient.p_address clientData);
           Client.createdAt := Client.createdAt existing |} in
      set_clients (SMap.set id updated (clients s)) ;;;
      ret (Some updated)
  end.

Definition deleteClient (id : string) : M bool :=
  s <- get_store ;;
  set_clients (SMap.remove id (clients s)) ;;;
  ret (SMap.has id (clients s)).

(** *** Line item operations *)

Definition getLineItemsByInvoiceId (invoiceId : string)
  : M (list LineItem.t) :=
  s <- get_store ;;
  ret (filter (fun item => String.eqb (LineItem.invoiceId item) invoiceId)
              (SMap.values (lineItemsMap s))).

Definition createLineItem (id : string) (insertLineItem : InsertLineItem.t)
  : M LineItem.t :=
  let lineItem :=
    {| LineItem.id := id;
       LineItem.invoiceId := InsertLineItem.invoiceId insertLineItem;
       LineItem.description := InsertLineItem.description insertLineItem;
       LineItem.quantity :=
         match InsertLineItem.quantity insertLineItem with
         | Some q => if JS.truthy q then q else JS.of_Z 1
         | None => JS.of_Z 1
         end;
       LineItem.rate := or_string (InsertLineItem.rate insertLineItem) "0";
       LineItem.amount :=
         or_string (InsertLineItem.amount insertLineItem) "0" |} in
  s <- get_store ;;
  set_lineItems (SMap.set id lineItem (lineItemsMap s)) ;;;
  ret lineItem.

Definition updateLineItem (id : string)
    (lineItemData : InsertLineItem.partial) : M (option LineItem.t) :=
  s <- get_store ;;
  match SMap.get id (lineItemsMap s) with
  | None => ret None
  | Some existing =>
      let updated :=
        {| LineItem.id := LineItem.id existing;
           LineItem.invoiceId :=
             over (LineItem.invoiceId existing)
                  (InsertLineItem.p_invoiceId lineItemData);
           LineItem.description :=
             over (LineItem.description existing)
                  (InsertLineItem.p_description lineItemData);
           LineItem.quantity :=
             over (LineItem.quantity existing)
                  (InsertLineItem.p_quantity lineItemData);
           LineItem.rate :=
             over (LineItem.rate existing)
                  (InsertLineItem.p_rate lineItemData);
           LineItem.amount :=
             over (LineItem.amount existing)
                  (InsertLineItem.p_amount lineItemData) |} in
      set_lineItems (SMap.set id updated (lineItemsMap s)) ;;;
      ret (Some updated)
  end.

Definition deleteLineItem (id : string) : M bool :=
  s <- get_store ;;
  set_lineItems (SMap.remove id (lineItemsMap s)) ;;;
  ret (SMap.has id (lineItemsMap s)).

(** *** Invoice operations *)

Definition getInvoice (id : string) : M (option InvoiceWithLineItems) :=
  s <- get_store ;;
  match SMap.get id (invoices s) with
  | None => ret None
  | Some inv =>
      lineItems <- getLineItemsByInvoiceId id ;;
      ret (Some {| invoice := inv; lineItems := lineItems |})
  end.

Definition getInvoiceByNumber (invoiceNumber : string)
  : M (option InvoiceWithLineItems) :=
  s <- get_store ;;
  match find (fun inv => String.eqb (Invoice.invoiceNumber inv) invoiceNumber)
             (SMap.values (invoices s)) with
  | None => ret None
  | Some inv =>
      lineItems <- getLineItemsByInvoiceId (Invoice.id inv) ;;
      ret (Some {| invoice := inv; lineItems := lineItems |})
  end.

(** The array [existingNumbers] of [getNextInvoiceNumber]. *)
Definition existingNumbers (s : MemStorage) : list JS.number :=
  filter (fun num => negb (JS.isNaN num))
    (map (fun num => JS.parseInt (Str.replace num "INV-" ""))
       (filter (fun num => Str.startsWith num "INV-")
          (map Invoice.invoiceNumber (SMap.values (invoices s))))).

Definition getNextInvoiceNumber : M string :=
  s <- get_store ;;
  let existingNumbers := existingNumbers s in
  let maxNumber :=
    if (0 <? List.length existingNumbers)%nat then JS.Math_max existingNumbers
    else JS.posZero in
  ret ("INV-" ++ Str.padStart (JS.ToString (JS.add maxNumber (JS.of_Z 1)))
                              3 "0").

(** [id] and [lineId i] are the UUIDs drawn for the invoice and for its
    [i]-th line item, [created] and [updated] the two clock readings. *)
Definition createInvoice (id : string) (lineId : nat -> string)
    (created updated : Date) (invoiceData : Request.t)
  : M InvoiceWithLineItems :=
  invoiceNumber <- getNextInvoiceNumber ;;
  let lineItemsWithAmounts :=
    map (fun item =>
           (item, JS.mul (Request.quantity item) (Request.rate item)))
        (Request.lineItems invoiceData) in
  let subtotal :=
    fold_left (fun sum item => JS.add sum (snd item))
              lineItemsWithAmounts JS.posZero in
  let taxAmount :=
    JS.mul subtotal (JS.div (Request.taxRate invoiceData) (JS.of_Z 100)) in
  let total := JS.add subtotal taxAmount in
  let inv :=
    {| Invoice.id := id;
       Invoice.invoiceNumber := invoiceNumber;
       Invoice.clientId := None;
       Invoice.clientName := Request.clientName invoiceData;
       Invoice.clientEmail := Request.clientEmail invoiceData;
       Invoice.clientAddress := or_null (Request.clientAddress invoiceData);
       Invoice.issueDate := Request.issueDate invoiceData;
       Invoice.dueDate := or_null (Request.dueDate invoiceData);
       Invoice.status := "draft";
       Invoice.subtotal := JS.toFixed subtotal 2;
       Invoice.taxRate := JS.toFixed (Request.taxRate invoiceData) 2;
       Invoice.taxAmount := JS.toFixed taxAmount 2;
       Invoice.total := JS.toFixed total 2;
       Invoice.notes := or_null (Request.notes invoiceData);
       Invoice.createdAt := Some created;
       Invoice.updatedAt := Some updated |} in
  s <- get_store ;;
  set_invoices (SMap.set id inv (invoices s)) ;;;
  createdLineItems <-
    for_collect 0 lineItemsWithAmounts
      (fun i item =>
         createLineItem (lineId i)
           {| InsertLineItem.invoiceId := id;
              InsertLineItem.description := Request.description (fst item);
              InsertLineItem.quantity := Some (Request.quantity (fst item));
              InsertLineItem.rate :=
                Some (JS.toFixed (Request.rate (fst item)) 2);
              InsertLineItem.amount := Some (JS.toFixed (snd item) 2) |}) ;;
  ret {| invoice := inv; lineItems := createdLineItems |}.

Definition updateInvoice (id : string) (now : Date)
    (invoiceData : InsertInvoice.partial) : M (option Invoice.t) :=
  s <- get_store ;;
  match SMap.get id (invoices s) with
  | None => ret None
  | Some existing =>
      let updated :=
        {| Invoice.id := Invoice.id existing;
           Invoice.invoiceNumber :=
             over (Invoice.invoiceNumber existing)
                  (InsertInvoice.p_invoiceNumber invoiceData);
           Invoice.clientId :=
             over (Invoice.clientId existing)
                  (InsertInvoice.p_clientId invoiceData);
           Invoice.clientName :=
             over (Invoice.clientName existing)
                  (InsertInvoice.p_clientName invoiceData);
           Invoice.clientEmail :=
             over (Invoice.clientEmail existing)
                  (InsertInvoice.p_clientEmail invoiceData);
           Invoice.clientAddress :=
             over (Invoice.clientAddress existing)
                  (InsertInvoice.p_clientAddress invoiceData);
           Invoice.issueDate :=
             over (Invoice.issueDate existing)
                  (InsertInvoice.p_issueDate invoiceData);
           Invoice.dueDate :=
             over (Invoice.dueDate existing)
                  (InsertInvoice.p_dueDate invoiceData);
           Invoice.status :=
             over (Invoice.status existing)
                  (InsertInvoice.p_status invoiceData);
           Invoice.subtotal :=
             over (Invoice.subtotal existing)
                  (InsertInvoice.p_subtotal invoiceData);
           Invoice.taxRate :=
             over (Invoice.taxRate existing)
                  (InsertInvoice.p_taxRate invoiceData);
           Invoice.taxAmount :=
             over (Invoice.taxAmount existing)
                  (InsertInvoice.p_taxAmount invoiceData);
           Invoice.total :=
             over (Invoice.total existing)
                  (InsertInvoice.p_total invoiceData);
           Invoice.notes :=
             over (Invoice.notes existing)
                  (InsertInvoice.p_notes invoiceData);
           Invoice.createdAt := Invoice.createdAt existing;
           Invoice.updatedAt := Some now |} in
      set_invoices (SMap.set id updated (invoices s)) ;;;
      ret (Some updated)
  end.

Definition deleteInvoice (id : string) : M bool :=
  lineItems <- getLineItemsByInvoiceId id ;;
  for_each lineItems
    (fun item =>
       s <- get_store ;;
       set_lineItems (SMap.remove (LineItem.id item) (lineItemsMap s))) ;;;
  s <- get_store ;;
  set_invoices (SMap.remove id (invoices s)) ;;;
  ret (SMap.has id (invoices s)).

(** *** Statistics *)

Definition getInvoiceStats : M InvoiceStats :=
  s <- get_store ;;
  let allInvoices := SMap.values (invoices s) in
  let with_status st :=
    filter (fun inv => String.eqb (Invoice.status inv) st) allInvoices in
  ret {| totalInvoices := List.length allInvoices;
         totalRevenue :=
           JS.toFixed
             (fold_left
                (fun sum inv => JS.add sum (JS.parseFloat (Invoice.total inv)))
                (with_status "paid") JS.posZero) 2;
         pendingInvoices := List.length (with_status "sent");
         overdueInvoices := List.length (with_status "overdue") |}.

(** ** Sequences of store operations *)

Inductive op :=
| CreateClient (id : string) (now : Date) (c : InsertClient.t)
| UpdateClient (id : string) (c : InsertClient.partial)
| DeleteClient (id : string)
| CreateInvoice (id : string) (lineId : nat -> string)
                (created updated : Date) (r : Request.t)
| UpdateInvoice (id : string) (now : Date) (p : InsertInvoice.partial)
| DeleteInvoice (id : string)
| CreateLineItem (id : string) (l : InsertLineItem.t)
| UpdateLineItem (id : string) (l : InsertLineItem.partial)
| DeleteLineItem (id : string).

Definition exec (o : op) (s : MemStorage) : MemStorage :=
  match o with
  | CreateClient id now c => snd (createClient id now c s)
  | UpdateClient id c => snd (updateClient id c s)
  | DeleteClient id => snd (deleteClient id s)
  | CreateInvoice id lineId created updated r =>
      snd (createInvoice id lineId created updated r s)
  | UpdateInvoice id now p => snd (updateInvoice id now p s)
  | DeleteInvoice id => snd (deleteInvoice id s)
  | CreateLineItem id l => snd (createLineItem id l s)
  | UpdateLineItem id l => snd (updateLineItem id l s)
  | DeleteLineItem id => snd (deleteLineItem id s)
  end.

(** The store after the operations [ops], run in order on a new store. *)
Definition run (ops : list op) : MemStorage :=
  fold_left (fun s o => exec o s) ops newStorage.

(** ** Quantities the properties refer to *)

(** The number a decimal literal denotes. *)
Definition dec (literal : string) : JS.number := JS.parseFloat literal.

Definition round2 (x : JS.number) : string := JS.toFixed x 2.

Definition lineAmount (item : Request.item) : JS.number :=
  JS.mul (Request.quantity item) (Request.rate item).

(** The unrounded subtotal, tax amount and total of a request. *)
Definition rawSubtotal (r : Request.t) : JS.number :=
  fold_left JS.add (map lineAmount (Request.lineItems r)) JS.posZero.

Definition rawTax (r : Request.t) : JS.number :=
  JS.mul (rawSubtotal r) (JS.div (Request.taxRate r) (JS.of_Z 100)).

Definition rawTotal (r : Request.t) : JS.number :=
  JS.add (rawSubtotal r) (rawTax r).

(** The line item [createInvoice] stores for the [i]-th item of a request. *)
Definition madeLineItem (invoiceId : string) (lineId : nat -> string)
    (i : nat) (item : Request.item) : LineItem.t :=
  {| LineItem.id := lineId i;
     LineItem.invoiceId := invoiceId;
     LineItem.description := Request.description item;
     LineItem.quantity :=
       if JS.truthy (Request.quantity item) then Request.quantity item
       else JS.of_Z 1;
     LineItem.rate := round2 (Request.rate item);
     LineItem.amount := round2 (lineAmount item) |}.

Fixpoint madeLineItems (invoiceId : string) (lineId : nat -> string)
    (i : nat) (items : list Request.item) : list LineItem.t :=
  match items with
  | [] => []
  | item :: rest =>
      madeLineItem invoiceId lineId i item
      :: madeLineItems invoiceId lineId (S i) rest
  end.

Definition put_lineItem (m : SMap.t LineItem.t) (l : LineItem.t)
  : SMap.t LineItem.t :=
  SMap.set (LineItem.id l) l m.

(** A request with the given tax rate and (quantity, rate) pairs, all written
    as decimal literals. *)
Definition sampleRequest (tax : string) (items : list (string * string))
  : Request.t :=
  {| Request.clientName := "Acme";
     Request.clientEmail := "billing@acme.test";
     Request.clientAddress := None;
     Request.issueDate := "2024-01-01";
     Request.dueDate := None;
     Request.taxRate := dec tax;
     Request.notes := None;
     Request.lineItems :=
       map (fun qr => Request.mk_item "work" (dec (fst qr)) (dec (snd qr)))
           items |}.

(** UUIDs for the line items of the invoice [id]. *)
Definition lineIdsOf (id : string) (i : nat) : string :=
  id ++ "/" ++ Str.digits (Z.of_nat i).

(** The record [createInvoice] builds on the store [s]. *)
Definition madeInvoice (id : string) (created updated : Date)
    (r : Request.t) (s : MemStorage) : Invoice.t :=
  {| Invoice.id := id;
     Invoice.invoiceNumber := fst (getNextInvoiceNumber s);
     Invoice.clientId := None;
     Invoice.clientName := Request.clientName r;
     Invoice.clientEmail := Request.clientEmail r;
     Invoice.clientAddress := or_null (Request.clientAddress r);
     Invoice.issueDate := Request.issueDate r;
     Invoice.dueDate := or_null (Request.dueDate r);
     Invoice.status := "draft";
     Invoice.subtotal := round2 (rawSubtotal r);
     Invoice.taxRate := round2 (Request.taxRate r);
     Invoice.taxAmount := round2 (rawTax r);
     Invoice.total := round2 (rawTotal r);
     Invoice.notes := or_null (Request.notes r);
     Invoice.createdAt := Some created;
     Invoice.updatedAt := Some updated |}.

(** The total as the claim of the rounded tax amount has it: the rounding of
    the unrounded subtotal plus the tax amount as stored, which is rounded
    already. *)
Definition totalOfRoundedTax (r : Request.t) (inv : Invoice.t) : string :=
  round2 (JS.add (rawSubtotal r) (dec (Invoice.taxAmount inv))).

(** The same from the stored subtotal. *)
Definition totalOfStoredParts (inv : Invoice.t) : string :=
  round2 (JS.add (dec (Invoice.subtotal inv)) (dec (Invoice.taxAmount inv))).

(** One item of 30 cents, taxed at 5 percent. *)
Definition thirtyCents : Request.t := sampleRequest "5" [("1", "0.30")].

(** One item of 0.004 at a tax rate of 100 percent. *)
Definition subcentRequest : Request.t := sampleRequest "100" [("1", "0.004")].

(** Three items of 0.004 each, untaxed. *)
Definition threeSubcentItems : Request.t :=
  sampleRequest "0" [("1", "0.004"); ("1", "0.004"); ("1", "0.004")].

(** ** Statistics, as the specification words them *)

(** The number of invoices with the status [st]. *)
Fixpoint countStatus (st : string) (invs : list Invoice.t) : nat :=
  match invs with
  | [] => 0
  | inv :: rest =>
      (if String.eqb (Invoice.status inv) st then 1 else 0)
      + countStatus st rest
  end.

(** The running sum of [total] over the paid invoices, in store order. *)
Fixpoint paidSum (acc : JS.number) (invs : list Invoice.t) : JS.number :=
  match invs with
  | [] => acc
  | inv :: rest =>
      if String.eqb (Invoice.status inv) "paid"
      then paidSum (JS.add acc (JS.parseFloat (Invoice.total inv))) rest
      else paidSum acc rest
  end.

(** The patch [{ status: st }]. *)
Definition statusPatch (st : string) : InsertInvoice.partial :=
  InsertInvoice.mkp None None None None None None None (Some st)
                    None None None None None.

(** Invoices paid ($100), paid ($50), sent and overdue. *)
Definition statsStore : MemStorage :=
  run [ CreateInvoice "a" (lineIdsOf "a") 1 1 (sampleRequest "0" [("1", "100")]);
        CreateInvoice "b" (lineIdsOf "b") 2 2 (sampleRequest "0" [("2", "25")]);
        CreateInvoice "c" (lineIdsOf "c") 3 3 (sampleRequest "5" [("1", "80")]);
        CreateInvoice "d" (lineIdsOf "d") 4 4 (sampleRequest "0" [("3", "9.99")]);
        UpdateInvoice "a" 5 (statusPatch "paid");
        UpdateInvoice "b" 6 (statusPatch "paid");
        UpdateInvoice "c" 7 (statusPatch "sent");
        UpdateInvoice "d" 8 (statusPatch "overdue") ].

(** ** Well-formed line item maps *)

(** Every entry is filed under the id of its line item. *)
Definition keyed (m : SMap.t LineItem.t) : Prop :=
  Forall (fun kv => LineItem.id (snd kv) = fst kv) m.

Definition unique_keys {V} (m : SMap.t V) : Prop := NoDup (map fst m).

Definition lineItems_wf (s : MemStorage) : Prop :=
  keyed (lineItemsMap s) /\ unique_keys (lineItemsMap s).

Definition references (invoiceId : string) (item : LineItem.t) : bool :=
  String.eqb (LineItem.invoiceId item) invoiceId.

(** A line item created on its own, for an invoice that does not exist. *)
Definition strayLineItem : InsertLineItem.t :=
  {| InsertLineItem.invoiceId := "ghost";
     InsertLineItem.description := "stray";
     InsertLineItem.quantity := Some (dec "1");
     InsertLineItem.rate := Some "5.00";
     InsertLineItem.amount := Some "5.00" |}.

Definition strayStore : MemStorage := run [CreateLineItem "l1" strayLineItem].

(** Two invoices with two and one line items. *)
Definition twoInvoices : list op :=
  [ CreateInvoice "a" (lineIdsOf "a") 1 1
      (sampleRequest "10" [("1", "100"); ("2", "12.5")]);
    CreateInvoice "b" (lineIdsOf "b") 2 2 (sampleRequest "0" [("3", "7")]) ].

(** One turn of the loop of [deleteInvoice]. *)
Definition remove_item (m : SMap.t LineItem.t) (item : LineItem.t)
  : SMap.t LineItem.t :=
  SMap.remove (LineItem.id item) m.

(** ** The invariant on the monetary fields *)










(** Two invoices, one marked paid and one deleted. *)
Definition paidAndDeleted : list op :=
  twoInvoices ++ [UpdateInvoice "a" 3 (statusPatch "paid"); DeleteInvoice "b"].

(** The first of the invoices of [paidAndDeleted], as it is stored. *)
Definition paidInvoice : Invoice.t :=
  {| Invoice.id := "a";
     Invoice.invoiceNumber := "INV-001";
     Invoice.clientId := None;
     Invoice.clientName := "Acme";
     Invoice.clientEmail := "billing@acme.test";
     Invoice.clientAddress := None;
     Invoice.issueDate := "2024-01-01";
     Invoice.dueDate := None;
     Invoice.status := "paid";
     Invoice.subtotal := "125.00";
     Invoice.taxRate := "10.00";
     Invoice.taxAmount := "12.50";
     Invoice.total := "137.50";
     Invoice.notes := None;
     Invoice.createdAt := Some 1;
     Invoice.updatedAt := Some 3 |}.

(** ** Invoice numbering, as the specification words it *)

Definition invoiceNumbers (s : MemStorage) : list string :=
  map Invoice.invoiceNumber (SMap.values (invoices s)).

(** The scan: of every number with the prefix "INV-" the suffix is parsed,
    and a suffix that parses to [NaN] is skipped. *)
Fixpoint parsedSuffixes (nums : list string) : list JS.number :=
  match nums with
  | [] => []
  | num :: rest =>
      if Str.startsWith num "INV-" then
        let n := JS.parseInt (Str.skip 4 num) in
        if JS.isNaN n then parsedSuffixes rest else n :: parsedSuffixes rest
      else parsedSuffixes rest
  end.

Fixpoint all_dec (s : string) : bool :=
  match s with
  | "" => true
  | String c s' => JS.is_dec c && all_dec s'
  end.

(** The form INV-NNN: the prefix, then decimal digits, three at least. *)
Definition isInvNNN (num : string) : bool :=
  Str.startsWith num "INV-"
  && all_dec (Str.skip 4 num)
  && (3 <=? String.length (Str.skip 4 num))%nat.


(** What may follow a decimal numeral for [parseInt] to read just the
    numeral: nothing, or a character that is neither a digit nor the [x] of
    a hexadecimal prefix. *)
Definition endsNumeral (rest : string) : bool :=
  match rest with
  | "" => true
  | String c _ =>
      negb (JS.is_dec c) && negb (Ascii.eqb c "x") && negb (Ascii.eqb c "X")
  end.


(** The patch [{ invoiceNumber: num }]. *)
Definition numberPatch (num : string) : InsertInvoice.partial :=
  InsertInvoice.mkp (Some num) None None None None None None None
                    None None None None None.

(** Three invoices created and the second deleted: INV-001 and INV-003. *)
Definition gapStore : MemStorage :=
  run [ CreateInvoice "a" (lineIdsOf "a") 1 1 (sampleRequest "0" [("1", "10")]);
        CreateInvoice "b" (lineIdsOf "b") 2 2 (sampleRequest "0" [("1", "20")]);
        CreateInvoice "c" (lineIdsOf "c") 3 3 (sampleRequest "0" [("1", "30")]);
        DeleteInvoice "b" ].

(** One invoice, renumbered to [num]. *)
Definition renumbered (num : string) : MemStorage :=
  run [ CreateInvoice "a" (lineIdsOf "a") 1 1 (sampleRequest "0" [("1", "10")]);
        UpdateInvoice "a" 2 (numberPatch num) ].

(** The invoice a store holds first. *)
Definition firstInvoice (s : MemStorage) : Invoice.t :=
  match invoices s with
  | (_, inv) :: _ => inv
  | [] => paidInvoice
  end.

(** The number [getNextInvoiceNumber] builds from the array. *)
Definition nextFrom (ns : list JS.number) : string :=
  "INV-" ++ Str.padStart
              (JS.ToString
                 (JS.add (match ns with
                          | [] => JS.posZero
                          | _ => JS.Math_max ns
                          end) (JS.of_Z 1))) 3 "0".

(** The constant [maxNumber] of [getNextInvoiceNumber]: the largest parsed
    suffix, 0 when there is none. *)
Definition maxNumber (s : MemStorage) : JS.number :=
  let existingNumbers := existingNumbers s in
  if (0 <? List.length existingNumbers)%nat then JS.Math_max existingNumbers
  else JS.posZero.

(** The number [x] is the integer [m]; the integer 0 is [+0] or [-0]. *)
Definition isInteger (m : Z) (x : JS.number) : bool :=
  JS.same x (JS.of_Z m) || ((m =? 0) && JS.same x (S754_zero true)).

(** Three invoices, the first renumbered: INV--5, INV-002 and INV-003. *)
Definition negativeNumberStore : MemStorage :=
  run [ CreateInvoice "a" (lineIdsOf "a") 1 1 (sampleRequest "0" [("1", "10")]);
        CreateInvoice "b" (lineIdsOf "b") 2 2 (sampleRequest "0" [("1", "20")]);
        CreateInvoice "c" (lineIdsOf "c") 3 3 (sampleRequest "0" [("1", "30")]);
        UpdateInvoice "a" 4 (numberPatch "INV--5") ].

(** Natural numbers that are exact and have an exact successor. *)
Definition safeNatural (x : JS.number) : Prop :=
  exists n : Z, 0 <= n < 2 ^ 53 - 1 /\ x = JS.of_Z n.

(** A number that [createInvoice] has assigned among the first [k]. *)
Definition assigned (k : Z) (num : string) : Prop :=
  exists n : Z, 1 <= n <= k
                /\ num = "INV-" ++ Str.padStart (Str.digits n) 3 "0".

Definition keepsNumber (o : op) : bool :=
  match o with
  | UpdateInvoice _ _ p =>
      match InsertInvoice.p_invoiceNumber p with
      | None => true
      | Some _ => false
      end
  | _ => true
  end.

(** The invoice numbers of a map of invoices. *)
Definition numbersOf (m : SMap.t Invoice.t) : list string :=
  map Invoice.invoiceNumber (SMap.values m).

(** The numbers in the store were assigned among the first [k] and are
    pairwise distinct. *)
Definition numbered (k : Z) (s : MemStorage) : Prop :=
  Forall (assigned k) (invoiceNumbers s) /\ NoDup (invoiceNumbers s).

(** ** Integers as numbers *)

Definition shift_left (p : positive) (k : Z) : positive :=
  match k with Zpos k' => Pos.iter xO p k' | _ => p end.

(** The number that denotes a positive integer below [2 ^ 53]: the
    significand is brought to 53 bits. *)
Definition canonical (p : positive) : JS.number :=
  let d := Z.pos (digits2_pos p) in
  S754_finite false (shift_left p (53 - d)) (d - 53).

(** The digits [Number::toString] finds for a positive integer by the search
    for the shortest significand, without the shorter path for integers
    below [2 ^ 53]. *)
Definition searchedDigits (n : Z) : string :=
  match JS.of_Z n with
  | S754_finite false m e => let '(d, k) := JS.shortest m e in JS.render d k
  | _ => ""
  end.

(** ** The listing operations of [MemStorage] *)

(** [new Date(d).getTime()] for a stored creation time; [new Date(null)] is
    the epoch. *)
Definition timeOf (d : option Date) : Z :=
  match d with
  | Some t => t
  | None => 0
  end.

(** [array.sort(compare)]. The sort of the language is stable and, for a
    comparison function that orders consistently, its result is the one
    stable ordering; an insertion sort computes it. Of the number [compare]
    returns only the sign is used. *)
Fixpoint sortInsert {A} (compare : A -> A -> Z) (x : A) (l : list A)
  : list A :=
  match l with
  | [] => [x]
  | y :: l' =>
      if compare x y <=? 0 then x :: l else y :: sortInsert compare x l'
  end.

Definition sort {A} (compare : A -> A -> Z) (l : list A) : list A :=
  fold_right (sortInsert compare) [] l.

(** [(a, b) => new Date(b.createdAt!).getTime()
               - new Date(a.createdAt!).getTime()] *)
Definition newestClientFirst (a b : Client.t) : Z :=
  timeOf (Client.createdAt b) - timeOf (Client.createdAt a).

Definition newestInvoiceFirst (a b : InvoiceWithLineItems) : Z :=
  timeOf (Invoice.createdAt (invoice b))
  - timeOf (Invoice.createdAt (invoice a)).

Definition getAllClients : M (list Client.t) :=
  s <- get_store ;;
  ret (sort newestClientFirst (SMap.values (clients s))).

Definition getAllInvoices : M (list InvoiceWithLineItems) :=
  s <- get_store ;;
  invoicesWithLineItems <-
    for_collect 0 (SMap.values (invoices s))
      (fun _ inv =>
         lineItems <- getLineItemsByInvoiceId (Invoice.id inv) ;;
         ret {| invoice := inv; lineItems := lineItems |}) ;;
  ret (sort newestInvoiceFirst invoicesWithLineItems).

(** ** The invoice form ([client/src/components/invoice/invoice-form.tsx],
    [line-item-row.tsx]) *)

Module Form.

(** [LineItemFormData] has the fields of a line item of the request. *)
Definition LineItemFormData := Request.item.

(** [{ description: "", quantity: 1, rate: 0 }] *)
Definition blankItem : LineItemFormData :=
  Request.mk_item "" (JS.of_Z 1) JS.posZero.

(** The state [lineItems] when the form opens. *)
Definition initialLineItems : list LineItemFormData := [blankItem].

Definition addLineItem (lineItems : list LineItemFormData)
  : list LineItemFormData :=
  (lineItems ++ [blankItem])%list.

(** [array.filter((_, i) => keep(i))], the index counted from [i]. *)
Fixpoint filterIndex {A} (keep : nat -> bool) (i : nat) (l : list A)
  : list A :=
  match l with
  | [] => []
  | x :: l' =>
      if keep i then x :: filterIndex keep (S i) l'
      else filterIndex keep (S i) l'
  end.

Definition removeLineItem (index : nat) (lineItems : list LineItemFormData)
  : list LineItemFormData :=
  if (1 <? List.length lineItems)%nat
  then filterIndex (fun i => negb (Nat.eqb i index)) 0 lineItems
  else lineItems.

(** A field of [LineItemFormData] with the value the row passes for it. *)
Inductive fieldValue :=
| Description (value : string)
| Quantity (value : JS.number)
| Rate (value : JS.number).

(** [{ ...item, [field]: value }] *)
Definition setField (fv : fieldValue) (item : LineItemFormData)
  : LineItemFormData :=
  match fv with
  | Description v =>
      Request.mk_item v (Request.quantity item) (Request.rate item)
  | Quantity v =>
      Request.mk_item (Request.description item) v (Request.rate item)
  | Rate v =>
      Request.mk_item (Request.description item) (Request.quantity item) v
  end.

(** [array.map((item, i) => f(item, i))], the index counted from [i]. *)
Fixpoint mapIndex {A B} (f : A -> nat -> B) (i : nat) (l : list A)
  : list B :=
  match l with
  | [] => []
  | x :: l' => f x i :: mapIndex f (S i) l'
  end.

Definition updateLineItem (index : nat) (fv : fieldValue)
    (lineItems : list LineItemFormData) : list LineItemFormData :=
  mapIndex (fun item i => if Nat.eqb i index then setField fv item else item)
           0 lineItems.

Record totals := {
  subtotal : JS.number;
  taxAmount : JS.number;
  total : JS.number }.

(** [calculateTotals], from the state [lineItems] and the watched tax rate. *)
Definition calculateTotals (lineItems : list LineItemFormData)
    (watchedTaxRate : JS.number) : totals :=
  let subtotal :=
    fold_left
      (fun sum item =>
         JS.add sum (JS.mul (Request.quantity item) (Request.rate item)))
      lineItems JS.posZero in
  let taxRate :=
    if JS.truthy watchedTaxRate then watchedTaxRate else JS.posZero in
  let taxAmount := JS.mul subtotal (JS.div taxRate (JS.of_Z 100)) in
  let total := JS.add subtotal taxAmount in
  {| subtotal := subtotal; taxAmount := taxAmount; total := total |}.

(** The three amounts as the form shows them: [subtotal.toFixed(2)],
    [taxAmount.toFixed(2)], [total.toFixed(2)]. *)
Definition shownTotals (lineItems : list LineItemFormData)
    (watchedTaxRate : JS.number) : string * string * string :=
  let t := calculateTotals lineItems watchedTaxRate in
  (JS.toFixed (subtotal t) 2, JS.toFixed (taxAmount t) 2,
   JS.toFixed (total t) 2).

(** The amount a row shows: [(item.quantity * item.rate).toFixed(2)]. *)
Definition shownAmount (item : LineItemFormData) : string :=
  JS.toFixed (JS.mul (Request.quantity item) (Request.rate item)) 2.

(** [onSubmit]: the validated form data with the state [lineItems] in
    place of its line items. *)
Definition onSubmit (data : Request.t) (lineItems : list LineItemFormData)
  : Request.t :=
  {| Request.clientName := Request.clientName data;
     Request.clientEmail := Request.clientEmail data;
     Request.clientAddress := Request.clientAddress data;
     Request.issueDate := Request.issueDate data;
     Request.dueDate := Request.dueDate data;
     Request.taxRate := Request.taxRate data;
     Request.notes := Request.notes data;
     Request.lineItems := lineItems |}.

(** The row of a line item ([line-item-row.tsx]) passes for the quantity
    [parseInt(e.target.value) || 1] and for the rate
    [parseFloat(e.target.value) || 0]; the field of the tax rate is set the
    same way as a rate. *)
Definition typedQuantity (value : string) : JS.number :=
  let n := JS.parseInt value in
  if JS.truthy n then n else JS.of_Z 1.

Definition typedRate (value : string) : JS.number :=
  let x := JS.parseFloat value in
  if JS.truthy x then x else JS.posZero.

(** What the user can do to the line items of the form. *)
Inductive action :=
| Add
| Remove (index : nat)
| TypeDescription (index : nat) (value : string)
| TypeQuantity (index : nat) (value : string)
| TypeRate (index : nat) (value : string).

Definition step (lineItems : list LineItemFormData) (a : action)
  : list LineItemFormData :=
  match a with
  | Add => addLineItem lineItems
  | Remove index => removeLineItem index lineItems
  | TypeDescription index value =>
      updateLineItem index (Description value) lineItems
  | TypeQuantity index value =>
      updateLineItem index (Quantity (typedQuantity value)) lineItems
  | TypeRate index value =>
      updateLineItem index (Rate (typedRate value)) lineItems
  end.

(** The line items after the actions, from the form as it opens. *)
Definition after (actions : list action) : list LineItemFormData :=
  fold_left step actions initialLineItems.

End Form.
(** ** Stores whose records are filed under their own ids *)

(** Every entry of the map is filed under the key [key] reads off it. *)
Definition keyedBy {V} (key : V -> string) (m : SMap.t V) : Prop :=
  Forall (fun kv => key (snd kv) = fst kv) m.

Definition store_wf (s : MemStorage) : Prop :=
  keyedBy Client.id (clients s) /\ unique_keys (clients s)
  /\ keyedBy Invoice.id (invoices s) /\ unique_keys (invoices s)
  /\ keyedBy LineItem.id (lineItemsMap s) /\ unique_keys (lineItemsMap s).

(** The UUIDs drawn for [n] line items are pairwise distinct and new to the
    store. *)
Definition freshLineIds (lineId : nat -> string) (n : nat) (s : MemStorage)
  : Prop :=
  NoDup (map lineId (seq 0 n))
  /\ Forall (fun i => SMap.get (lineId i) (lineItemsMap s) = None) (seq 0 n).

(** The entry a line item is stored as. *)
Definition entryOf (l : LineItem.t) : string * LineItem.t := (LineItem.id l, l).

(** The operations on invoices; the others are those on clients and on line
    items. *)
Definition onInvoices (o : op) : bool :=
  match o with
  | CreateInvoice _ _ _ _ _ | UpdateInvoice _ _ _ | DeleteInvoice _ => true
  | _ => false
  end.

(** The store after the operations [ops], run in order on the store [s]. *)
Definition runFrom (s : MemStorage) (ops : list op) : MemStorage :=
  fold_left (fun s o => exec o s) ops s.

(** The patch without fields. *)
Definition emptyLinePatch : InsertLineItem.partial :=
  InsertLineItem.mkp None None None None None.

(** What [getInvoice] answers for a stored invoice: the record with the
    line items that name its id. *)
Definition withLineItems (s : MemStorage) (inv : Invoice.t)
  : InvoiceWithLineItems :=
  {| invoice := inv;
     lineItems := fst (getLineItemsByInvoiceId (Invoice.id inv) s) |}.

(** Newest first: no later element was created after an earlier one. *)
Definition newestFirst {A} (time : A -> Z) (l : list A) : Prop :=
  StronglySorted (fun a b => time b <= time a) l.

(** The elements of [l] with the creation time [t], in their order. *)
Definition createdAtTime {A} (time : A -> Z) (t : Z) (l : list A) : list A :=
  filter (fun a => time a =? t) l.

Definition clientTime (c : Client.t) : Z := timeOf (Client.createdAt c).

Definition invoiceTime (r : InvoiceWithLineItems) : Z :=
  timeOf (Invoice.createdAt (invoice r)).
(** ** Stores and inputs the properties are shown at *)

(** The store of [twoInvoices]. *)
Definition twoInvoiceStore : MemStorage := run twoInvoices.

Definition sampleClient : InsertClient.t :=
  {| InsertClient.name := "Acme";
     InsertClient.email := "billing@acme.test";
     InsertClient.address := Some "" |}.

(** One client, as it is stored. *)
Definition storedClient : Client.t :=
  {| Client.id := "k";
     Client.name := "Acme";
     Client.email := "billing@acme.test";
     Client.address := None;
     Client.createdAt := Some 1 |}.

Definition oneClient : MemStorage := run [CreateClient "k" 1 sampleClient].

(** The patch [{ address: "" }]. *)
Definition emptyAddress : InsertClient.partial :=
  InsertClient.mkp None None (Some (Some "")).

(** The stray line item, as it is stored. *)
Definition storedStray : LineItem.t :=
  {| LineItem.id := "l1";
     LineItem.invoiceId := "ghost";
     LineItem.description := "stray";
     LineItem.quantity := dec "1";
     LineItem.rate := "5.00";
     LineItem.amount := "5.00" |}.

(** The patch [{ quantity: 3 }]. *)
Definition threeOfThem : InsertLineItem.partial :=
  InsertLineItem.mkp None None (Some (dec "3")) None None.

(** A line item added to the first of two invoices, one taken from it and
    one changed, and a client added. *)
Definition lineItemEdits : list op :=
  [ CreateLineItem "x" {| InsertLineItem.invoiceId := "a";
                          InsertLineItem.description := "extra";
                          InsertLineItem.quantity := Some (dec "2");
                          InsertLineItem.rate := Some "40.00";
                          InsertLineItem.amount := Some "80.00" |};
    DeleteLineItem "a/0";
    UpdateLineItem "a/1" threeOfThem;
    CreateClient "k" 9 sampleClient ].

(** The third invoice of [statsStore], as it is stored. *)
Definition sentInvoice : Invoice.t :=
  {| Invoice.id := "c";
     Invoice.invoiceNumber := "INV-003";
     Invoice.clientId := None;
     Invoice.clientName := "Acme";
     Invoice.clientEmail := "billing@acme.test";
     Invoice.clientAddress := None;
     Invoice.issueDate := "2024-01-01";
     Invoice.dueDate := None;
     Invoice.status := "sent";
     Invoice.subtotal := "80.00";
     Invoice.taxRate := "5.00";
     Invoice.taxAmount := "4.00";
     Invoice.total := "84.00";
     Invoice.notes := None;
     Invoice.createdAt := Some 3;
     Invoice.updatedAt := Some 7 |}.

(** * Properties *)

Arguments JS.of_Z : simpl never.
Arguments JS.toFixed : simpl never.
Arguments JS.ToString : simpl never.
Arguments JS.parseInt : simpl never.
Arguments JS.parseFloat : simpl never.
Arguments JS.add : simpl never.
Arguments JS.mul : simpl never.
Arguments JS.div : simpl never.
Arguments JS.Math_max : simpl never.
Arguments Str.padStart : simpl never.
Arguments Str.replace : simpl never.
Arguments Str.startsWith : simpl never.
Arguments or_string : simpl never.
Arguments or_null : simpl never.

(** ** Strings that are never empty *)

Lemma append_nonempty_l (a b : string) : a <> "" -> (a ++ b)%string <> "".
Proof. destruct a; [congruence | discriminate]. Qed.

Lemma append_nonempty_r (a b : string) : b <> "" -> (a ++ b)%string <> "".
Proof. destruct a, b; simpl; congruence. Qed.

Lemma digits_nonempty (n : Z) : Str.digits n <> "".
Proof.
  unfold Str.digits; simpl.
  destruct (n <? 10); [discriminate |].
  apply append_nonempty_r; discriminate.
Qed.

Lemma render_nonempty (s n : Z) : JS.render s n <> "".
Proof.
  unfold JS.render.
  repeat match goal with |- context [if ?c then _ else _] => destruct c end;
    first [ apply append_nonempty_l, digits_nonempty
          | apply append_nonempty_r; discriminate
          | discriminate ].
Qed.

Lemma ToString_nonempty (x : JS.number) : JS.ToString x <> "".
Proof.
  destruct x as [s | s | | s m e]; unfold JS.ToString; try discriminate.
  - destruct s; discriminate.
  - apply append_nonempty_r.
    destruct (JS.integer_value m e) as [a |].
    + destruct (a <? JS.safe_bound); [apply digits_nonempty |].
      destruct (JS.shortest m e); apply render_nonempty.
    + destruct (JS.shortest m e); apply render_nonempty.
Qed.

Lemma fixed_digits_nonempty (n : Z) (f : nat) : JS.fixed_digits n f <> "".
Proof.
  unfold JS.fixed_digits; destruct f; [apply digits_nonempty |].
  apply append_nonempty_r; discriminate.
Qed.

Lemma toFixed_nonempty (x : JS.number) (f : nat) : JS.toFixed x f <> "".
Proof.
  destruct x as [s | s | | s m e]; unfold JS.toFixed.
  - apply fixed_digits_nonempty.
  - apply ToString_nonempty.
  - apply ToString_nonempty.
  - destruct (JS.ratio m e) as [P Q].
    apply append_nonempty_r.
    destruct (10 ^ 21 * Q <=? P);
      [apply ToString_nonempty | apply fixed_digits_nonempty].
Qed.

Lemma or_string_nonempty (s d : string) : s <> "" -> or_string (Some s) d = s.
Proof. destruct s; [congruence | reflexivity]. Qed.

(** ** The map *)

Lemma get_set_same {V} (k : string) (v : V) (m : SMap.t V) :
  SMap.get k (SMap.set k v m) = Some v.
Proof.
  induction m as [| [k' v'] m IH]; simpl.
  - now rewrite String.eqb_refl.
  - destruct (String.eqb k' k) eqn:E; simpl.
    + now rewrite String.eqb_refl.
    + now rewrite E.
Qed.

Lemma remove_absent {V} (k : string) (m : SMap.t V) :
  SMap.get k m = None -> SMap.remove k m = m.
Proof.
  induction m as [| [k' v'] m IH]; simpl; [reflexivity |].
  destruct (String.eqb k' k); simpl; [discriminate |].
  intros H; now rewrite IH.
Qed.

Lemma get_remove_same {V} (k : string) (m : SMap.t V) :
  SMap.get k (SMap.remove k m) = None.
Proof.
  induction m as [| [k' v'] m IH]; simpl; [reflexivity |].
  destruct (String.eqb k' k) eqn:E; simpl; [assumption |].
  now rewrite E.
Qed.

(** ** What [createInvoice] does to the store *)

Section CreateInvoice.
Variables (id : string) (lineId : nat -> string) (created updated : Date).
Variable r : Request.t.
Variable s : MemStorage.

Lemma fold_amounts (items : list Request.item) (acc : JS.number) :
  fold_left (fun sum (item : Request.item * JS.number) => JS.add sum (snd item))
    (map (fun item => (item, JS.mul (Request.quantity item) (Request.rate item)))
         items) acc
  = fold_left JS.add (map lineAmount items) acc.
Proof.
  revert acc; induction items as [| it items IH]; intros acc; simpl;
    [reflexivity | apply IH].
Qed.

Lemma createLineItems_run (items : list Request.item) (i : nat)
    (st : MemStorage) :
  for_collect i
    (map (fun item => (item, JS.mul (Request.quantity item) (Request.rate item)))
         items)
    (fun i item =>
       createLineItem (lineId i)
         {| InsertLineItem.invoiceId := id;
            InsertLineItem.description := Request.description (fst item);
            InsertLineItem.quantity := Some (Request.quantity (fst item));
            InsertLineItem.rate :=
              Some (JS.toFixed (Request.rate (fst item)) 2);
            InsertLineItem.amount := Some (JS.toFixed (snd item) 2) |}) st
  = (madeLineItems id lineId i items,
     {| clients := clients st; invoices := invoices st;
        lineItemsMap :=
          fold_left put_lineItem (madeLineItems id lineId i items)
                    (lineItemsMap st);
        invoiceCounter := invoiceCounter st |}).
Proof.
  revert i st; induction items as [| it items IH]; intros i st; simpl.
  - now destruct st.
  - unfold bind at 1. unfold createLineItem at 1.
    unfold bind, get_store, set_lineItems, ret; simpl.
    unfold bind in IH. rewrite IH.
    rewrite !or_string_nonempty by apply toFixed_nonempty.
    reflexivity.
Qed.

Lemma createInvoice_run :
  createInvoice id lineId created updated r s
  = ({| invoice := madeInvoice id created updated r s;
        lineItems := madeLineItems id lineId 0 (Request.lineItems r) |},
     {| clients := clients s;
        invoices := SMap.set id (madeInvoice id created updated r s) (invoices s);
        lineItemsMap :=
          fold_left put_lineItem
                    (madeLineItems id lineId 0 (Request.lineItems r))
                    (lineItemsMap s);
        invoiceCounter := invoiceCounter s |}).
Proof.
  unfold createInvoice.
  unfold bind at 1. unfold getNextInvoiceNumber at 1.
  unfold bind at 1, get_store at 1, ret at 1.
  unfold bind at 1, get_store at 1.
  unfold bind at 1, set_invoices at 1.
  unfold bind at 1.
  rewrite createLineItems_run; simpl.
  unfold ret, madeInvoice, rawTotal, rawTax, rawSubtotal, round2,
    getNextInvoiceNumber, bind, get_store; simpl.
  rewrite !fold_amounts. reflexivity.
Qed.
End CreateInvoice.

(** ** The built-ins on values whose results are known *)

Example ToString_samples :
  map JS.ToString
      [ JS.of_Z 0; JS.of_Z 4; JS.of_Z (-4); JS.of_Z (2 ^ 53);
        JS.of_Z (10 ^ 21); JS.of_Z 123456789012345680000; JS.of_Z (2 ^ 70);
        JS.add (dec "0.1") (dec "0.2"); dec "1e-7"; dec "123.456";
        dec "5e-324"; dec "1.7976931348623157e308"; JS.NaN;
        JS.of_Z (10 ^ 400) ]
  = [ "0"; "4"; "-4"; "9007199254740992"; "1e+21"; "123456789012345680000";
      "1.1805916207174113e+21"; "0.30000000000000004"; "1e-7"; "123.456";
      "5e-324"; "1.7976931348623157e+308"; "NaN"; "Infinity" ].
Proof. vm_compute; reflexivity. Qed.

Example toFixed_samples :
  map round2
      [ dec "1.005"; dec "0.125"; dec "8.345"; dec "10.235"; dec "0.015";
        dec "-0.001"; dec "-0"; dec "150"; dec "1e21"; JS.NaN ]
  = [ "1.00"; "0.13"; "8.35"; "10.23"; "0.01"; "-0.00"; "0.00"; "150.00";
      "1e+21"; "NaN" ].
Proof. vm_compute; reflexivity. Qed.

Example parseInt_samples :
  map (fun s => JS.ToString (JS.parseInt s))
      [ "12"; "007"; "12abc"; "ABC"; ""; "-5"; " 42"; "+3"; "0x1F"; "0x";
        "1e3"; "3.7"; "--5"; "9007199254740993" ]
  = [ "12"; "7"; "12"; "NaN"; "NaN"; "-5"; "42"; "3"; "31"; "NaN"; "1";
      "3"; "NaN"; "9007199254740992" ].
Proof. vm_compute; reflexivity. Qed.

Example parseFloat_samples :
  map (fun s => JS.ToString (JS.parseFloat s))
      [ "150.00"; ".5"; "5."; "."; "1e"; "-.5e1x"; "  12px"; "abc";
        "-Infinity"; "4.35"; "0.1" ]
  = [ "150"; "0.5"; "5"; "NaN"; "1"; "-5"; "12"; "NaN"; "-Infinity"; "4.35";
      "0.1" ].
Proof. vm_compute; reflexivity. Qed.

Example Math_max_samples :
  map (fun xs => JS.ToString (JS.Math_max xs))
      [ []; [JS.of_Z 1; JS.of_Z 3; JS.of_Z 2]; [JS.of_Z (-5)];
        [JS.of_Z 3; JS.NaN; JS.of_Z 4] ]
  = [ "-Infinity"; "3"; "-5"; "NaN" ].
Proof. vm_compute; reflexivity. Qed.

(** The search for the shortest significand finds the digits of an integer
    below [2 ^ 53], as the shorter path of [ToString] has them. *)
Example searched_digits_samples :
  forallb (fun n => String.eqb (searchedDigits n) (Str.digits n))
          [ 1; 7; 10; 99; 100; 999; 1000; 12345; 4503599627370496;
            123456789012345; 1000000000000000; 9007199254740991 ]
  = true.
Proof. vm_compute; reflexivity. Qed.

Example padStart_samples :
  map (fun s => Str.padStart s 3 "0") [ "4"; "42"; "123"; "1000"; "-4" ]
  = [ "004"; "042"; "123"; "1000"; "0-4" ].
Proof. vm_compute; reflexivity. Qed.

(** The conversion of a quotient of integers agrees with the division of
    numbers where both integers are exact. *)
Example of_ratio_samples :
  forallb (fun pq => JS.same (JS.of_ratio (fst pq) (snd pq))
                             (JS.div (JS.of_Z (fst pq)) (JS.of_Z (snd pq))))
          [ (1, 10); (4, 1000); (1, 3); (2, 3); (315, 1000); (1005, 1000);
            (9007199254740991, 7); (1, 9007199254740991) ]
  = true.
Proof. vm_compute; reflexivity. Qed.

(** ** Integers as numbers *)

Lemma iter_xO_val (p k : positive) :
  Z.pos (Pos.iter xO p k) = Z.pos p * 2 ^ Z.pos k.
Proof.
  induction k as [| k IH] using Pos.peano_ind.
  - simpl. lia.
  - rewrite Pos.iter_succ, Pos2Z.inj_succ, Z.pow_succ_r by lia.
    change (Z.pos (Pos.iter xO p k)~0) with (2 * Z.pos (Pos.iter xO p k)).
    rewrite IH. ring.
Qed.

Lemma shift_left_val (p : positive) (k : Z) :
  0 <= k -> Z.pos (shift_left p k) = Z.pos p * 2 ^ k.
Proof.
  destruct k as [| k | k]; intros Hk; simpl shift_left.
  - simpl; lia.
  - apply iter_xO_val.
  - lia.
Qed.

Lemma iter_xO_digits (p k : positive) :
  Z.pos (digits2_pos (Pos.iter xO p k)) = Z.pos (digits2_pos p) + Z.pos k.
Proof.
  induction k as [| k IH] using Pos.peano_ind.
  - simpl. lia.
  - rewrite Pos.iter_succ. simpl digits2_pos.
    rewrite Pos2Z.inj_succ, IH. lia.
Qed.

Lemma shift_left_digits (p : positive) (k : Z) :
  0 <= k ->
  Z.pos (digits2_pos (shift_left p k)) = Z.pos (digits2_pos p) + k.
Proof.
  destruct k as [| k | k]; intros Hk; simpl shift_left.
  - lia.
  - apply iter_xO_digits.
  - lia.
Qed.

Ltac pow_atoms :=
  repeat match goal with
         | H : context [2 ^ ?e] |- _ =>
             let a := fresh "pw" in set (a := 2 ^ e) in *; clearbody a
         | |- context [2 ^ ?e] =>
             let a := fresh "pw" in set (a := 2 ^ e) in *; clearbody a
         end; lia.

Lemma digits2_bounds (p : positive) :
  2 ^ (Z.pos (digits2_pos p) - 1) <= Z.pos p < 2 ^ Z.pos (digits2_pos p).
Proof.
  induction p as [p IH | p IH |]; simpl digits2_pos.
  - rewrite Pos2Z.inj_succ. change (Z.pos p~1) with (2 * Z.pos p + 1).
    replace (Z.succ (Z.pos (digits2_pos p)) - 1)
      with (Z.succ (Z.pos (digits2_pos p) - 1)) by lia.
    rewrite !Z.pow_succ_r by lia. pow_atoms.
  - rewrite Pos2Z.inj_succ. change (Z.pos p~0) with (2 * Z.pos p).
    replace (Z.succ (Z.pos (digits2_pos p)) - 1)
      with (Z.succ (Z.pos (digits2_pos p) - 1)) by lia.
    rewrite !Z.pow_succ_r by lia. pow_atoms.
  - simpl. lia.
Qed.

Lemma digits2_le (p : positive) (n : Z) :
  0 <= n -> Z.pos p < 2 ^ n -> Z.pos (digits2_pos p) <= n.
Proof.
  intros Hn Hp.
  destruct (Z.le_gt_cases (Z.pos (digits2_pos p)) n) as [H | H]; [exact H |].
  pose proof (digits2_bounds p) as [Hlo _].
  assert (2 ^ n <= 2 ^ (Z.pos (digits2_pos p) - 1))
    by (apply Z.pow_le_mono_r; lia).
  lia.
Qed.

Lemma fexp_normal (d : Z) :
  -1021 <= d -> fexp JS.prec JS.emax d = d - 53.
Proof.
  intros Hd. unfold fexp, emin, JS.prec, JS.emax. lia.
Qed.

Lemma shl_align_shift (p : positive) (e e' : Z) :
  e' <= e -> shl_align p e e' = (shift_left p (e - e'), e').
Proof.
  intros He. unfold shl_align, shift_left.
  destruct (e' - e) as [| d | d] eqn:E.
  - replace (e - e') with 0 by lia. f_equal. lia.
  - lia.
  - replace (e - e') with (Z.pos d) by lia. reflexivity.
Qed.

(** Rounding leaves a 53-bit significand as it is. *)
Lemma round_aux_full (sx : bool) (m : positive) (e : Z) :
  Z.pos (digits2_pos m) = 53 -> -1074 <= e <= 971 ->
  binary_round_aux JS.prec JS.emax sx (Z.pos m) e loc_Exact
  = S754_finite sx m e.
Proof.
  intros Hd He.
  unfold binary_round_aux, shr_fexp. cbn [Zdigits2 shr_record_of_loc].
  rewrite Hd, fexp_normal by lia.
  replace (53 + e - 53 - e) with 0 by lia.
  cbn [shr shr_m loc_of_shr_record round_nearest_even Zdigits2
       shr_record_of_loc].
  rewrite Hd, fexp_normal by lia.
  replace (53 + e - 53 - e) with 0 by lia.
  cbn [shr shr_m].
  replace (e <=? JS.emax - JS.prec) with true; [reflexivity |].
  symmetry; apply Z.leb_le. unfold JS.emax, JS.prec. lia.
Qed.

Lemma of_Z_pos (p : positive) :
  Z.pos p < 2 ^ 53 -> JS.of_Z (Z.pos p) = canonical p.
Proof.
  intros Hp.
  pose proof (digits2_le p 53 ltac:(lia) Hp) as Hd.
  unfold JS.of_Z, binary_normalize, binary_round, canonical.
  set (d := Z.pos (digits2_pos p)) in *.
  assert (1 <= d) by (unfold d; lia).
  rewrite fexp_normal by lia.
  rewrite shl_align_shift by lia.
  replace (0 - (d + 0 - 53)) with (53 - d) by lia.
  replace (d + 0 - 53) with (d - 53) by lia.
  apply round_aux_full; [| lia].
  rewrite shift_left_digits by lia. fold d. lia.
Qed.

Lemma shift_left_add (p : positive) (a b : Z) :
  0 <= a -> 0 <= b -> shift_left (shift_left p a) b = shift_left p (a + b).
Proof.
  intros Ha Hb. apply Pos2Z.inj.
  rewrite !shift_left_val by lia.
  rewrite Z.pow_add_r by lia. ring.
Qed.

Lemma iter_pos_iter {A} (f : A -> A) (n : positive) (x : A) :
  iter_pos f n x = Pos.iter f x n.
Proof.
  revert x; induction n as [n IH | n IH |]; intros x; simpl.
  - rewrite !IH. now rewrite !Pos.iter_swap.
  - now rewrite !IH.
  - reflexivity.
Qed.

(** Shifting right the bits that a shift to the left brought in is exact. *)
Lemma shr_exact (q n : positive) :
  iter_pos shr_1 n
    {| shr_m := Z.pos (Pos.iter xO q n); shr_r := false; shr_s := false |}
  = {| shr_m := Z.pos q; shr_r := false; shr_s := false |}.
Proof.
  rewrite iter_pos_iter.
  induction n as [| n IH] using Pos.peano_ind.
  - reflexivity.
  - rewrite Pos.iter_succ_r, Pos.iter_succ. exact IH.
Qed.

(** An integer below [2 ^ 53], given with [j] more bits, is rounded to
    itself. *)
Lemma round_shifted (c : positive) (j : Z) :
  Z.pos c < 2 ^ 53 -> 0 <= j <= 1000 ->
  binary_round JS.prec JS.emax false (shift_left c j) (- j) = canonical c.
Proof.
  intros Hc Hj.
  pose proof (digits2_le c 53 ltac:(lia) Hc) as Hd.
  unfold binary_round, canonical.
  rewrite shift_left_digits by lia.
  set (d := Z.pos (digits2_pos c)) in *.
  assert (1 <= d) by (unfold d; lia).
  rewrite fexp_normal by lia.
  replace (d + j + - j - 53) with (d - 53) by lia.
  destruct (Z.le_gt_cases j (53 - d)) as [Hle | Hgt].
  - rewrite shl_align_shift by lia.
    rewrite shift_left_add by lia.
    replace (j + (- j - (d - 53))) with (53 - d) by lia.
    apply round_aux_full; [| lia].
    rewrite shift_left_digits by lia. fold d. lia.
  - unfold shl_align.
    destruct (d - 53 - - j) as [| n | n] eqn:E; try lia.
    unfold binary_round_aux, shr_fexp. cbn [Zdigits2 shr_record_of_loc].
    rewrite shift_left_digits by lia. fold d.
    rewrite fexp_normal by lia.
    replace (d + j + - j - 53 - - j) with (Z.pos n) by lia.
    cbn [shr].
    replace (shift_left c j)
      with (Pos.iter xO (shift_left c (53 - d)) n).
    2:{ change (Pos.iter xO (shift_left c (53 - d)) n)
          with (shift_left (shift_left c (53 - d)) (Z.pos n)).
        rewrite shift_left_add by lia. f_equal. lia. }
    rewrite shr_exact.
    cbn [shr_m loc_of_shr_record round_nearest_even Zdigits2
         shr_record_of_loc].
    rewrite shift_left_digits by lia. fold d.
    replace (d + (53 - d) + (- j + Z.pos n)) with d by lia.
    rewrite fexp_normal by lia.
    replace (d - 53 - (- j + Z.pos n)) with 0 by lia.
    cbn [shr shr_m].
    replace (- j + Z.pos n) with (d - 53) by lia.
    replace (d - 53 <=? JS.emax - JS.prec) with true; [reflexivity |].
    symmetry; apply Z.leb_le. unfold JS.emax, JS.prec. lia.
Qed.

(** Addition of integers is exact below [2 ^ 53]. *)
Lemma add_canonical (a b : positive) :
  Z.pos a + Z.pos b < 2 ^ 53 ->
  JS.add (canonical a) (canonical b) = canonical (a + b).
Proof.
  intros Hab.
  assert (Ha : Z.pos a < 2 ^ 53) by lia.
  assert (Hb : Z.pos b < 2 ^ 53) by lia.
  pose proof (digits2_le a 53 ltac:(lia) Ha) as Hda.
  pose proof (digits2_le b 53 ltac:(lia) Hb) as Hdb.
  unfold JS.add, canonical, SFadd.
  set (da := Z.pos (digits2_pos a)) in *.
  set (db := Z.pos (digits2_pos b)) in *.
  assert (1 <= da) by (unfold da; lia).
  assert (1 <= db) by (unfold db; lia).
  rewrite !shl_align_shift by lia.
  cbn [fst cond_Zopp].
  rewrite !shift_left_add by lia.
  set (j := 53 - Z.min da db).
  replace (53 - da + (da - 53 - Z.min (da - 53) (db - 53))) with j
    by (unfold j; lia).
  replace (53 - db + (db - 53 - Z.min (da - 53) (db - 53))) with j
    by (unfold j; lia).
  replace (Z.min (da - 53) (db - 53)) with (- j) by (unfold j; lia).
  replace (Z.pos (shift_left a j) + Z.pos (shift_left b j))
    with (Z.pos (shift_left (a + b) j)).
  2:{ rewrite !shift_left_val by (unfold j; lia).
      rewrite Pos2Z.inj_add. ring. }
  cbn [binary_normalize].
  apply round_shifted; [rewrite Pos2Z.inj_add | unfold j]; lia.
Qed.

Lemma integer_value_shifted (p : positive) (k : Z) :
  0 <= k -> JS.integer_value (shift_left p k) (- k) = Some (Z.pos p).
Proof.
  intros Hk. unfold JS.integer_value.
  rewrite shift_left_val by lia.
  destruct (Z.leb_spec 0 (- k)) as [H0 | H0].
  - replace k with 0 by lia. simpl. f_equal. lia.
  - replace (- - k) with k by lia.
    assert (0 < 2 ^ k) by (apply Z.pow_pos_nonneg; lia).
    rewrite Z.mod_mul, Z.div_mul by lia. reflexivity.
Qed.

(** [String(n)] for a natural number below [2 ^ 53]. *)
Lemma ToString_of_Z (n : Z) :
  0 <= n < 2 ^ 53 -> JS.ToString (JS.of_Z n) = Str.digits n.
Proof.
  intros [H0 Hn].
  destruct n as [| p | p]; [reflexivity | | lia].
  rewrite of_Z_pos by assumption.
  pose proof (digits2_le p 53 ltac:(lia) Hn) as Hd.
  unfold canonical, JS.ToString.
  replace (Z.pos (digits2_pos p) - 53) with (- (53 - Z.pos (digits2_pos p)))
    by lia.
  rewrite integer_value_shifted by lia.
  unfold JS.safe_bound.
  destruct (Z.ltb_spec (Z.pos p) (2 ^ 53)); [reflexivity | lia].
Qed.

(** The order of the numbers is the order of the integers below [2 ^ 53]. *)
Lemma compare_canonical (a b : positive) :
  Z.pos a < 2 ^ 53 -> Z.pos b < 2 ^ 53 ->
  SFcompare (canonical a) (canonical b) = Some (Pos.compare a b).
Proof.
  intros Ha Hb.
  pose proof (digits2_le a 53 ltac:(lia) Ha) as Hda.
  pose proof (digits2_le b 53 ltac:(lia) Hb) as Hdb.
  pose proof (digits2_bounds a) as [Hal Hah].
  pose proof (digits2_bounds b) as [Hbl Hbh].
  unfold canonical, SFcompare. f_equal.
  set (da := Z.pos (digits2_pos a)) in *.
  set (db := Z.pos (digits2_pos b)) in *.
  destruct (Z.compare_spec (da - 53) (db - 53)) as [E | E | E].
  - replace db with da by lia.
    change (Pos.compare_cont Eq ?x ?y) with (Pos.compare x y).
    rewrite !Pos2Z.inj_compare, !shift_left_val by lia.
    assert (0 < 2 ^ (53 - da)) by (apply Z.pow_pos_nonneg; lia).
    destruct (Z.compare_spec (Z.pos a) (Z.pos b)) as [E' | E' | E'].
    + rewrite E'. apply Z.compare_refl.
    + apply Z.compare_lt_iff. now apply Z.mul_lt_mono_pos_r.
    + apply Z.compare_gt_iff. now apply Z.mul_lt_mono_pos_r.
  - symmetry. apply Pos.compare_lt_iff.
    assert (2 ^ da <= 2 ^ (db - 1)) by (apply Z.pow_le_mono_r; lia).
    lia.
  - symmetry. apply Pos.compare_gt_iff.
    assert (2 ^ db <= 2 ^ (da - 1)) by (apply Z.pow_le_mono_r; lia).
    lia.
Qed.

Lemma ltb_of_Z (a b : Z) :
  0 <= a < 2 ^ 53 -> 0 <= b < 2 ^ 53 ->
  JS.ltb (JS.of_Z a) (JS.of_Z b) = (a <? b).
Proof.
  intros [Ha0 Ha] [Hb0 Hb]. unfold JS.ltb, SFltb.
  destruct a as [| a | a], b as [| b | b]; try lia; try reflexivity.
  - now rewrite of_Z_pos.
  - now rewrite of_Z_pos.
  - rewrite !of_Z_pos, compare_canonical by assumption.
    change (Z.pos a <? Z.pos b) with (Pos.ltb a b).
    unfold Pos.ltb. now destruct (Pos.compare a b).
Qed.

Lemma of_Z_inj (a b : Z) :
  0 <= a < 2 ^ 53 -> 0 <= b < 2 ^ 53 -> JS.of_Z a = JS.of_Z b -> a = b.
Proof.
  intros Ha Hb E.
  pose proof (ltb_of_Z a b Ha Hb) as H1.
  pose proof (ltb_of_Z b a Hb Ha) as H2.
  pose proof (ltb_of_Z b b Hb Hb) as H3.
  rewrite E in H1. rewrite E in H2.
  rewrite Z.ltb_irrefl in H3.
  rewrite H3 in H1, H2.
  destruct (Z.ltb_spec a b), (Z.ltb_spec b a); try discriminate; lia.
Qed.

Lemma add_of_Z (a b : Z) :
  0 <= a -> 0 <= b -> a + b < 2 ^ 53 ->
  JS.add (JS.of_Z a) (JS.of_Z b) = JS.of_Z (a + b).
Proof.
  intros Ha Hb Hab.
  destruct a as [| a | a], b as [| b | b]; try lia; try reflexivity.
  - change (0 + Z.pos b) with (Z.pos b).
    rewrite of_Z_pos by lia. reflexivity.
  - change (Z.pos a + 0) with (Z.pos a).
    rewrite of_Z_pos by lia. reflexivity.
  - rewrite !of_Z_pos by lia.
    change (Z.pos a + Z.pos b) with (Z.pos (a + b)).
    rewrite of_Z_pos by (rewrite Pos2Z.inj_add; lia).
    now apply add_canonical.
Qed.

(** ** The order of the numbers *)

Ltac compare_cases :=
  repeat match goal with
         | H : context [Z.compare ?a ?b] |- _ =>
             destruct (Z.compare_spec a b)
         | |- context [Z.compare ?a ?b] => destruct (Z.compare_spec a b)
         | H : context [Pos.compare_cont Eq ?a ?b] |- _ =>
             change (Pos.compare_cont Eq a b) with (Pos.compare a b) in *;
             destruct (Pos.compare_spec a b)
         | |- context [Pos.compare_cont Eq ?a ?b] =>
             change (Pos.compare_cont Eq a b) with (Pos.compare a b) in *;
             destruct (Pos.compare_spec a b)
         end.

Lemma leb_trans (x y z : JS.number) :
  JS.leb x y = true -> JS.leb y z = true -> JS.leb x z = true.
Proof.
  unfold JS.leb, SFleb.
  destruct x as [sx | sx | | sx mx ex], y as [sy | sy | | sy my ey],
    z as [sz | sz | | sz mz ez];
    cbn [SFcompare]; try discriminate; try reflexivity;
    try (destruct sx; discriminate || reflexivity);
    try (destruct sy; discriminate || reflexivity);
    try (destruct sz; discriminate || reflexivity);
    try (destruct sx, sy; discriminate || reflexivity);
    try (destruct sx, sz; discriminate || reflexivity);
    try (destruct sy, sz; discriminate || reflexivity);
    try (destruct sx, sy, sz; discriminate || reflexivity).
  all: destruct sx, sy, sz; try discriminate; try reflexivity.
  all: compare_cases; cbn; try discriminate; try reflexivity; intros; subst;
    try lia.
Qed.

Lemma leb_refl (x : JS.number) : JS.isNaN x = false -> JS.leb x x = true.
Proof.
  unfold JS.leb, SFleb.
  destruct x as [sx | sx | | sx mx ex]; cbn [SFcompare JS.isNaN];
    try discriminate; try reflexivity; intros _.
  - now destruct sx.
  - rewrite Z.compare_refl.
    change (Pos.compare_cont Eq mx mx) with (Pos.compare mx mx).
    rewrite Pos.compare_refl. now destruct sx.
Qed.

Lemma leb_total (x y : JS.number) :
  JS.isNaN x = false -> JS.isNaN y = false ->
  JS.ltb x y = false -> JS.leb y x = true.
Proof.
  unfold JS.leb, JS.ltb, SFleb, SFltb.
  destruct x as [sx | sx | | sx mx ex], y as [sy | sy | | sy my ey];
    cbn [SFcompare JS.isNaN]; try discriminate; try reflexivity; intros _ _;
    try (destruct sx; discriminate || reflexivity);
    try (destruct sy; discriminate || reflexivity);
    try (destruct sx, sy; discriminate || reflexivity).
  destruct sx, sy; try discriminate; try reflexivity;
    compare_cases; cbn; try discriminate; try reflexivity; intros; subst;
    try lia.
Qed.

Lemma ltb_leb (x y : JS.number) : JS.ltb x y = true -> JS.leb x y = true.
Proof.
  unfold JS.leb, JS.ltb, SFleb, SFltb.
  destruct (SFcompare x y) as [[ | | ] |]; congruence.
Qed.

(** ** [Math.max] *)

Lemma max_step_spec (h x : JS.number) :
  JS.isNaN h = false -> JS.isNaN x = false ->
  JS.isNaN (JS.max_step h x) = false
  /\ (JS.max_step h x = h \/ JS.max_step h x = x)
  /\ JS.leb h (JS.max_step h x) = true
  /\ JS.leb x (JS.max_step h x) = true.
Proof.
  intros Hh Hx.
  assert (Hdefault :
            let r := if JS.ltb h x then x else h in
            JS.isNaN r = false /\ (r = h \/ r = x)
            /\ JS.leb h r = true /\ JS.leb x r = true).
  { cbv zeta. destruct (JS.ltb h x) eqn:E.
    - repeat split; auto using ltb_leb, leb_refl.
    - repeat split; auto using leb_total, leb_refl. }
  destruct h as [sh | sh | | sh mh eh]; try discriminate;
    destruct x as [sx | sx | | sx mx ex]; try discriminate;
    try exact Hdefault; try (destruct sh; exact Hdefault).
  destruct sh, sx; try exact Hdefault.
  split; [reflexivity |]. split; [now right |]. split; reflexivity.
Qed.

Lemma fold_max_spec (xs : list JS.number) (h : JS.number) :
  JS.isNaN h = false ->
  Forall (fun x => JS.isNaN x = false) xs ->
  JS.isNaN (fold_left JS.max_step xs h) = false
  /\ In (fold_left JS.max_step xs h) (h :: xs)
  /\ (forall y, In y (h :: xs) -> JS.leb y (fold_left JS.max_step xs h) = true).
Proof.
  revert h; induction xs as [| x xs IH]; intros h Hh Hxs; cbn [fold_left].
  - split; [assumption |]. split; [now left |].
    intros y [<- | []]. now apply leb_refl.
  - inversion Hxs as [| ? ? Hx Hrest]; subst.
    destruct (max_step_spec h x Hh Hx) as [Hn [Hor [Hle1 Hle2]]].
    destruct (IH (JS.max_step h x) Hn Hrest) as [Hn' [Hin Hall]].
    split; [assumption |]. split.
    + destruct Hin as [E | Hin]; [| now right; right].
      rewrite <- E. destruct Hor as [-> | ->]; [now left | now right; left].
    + intros y [<- | [<- | Hy]].
      * apply leb_trans with (JS.max_step h x); [assumption |].
        apply Hall; now left.
      * apply leb_trans with (JS.max_step h x); [assumption |].
        apply Hall; now left.
      * apply Hall; now right.
Qed.

Lemma max_step_first (x : JS.number) :
  JS.isNaN x = false -> JS.max_step (S754_infinity true) x = x.
Proof.
  destruct x as [sx | sx | | sx mx ex]; try discriminate; intros _;
    try reflexivity; now destruct sx.
Qed.

(** The maximum of a non-empty array without [NaN] is one of its elements
    and no element is above it. *)
Lemma Math_max_spec (x : JS.number) (xs : list JS.number) :
  Forall (fun x => JS.isNaN x = false) (x :: xs) ->
  In (JS.Math_max (x :: xs)) (x :: xs)
  /\ (forall y, In y (x :: xs) -> JS.leb y (JS.Math_max (x :: xs)) = true).
Proof.
  intros H. inversion H as [| ? ? Hx Hxs]; subst.
  unfold JS.Math_max; cbn [fold_left]. rewrite max_step_first by assumption.
  destruct (fold_max_spec xs x Hx Hxs) as [_ [Hin Hall]]. now split.
Qed.

(** On natural numbers below [2 ^ 53] it is the maximum of the integers. *)
Lemma max_step_of_Z (a b : Z) :
  0 <= a < 2 ^ 53 -> 0 <= b < 2 ^ 53 ->
  JS.max_step (JS.of_Z a) (JS.of_Z b) = JS.of_Z (Z.max a b).
Proof.
  intros Ha Hb.
  assert (Hdefault : (if JS.ltb (JS.of_Z a) (JS.of_Z b)
                      then JS.of_Z b else JS.of_Z a) = JS.of_Z (Z.max a b)).
  { rewrite ltb_of_Z by assumption.
    destruct (Z.ltb_spec a b); f_equal; lia. }
  destruct a as [| a | a], b as [| b | b]; try lia; try reflexivity.
  - rewrite <- Hdefault. rewrite (of_Z_pos b) by lia. reflexivity.
  - rewrite <- Hdefault. rewrite (of_Z_pos a) by lia. reflexivity.
  - rewrite <- Hdefault. rewrite (of_Z_pos a), (of_Z_pos b) by lia.
    reflexivity.
Qed.

Lemma fold_max_of_Z (zs : list Z) (a : Z) :
  0 <= a < 2 ^ 53 ->
  Forall (fun z => 0 <= z < 2 ^ 53) zs ->
  fold_left JS.max_step (map JS.of_Z zs) (JS.of_Z a)
  = JS.of_Z (fold_left Z.max zs a).
Proof.
  revert a; induction zs as [| z zs IH]; intros a Ha Hzs; cbn [fold_left map];
    [reflexivity |].
  inversion Hzs as [| ? ? Hz Hrest]; subst.
  rewrite max_step_of_Z by assumption. apply IH; [lia | assumption].
Qed.

(** ** Decimal numerals *)

Lemma is_dec_value (c : ascii) :
  JS.is_dec c = true ->
  48 <= Str.char_code c <= 57
  /\ Str.digit_value 10 c = Some (Str.char_code c - 48).
Proof.
  unfold JS.is_dec, Str.is_digit, Str.digit_value.
  set (n := Str.char_code c).
  destruct ((48 <=? n) && (n <=? 57)) eqn:E1.
  - apply andb_prop in E1 as [H1 H2].
    apply Z.leb_le in H1. apply Z.leb_le in H2.
    destruct (Z.ltb_spec (n - 48) 10); [| lia].
    intros _; split; [lia | reflexivity].
  - destruct ((97 <=? n) && (n <=? 122)) eqn:E2.
    + apply andb_prop in E2 as [H1 H2]. apply Z.leb_le in H1.
      destruct (Z.ltb_spec (n - 87) 10); [lia | discriminate].
    + destruct ((65 <=? n) && (n <=? 90)) eqn:E3; [| discriminate].
      apply andb_prop in E3 as [H1 H2]. apply Z.leb_le in H1.
      destruct (Z.ltb_spec (n - 55) 10); [lia | discriminate].
Qed.

Lemma digit_char_dec (d : Z) :
  0 <= d <= 9 ->
  JS.is_dec (Str.digit_char d) = true
  /\ Str.digit_value 10 (Str.digit_char d) = Some d.
Proof.
  intros Hd.
  assert (H : d = 0 \/ d = 1 \/ d = 2 \/ d = 3 \/ d = 4 \/ d = 5 \/ d = 6
              \/ d = 7 \/ d = 8 \/ d = 9) by lia.
  repeat (destruct H as [-> | H]; [split; reflexivity |]).
  subst; split; reflexivity.
Qed.

Lemma all_dec_app (s t : string) :
  all_dec (s ++ t) = all_dec s && all_dec t.
Proof.
  induction s as [| c s IH]; cbn [append all_dec]; [reflexivity |].
  now rewrite IH, andb_assoc.
Qed.

Lemma digits_value_app (s t : string) (acc : Z) :
  all_dec s = true ->
  Str.digits_value 10 (s ++ t) acc
  = Str.digits_value 10 t (Str.digits_value 10 s acc).
Proof.
  revert acc; induction s as [| c s IH]; intros acc; cbn [append all_dec];
    [reflexivity |].
  intros H; apply andb_prop in H as [Hc Hs].
  cbn [Str.digits_value].
  destruct (is_dec_value c Hc) as [_ ->]. now apply IH.
Qed.

Lemma take_while_all_dec (s : string) :
  all_dec s = true -> Str.take_while (Str.is_digit 10) s = s.
Proof.
  induction s as [| c s IH]; cbn [all_dec Str.take_while]; [reflexivity |].
  intros H; apply andb_prop in H as [Hc Hs].
  unfold JS.is_dec in Hc. rewrite Hc. now rewrite IH.
Qed.

Lemma digits_fuel_spec (fuel : nat) (n : Z) :
  0 <= n < 10 ^ Z.of_nat fuel ->
  all_dec (Str.digits_fuel fuel n) = true
  /\ Str.digits_value 10 (Str.digits_fuel fuel n) 0 = n.
Proof.
  revert n; induction fuel as [| fuel IH]; intros n Hn.
  - change (10 ^ Z.of_nat 0) with 1 in Hn.
    replace n with 0 by lia. split; reflexivity.
  - cbn [Str.digits_fuel].
    destruct (Z.ltb_spec n 10) as [Hlt | Hge].
    + destruct (digit_char_dec n ltac:(lia)) as [Hd Hv].
      cbn [all_dec Str.digits_value]. rewrite Hd, Hv. split; [reflexivity | lia].
    + assert (Hq : 0 <= n / 10 < 10 ^ Z.of_nat fuel).
      { rewrite Nat2Z.inj_succ, Z.pow_succ_r in Hn by lia.
        split; [apply Z.div_pos; lia |].
        apply Z.div_lt_upper_bound; lia. }
      destruct (IH (n / 10) Hq) as [Ha Hv].
      destruct (digit_char_dec (n mod 10)
                  ltac:(pose proof (Z.mod_pos_bound n 10); lia)) as [Hd Hdv].
      split.
      * rewrite all_dec_app, Ha. cbn [all_dec]. now rewrite Hd.
      * rewrite digits_value_app by assumption. rewrite Hv.
        cbn [Str.digits_value]. rewrite Hdv.
        pose proof (Z.div_mod n 10). lia.
Qed.

(** The digits of a natural number are decimal digits and denote it. *)
Lemma digits_spec (n : Z) :
  0 <= n ->
  all_dec (Str.digits n) = true /\ Str.digits_value 10 (Str.digits n) 0 = n.
Proof.
  intros Hn. apply digits_fuel_spec. split; [assumption |].
  rewrite Nat2Z.inj_succ, Z2Nat.id by apply Z.log2_nonneg.
  destruct (Z.eq_dec n 0) as [-> | Hnz]; [reflexivity |].
  pose proof (Z.log2_spec n ltac:(lia)) as [_ Hhi].
  assert (2 ^ Z.succ (Z.log2 n) <= 10 ^ Z.succ (Z.log2 n)).
  { apply Z.pow_le_mono_l. lia. }
  lia.
Qed.

(** ** Zero padding *)

Lemma zero_prefix_dec (s : string) : all_dec (String "0" s) = all_dec s.
Proof. reflexivity. Qed.

Lemma zero_prefix_value (s : string) :
  Str.digits_value 10 (String "0" s) 0 = Str.digits_value 10 s 0.
Proof. reflexivity. Qed.

Lemma padStart3_spec (s : string) :
  s <> "" -> all_dec s = true ->
  all_dec (Str.padStart s 3 "0") = true
  /\ Str.digits_value 10 (Str.padStart s 3 "0") 0 = Str.digits_value 10 s 0
  /\ (3 <= String.length (Str.padStart s 3 "0"))%nat.
Proof.
  intros Hne Hs.
  destruct s as [| a [| b [| c r]]]; [congruence | | |].
  - change (Str.padStart (String a "") 3 "0")
      with (String "0" (String "0" (String a ""))).
    rewrite !zero_prefix_dec, !zero_prefix_value.
    split; [assumption |]. split; [reflexivity | cbn; lia].
  - change (Str.padStart (String a (String b "")) 3 "0")
      with (String "0" (String a (String b ""))).
    rewrite !zero_prefix_dec, !zero_prefix_value.
    split; [assumption |]. split; [reflexivity | cbn; lia].
  - change (Str.padStart (String a (String b (String c r))) 3 "0")
      with (String a (String b (String c r))).
    split; [assumption |]. split; [reflexivity | cbn; lia].
Qed.

(** ** [parseInt] on a decimal numeral *)

Lemma is_dec_not_space (c : ascii) : JS.is_dec c = true -> Str.is_space c = false.
Proof.
  intros H. destruct (is_dec_value c H) as [Hc _].
  unfold Str.is_space.
  destruct (Z.leb_spec 9 (Str.char_code c)), (Z.leb_spec (Str.char_code c) 13),
    (Z.eqb_spec (Str.char_code c) 32), (Z.eqb_spec (Str.char_code c) 160);
    cbn; lia || reflexivity.
Qed.

Lemma strip_sign_dec (c : ascii) (r : string) :
  JS.is_dec c = true -> JS.strip_sign (String c r) = (false, String c r).
Proof.
  destruct c as [[] [] [] [] [] [] [] []]; intros H;
    try discriminate H; reflexivity.
Qed.

Lemma strip_hex_single (c : ascii) :
  JS.strip_hex (String c "") = (10, String c "").
Proof. destruct c as [[] [] [] [] [] [] [] []]; reflexivity. Qed.

Lemma strip_hex_not_x (c1 c2 : ascii) (r : string) :
  Ascii.eqb c2 "x" = false -> Ascii.eqb c2 "X" = false ->
  JS.strip_hex (String c1 (String c2 r)) = (10, String c1 (String c2 r)).
Proof.
  intros Hx HX.
  destruct c1 as [[] [] [] [] [] [] [] []]; try reflexivity.
  destruct c2 as [[] [] [] [] [] [] [] []];
    try discriminate Hx; try discriminate HX; reflexivity.
Qed.

Lemma is_dec_not_x (c : ascii) :
  JS.is_dec c = true -> Ascii.eqb c "x" = false /\ Ascii.eqb c "X" = false.
Proof.
  destruct c as [[] [] [] [] [] [] [] []]; intros H;
    try discriminate H; split; reflexivity.
Qed.

Lemma strip_hex_dec (s : string) :
  all_dec s = true -> JS.strip_hex s = (10, s).
Proof.
  destruct s as [| c1 [| c2 r]]; [reflexivity | |].
  - intros _. apply strip_hex_single.
  - cbn [all_dec]. intros H.
    apply andb_prop in H as [_ H]. apply andb_prop in H as [H2 _].
    destruct (is_dec_not_x c2 H2). now apply strip_hex_not_x.
Qed.

Lemma signed_of_Z (n : Z) :
  0 <= n < 2 ^ 53 -> JS.signed false (JS.of_Z n) = JS.of_Z n.
Proof.
  intros [H0 Hn]. destruct n as [| p | p]; [reflexivity | | lia].
  now rewrite of_Z_pos.
Qed.

Lemma parseInt_decimal (s : string) :
  s <> "" -> all_dec s = true -> Str.digits_value 10 s 0 < 2 ^ 53 ->
  0 <= Str.digits_value 10 s 0 ->
  JS.parseInt s = JS.of_Z (Str.digits_value 10 s 0).
Proof.
  intros Hne Hs Hv H0.
  destruct s as [| c r]; [congruence |].
  pose proof Hs as Hs'. cbn [all_dec] in Hs'.
  apply andb_prop in Hs' as [Hc _].
  unfold JS.parseInt, Str.trimStart. cbn [Str.drop_while].
  rewrite (is_dec_not_space c Hc), strip_sign_dec by assumption.
  rewrite strip_hex_dec by assumption.
  rewrite take_while_all_dec by assumption.
  now apply signed_of_Z.
Qed.

(** ** Invoice totals *)

Lemma madeLineItems_amounts (id : string) (lineId : nat -> string)
    (items : list Request.item) (i : nat) :
  map LineItem.amount (madeLineItems id lineId i items)
  = map (fun a => JS.toFixed a 2)
        (map (fun item => JS.mul (Request.quantity item) (Request.rate item))
             items).
Proof.
  revert i; induction items as [| it items IH]; intros i;
    cbn [madeLineItems map]; [reflexivity |].
  now rewrite IH.
Qed.

(** C1: for every request, [createInvoice] takes each line amount as
    quantity times rate, the subtotal as the sum of the amounts, the tax
    amount as subtotal times (tax rate / 100) and the total as subtotal plus
    tax amount, and applies [toFixed(2)] to each of them only when it fills
    the stored records: the sums run over the unrounded values. Three items
    of 0.004 are stored with amount "0.00" each under a subtotal of "0.01". *)
Theorem createInvoice_computes_totals :
  forall (id : string) (lineId : nat -> string) (created updated : Date)
         (r : Request.t) (s : MemStorage),
    let res := fst (createInvoice id lineId created updated r s) in
    let st := snd (createInvoice id lineId created updated r s) in
    let amounts :=
      map (fun item => JS.mul (Request.quantity item) (Request.rate item))
          (Request.lineItems r) in
    let subtotal := fold_left JS.add amounts JS.posZero in
    let taxAmount :=
      JS.mul subtotal (JS.div (Request.taxRate r) (JS.of_Z 100)) in
    let total := JS.add subtotal taxAmount in
    map LineItem.amount (lineItems res)
      = map (fun a => JS.toFixed a 2) amounts
    /\ Invoice.subtotal (invoice res) = JS.toFixed subtotal 2
    /\ Invoice.taxAmount (invoice res) = JS.toFixed taxAmount 2
    /\ Invoice.total (invoice res) = JS.toFixed total 2
    /\ SMap.get id (invoices st) = Some (invoice res)
    /\ lineItemsMap st
         = fold_left put_lineItem (lineItems res) (lineItemsMap s)
    /\ (let ex := fst (createInvoice "a" (lineIdsOf "a") 0 0
                         threeSubcentItems newStorage) in
        map LineItem.amount (lineItems ex) = ["0.00"; "0.00"; "0.00"]
        /\ Invoice.subtotal (invoice ex) = "0.01").
Proof.
  intros id lineId created updated r s.
  rewrite createInvoice_run; cbn [fst snd invoice lineItems invoices
                                   lineItemsMap].
  split; [apply madeLineItems_amounts |].
  do 3 (split; [reflexivity |]).
  split; [apply get_set_same |].
  split; [reflexivity |].
  split; vm_compute; reflexivity.
Qed.

(** C5, as stated, fails: for one item of 30 cents taxed at 5 percent the
    stored subtotal is "0.30", the stored tax amount "0.01" and the stored
    total "0.32", while the subtotal plus the rounded tax amount rounds to
    "0.31"; for one item of 0.004 taxed at 100 percent the stored total is
    "0.01" over a subtotal and a tax amount of "0.00". *)
Lemma total_is_not_sum_with_rounded_tax :
  let inv := invoice (fst (createInvoice "a" (lineIdsOf "a") 0 0
                             thirtyCents newStorage)) in
  let inv' := invoice (fst (createInvoice "a" (lineIdsOf "a") 0 0
                              subcentRequest newStorage)) in
  (Invoice.subtotal inv, Invoice.taxAmount inv, Invoice.total inv)
  = ("0.30", "0.01", "0.32")
  /\ totalOfRoundedTax thirtyCents inv = "0.31"
  /\ totalOfStoredParts inv = "0.31"
  /\ Invoice.total inv <> totalOfRoundedTax thirtyCents inv
  /\ Invoice.total inv <> totalOfStoredParts inv
  /\ (Invoice.subtotal inv', Invoice.taxAmount inv', Invoice.total inv')
     = ("0.00", "0.00", "0.01")
  /\ Invoice.total inv' <> totalOfRoundedTax subcentRequest inv'
  /\ Invoice.total inv' <> totalOfStoredParts inv'.
Proof.
  vm_compute.
  repeat (split; [first [reflexivity | discriminate] |]). discriminate.
Qed.

(** C5, amended: the stored total is the two-decimal rounding of the
    unrounded subtotal plus the unrounded tax amount. *)
Theorem stored_total_rounds_unrounded_sum :
  forall (id : string) (lineId : nat -> string) (created updated : Date)
         (r : Request.t) (s : MemStorage),
    let st := snd (createInvoice id lineId created updated r s) in
    exists inv,
      SMap.get id (invoices st) = Some inv
      /\ Invoice.total inv
         = round2 (JS.add (rawSubtotal r)
                     (JS.mul (rawSubtotal r)
                        (JS.div (Request.taxRate r) (JS.of_Z 100)))).
Proof.
  intros id lineId created updated r s.
  rewrite createInvoice_run; cbn [snd invoices].
  eexists; split; [apply get_set_same | reflexivity].
Qed.

(** C10: whatever the request and the store hold, the invoice that
    [createInvoice] returns and stores has status "draft" and no client
    reference. *)
Theorem createInvoice_draft_without_client :
  forall (id : string) (lineId : nat -> string) (created updated : Date)
         (r : Request.t) (s : MemStorage),
    let res := fst (createInvoice id lineId created updated r s) in
    let st := snd (createInvoice id lineId created updated r s) in
    Invoice.status (invoice res) = "draft"
    /\ Invoice.clientId (invoice res) = None
    /\ SMap.get id (invoices st) = Some (invoice res)
    /\ clients st = clients s.
Proof.
  intros id lineId created updated r s.
  rewrite createInvoice_run; cbn [fst snd invoice invoices clients].
  do 2 (split; [reflexivity |]).
  split; [apply get_set_same | reflexivity].
Qed.

(** ** Statistics *)

Lemma length_filter_status (st : string) (invs : list Invoice.t) :
  List.length (filter (fun inv => String.eqb (Invoice.status inv) st) invs)
  = countStatus st invs.
Proof.
  induction invs as [| inv invs IH]; simpl; [reflexivity |].
  destruct (String.eqb (Invoice.status inv) st); simpl; now rewrite IH.
Qed.

Lemma fold_paid (invs : list Invoice.t) (acc : JS.number) :
  fold_left (fun sum inv => JS.add sum (JS.parseFloat (Invoice.total inv)))
    (filter (fun inv => String.eqb (Invoice.status inv) "paid") invs) acc
  = paidSum acc invs.
Proof.
  revert acc; induction invs as [| inv invs IH]; intros acc; simpl;
    [reflexivity |].
  destruct (String.eqb (Invoice.status inv) "paid"); simpl; apply IH.
Qed.

(** C8: on every store [getInvoiceStats] returns the number of invoices, the
    two-decimal rounding of the sum of [total] over the paid invoices, the
    number of sent invoices and the number of overdue invoices, and leaves
    the store as it was; for invoices paid ($100), paid ($50), sent and
    overdue the result is 4, "150.00", 1 and 1. *)
Theorem getInvoiceStats_aggregates :
  (forall s : MemStorage,
     let all := SMap.values (invoices s) in
     getInvoiceStats s
     = ({| totalInvoices := List.length all;
           totalRevenue := JS.toFixed (paidSum JS.posZero all) 2;
           pendingInvoices := countStatus "sent" all;
           overdueInvoices := countStatus "overdue" all |}, s))
  /\ map (fun inv => (Invoice.status inv, Invoice.total inv))
         (SMap.values (invoices statsStore))
     = [("paid", "100.00"); ("paid", "50.00"); ("sent", "84.00");
        ("overdue", "29.97")]
  /\ fst (getInvoiceStats statsStore)
     = {| totalInvoices := 4; totalRevenue := "150.00";
          pendingInvoices := 1; overdueInvoices := 1 |}.
Proof.
  split; [| split; vm_compute; reflexivity].
  intros s all.
  unfold getInvoiceStats, bind, get_store, ret.
  fold all. rewrite fold_paid, !length_filter_status. reflexivity.
Qed.

(** ** Reachable stores *)

Lemma run_snoc (ops : list op) (o : op) : run (ops ++ [o]) = exec o (run ops).
Proof. unfold run; now rewrite fold_left_app. Qed.

(** What holds of the new store and survives every operation holds after
    every sequence of operations. *)
Lemma run_invariant (P : MemStorage -> Prop) :
  P newStorage ->
  (forall o s, P s -> P (exec o s)) ->
  forall ops, P (run ops).
Proof.
  intros H0 Hstep ops.
  induction ops as [| o ops IH] using rev_ind; [exact H0 |].
  rewrite run_snoc; now apply Hstep.
Qed.

(** ** Keys of the line item map *)

Lemma in_keys_set {V} (k x : string) (v : V) (m : SMap.t V) :
  In x (map fst (SMap.set k v m)) -> x = k \/ In x (map fst m).
Proof.
  induction m as [| [k' v'] m IH]; simpl.
  - intros [<- | []]; now left.
  - destruct (String.eqb_spec k' k) as [-> |]; simpl.
    + intros [<- | H]; [now left | now right; right].
    + intros [<- | H]; [now right; left |].
      destruct (IH H); [now left | now right; right].
Qed.

Lemma unique_keys_set {V} (k : string) (v : V) (m : SMap.t V) :
  unique_keys m -> unique_keys (SMap.set k v m).
Proof.
  unfold unique_keys.
  induction m as [| [k' v'] m IH]; simpl; intros H.
  - constructor; [intros [] | constructor].
  - inversion H as [| ? ? Hnotin Hnodup]; subst.
    destruct (String.eqb_spec k' k) as [-> |]; simpl.
    + now constructor.
    + constructor; [| now apply IH].
      intros Hin. destruct (in_keys_set _ _ _ _ Hin); congruence.
Qed.

Lemma unique_keys_remove {V} (k : string) (m : SMap.t V) :
  unique_keys m -> unique_keys (SMap.remove k m).
Proof.
  unfold unique_keys, SMap.remove.
  induction m as [| [k' v'] m IH]; simpl; intros H; [constructor |].
  inversion H as [| ? ? Hnotin Hnodup]; subst.
  destruct (String.eqb k' k); simpl; [now apply IH |].
  constructor; [| now apply IH].
  intros Hin; apply Hnotin.
  apply in_map_iff in Hin as [kv [E Hin]].
  apply filter_In in Hin as [Hin _].
  apply in_map_iff; now exists kv.
Qed.

Lemma keyed_set (k : string) (v : LineItem.t) (m : SMap.t LineItem.t) :
  LineItem.id v = k -> keyed m -> keyed (SMap.set k v m).
Proof.
  unfold keyed; intros Hv.
  induction m as [| [k' v'] m IH]; simpl; intros H.
  - now constructor.
  - inversion H as [| ? ? Hhd Htl].
    destruct (String.eqb k' k); constructor; auto.
Qed.

Lemma keyed_remove (k : string) (m : SMap.t LineItem.t) :
  keyed m -> keyed (SMap.remove k m).
Proof.
  unfold keyed, SMap.remove; intros H.
  apply Forall_forall; intros kv Hin.
  apply filter_In in Hin as [Hin _].
  now apply (proj1 (Forall_forall _ _) H).
Qed.

Lemma keyed_get (k : string) (v : LineItem.t) (m : SMap.t LineItem.t) :
  keyed m -> SMap.get k m = Some v -> LineItem.id v = k.
Proof.
  unfold keyed.
  induction m as [| [k' v'] m IH]; simpl; intros H; [discriminate |].
  inversion H as [| ? ? Hhd Htl].
  destruct (String.eqb_spec k' k) as [E |]; [| now apply IH].
  intros [= <-]. now rewrite <- E.
Qed.

Lemma unique_keys_entry {V} (m : SMap.t V) (kv kv' : string * V) :
  unique_keys m -> In kv m -> In kv' m -> fst kv = fst kv' -> kv = kv'.
Proof.
  unfold unique_keys.
  induction m as [| e m IH]; simpl; intros H; [intros [] |].
  inversion H as [| ? ? Hnotin Hnodup]; subst.
  intros [-> | Hin] [-> | Hin'] E; auto.
  - exfalso; apply Hnotin; rewrite E; now apply in_map.
  - exfalso; apply Hnotin; rewrite <- E; now apply in_map.
Qed.

(** ** What [deleteInvoice] does to the store *)

Lemma for_each_remove (items : list LineItem.t) (s : MemStorage) :
  for_each items
    (fun item =>
       s <- get_store ;;
       set_lineItems (SMap.remove (LineItem.id item) (lineItemsMap s))) s
  = (tt, {| clients := clients s; invoices := invoices s;
            lineItemsMap := fold_left remove_item items (lineItemsMap s);
            invoiceCounter := invoiceCounter s |}).
Proof.
  revert s; induction items as [| it items IH]; intros s; simpl.
  - now destruct s.
  - unfold bind at 1. unfold bind at 1, get_store at 1, set_lineItems at 1.
    rewrite IH; reflexivity.
Qed.

Lemma deleteInvoice_run (id : string) (s : MemStorage) :
  deleteInvoice id s
  = (SMap.has id (invoices s),
     {| clients := clients s;
        invoices := SMap.remove id (invoices s);
        lineItemsMap :=
          fold_left remove_item
            (filter (references id) (SMap.values (lineItemsMap s)))
            (lineItemsMap s);
        invoiceCounter := invoiceCounter s |}).
Proof.
  unfold deleteInvoice.
  unfold bind at 1, getLineItemsByInvoiceId at 1.
  unfold bind at 1, get_store at 1, ret at 1.
  unfold bind at 1. rewrite for_each_remove.
  reflexivity.
Qed.

Lemma fold_remove_filter (items : list LineItem.t) (m : SMap.t LineItem.t) :
  fold_left remove_item items m
  = filter (fun kv =>
              negb (existsb (fun it => String.eqb (LineItem.id it) (fst kv))
                            items)) m.
Proof.
  revert m; induction items as [| it items IH]; intros m; simpl.
  - induction m as [| kv m IHm]; simpl; [reflexivity | now rewrite <- IHm].
  - rewrite IH. unfold remove_item, SMap.remove.
    induction m as [| kv m IHm]; simpl; [reflexivity |].
    rewrite (String.eqb_sym (LineItem.id it) (fst kv)).
    destruct (String.eqb (fst kv) (LineItem.id it)); simpl;
      [apply IHm | now rewrite IHm].
Qed.

(** In a well-formed map the loop of [deleteInvoice] removes the entries that
    reference the invoice and no other. *)
Lemma remove_referencing (id : string) (m : SMap.t LineItem.t) :
  keyed m -> unique_keys m ->
  fold_left remove_item (filter (references id) (SMap.values m)) m
  = filter (fun kv => negb (references id (snd kv))) m.
Proof.
  intros Hk Hu. rewrite fold_remove_filter.
  apply filter_ext_in; intros kv Hin. f_equal.
  apply eq_true_iff_eq. rewrite existsb_exists. split.
  - intros [it [Hit E]].
    apply filter_In in Hit as [Hit Href].
    apply in_map_iff in Hit as [kv' [<- Hin']].
    apply String.eqb_eq in E.
    rewrite (proj1 (Forall_forall _ _) Hk kv' Hin') in E.
    now rewrite <- (unique_keys_entry m kv' kv Hu Hin' Hin E).
  - intros Href. exists (snd kv). split.
    + apply filter_In; split; [now apply in_map | assumption].
    + apply String.eqb_eq. now apply (proj1 (Forall_forall _ _) Hk).
Qed.

(** ** Line item maps stay well formed *)

Lemma fold_put_wf (items : list LineItem.t) (m : SMap.t LineItem.t) :
  keyed m /\ unique_keys m ->
  keyed (fold_left put_lineItem items m)
  /\ unique_keys (fold_left put_lineItem items m).
Proof.
  revert m; induction items as [| it items IH]; intros m [Hk Hu]; simpl;
    [now split |].
  apply IH; split; [now apply keyed_set | now apply unique_keys_set].
Qed.

Lemma fold_remove_wf (items : list LineItem.t) (m : SMap.t LineItem.t) :
  keyed m /\ unique_keys m ->
  keyed (fold_left remove_item items m)
  /\ unique_keys (fold_left remove_item items m).
Proof.
  revert m; induction items as [| it items IH]; intros m [Hk Hu]; simpl;
    [now split |].
  apply IH; split; [now apply keyed_remove | now apply unique_keys_remove].
Qed.

Lemma exec_wf (o : op) (s : MemStorage) :
  lineItems_wf s -> lineItems_wf (exec o s).
Proof.
  unfold lineItems_wf; intros [Hk Hu].
  destruct o as [id now c | id c | id | id lineId created updated r
                | id now p | id | id l | id l | id]; cbn [exec].
  - now split.
  - unfold updateClient, bind, get_store.
    destruct (SMap.get id (clients s)); now split.
  - now split.
  - rewrite createInvoice_run; cbn [snd lineItemsMap].
    now apply fold_put_wf.
  - unfold updateInvoice, bind, get_store.
    destruct (SMap.get id (invoices s)); now split.
  - rewrite deleteInvoice_run; cbn [snd lineItemsMap].
    now apply fold_remove_wf.
  - cbn. split; [now apply keyed_set | now apply unique_keys_set].
  - unfold updateLineItem, bind, get_store.
    destruct (SMap.get id (lineItemsMap s)) as [existing |] eqn:E;
      [| now split].
    cbn. split; [| now apply unique_keys_set].
    apply keyed_set; [| assumption].
    cbn. now apply (keyed_get id existing (lineItemsMap s)).
  - cbn. split; [now apply keyed_remove | now apply unique_keys_remove].
Qed.

Lemma run_wf (ops : list op) : lineItems_wf (run ops).
Proof.
  apply run_invariant; [| apply exec_wf].
  split; [constructor | constructor].
Qed.

(** ** Cascade deletion *)

Lemma no_reference_left (id : string) (m : SMap.t LineItem.t) :
  filter (fun item => String.eqb (LineItem.invoiceId item) id)
    (SMap.values (filter (fun kv => negb (references id (snd kv))) m))
  = [].
Proof.
  unfold SMap.values, references.
  induction m as [| kv m IH]; simpl; [reflexivity |].
  destruct (String.eqb (LineItem.invoiceId (snd kv)) id) eqn:E; simpl;
    [exact IH |].
  rewrite E. exact IH.
Qed.

Lemma other_references_kept (id other : string) (m : SMap.t LineItem.t) :
  other <> id ->
  filter (fun item => String.eqb (LineItem.invoiceId item) other)
    (SMap.values (filter (fun kv => negb (references id (snd kv))) m))
  = filter (fun item => String.eqb (LineItem.invoiceId item) other)
      (SMap.values m).
Proof.
  intros Hother. unfold SMap.values, references.
  induction m as [| kv m IH]; simpl; [reflexivity |].
  destruct (String.eqb_spec (LineItem.invoiceId (snd kv)) id) as [E |];
    simpl.
  - rewrite E.
    destruct (String.eqb_spec id other); [congruence | exact IH].
  - destruct (String.eqb (LineItem.invoiceId (snd kv)) other);
      [now rewrite IH | exact IH].
Qed.

(** C7: on every store that operations can reach, [deleteInvoice] removes
    the invoice and the line items that reference it and no others:
    afterwards [getInvoice] finds nothing under the id and
    [getLineItemsByInvoiceId] returns the empty list for it and, for every
    other invoice, the list it returned before. *)
Theorem deleteInvoice_cascades :
  forall (ops : list op) (id : string),
    let s := run ops in
    let st := snd (deleteInvoice id s) in
    fst (getInvoice id st) = None
    /\ fst (getLineItemsByInvoiceId id st) = []
    /\ lineItemsMap st
       = filter (fun kv => negb (references id (snd kv))) (lineItemsMap s)
    /\ (forall other, other <> id ->
          fst (getLineItemsByInvoiceId other st)
          = fst (getLineItemsByInvoiceId other s))
    /\ invoices st = SMap.remove id (invoices s)
    /\ clients st = clients s.
Proof.
  intros ops id s st.
  destruct (run_wf ops) as [Hk Hu]. fold s in Hk, Hu.
  assert (Hmap : lineItemsMap st
                 = filter (fun kv => negb (references id (snd kv)))
                          (lineItemsMap s)).
  { unfold st. rewrite deleteInvoice_run; cbn [snd lineItemsMap].
    now apply remove_referencing. }
  assert (Hinv : invoices st = SMap.remove id (invoices s)).
  { unfold st. now rewrite deleteInvoice_run. }
  split; [| split; [| split; [exact Hmap | split; [| split]]]].
  - unfold getInvoice, bind, get_store.
    rewrite Hinv, get_remove_same. reflexivity.
  - unfold getLineItemsByInvoiceId, bind, get_store, ret; cbn [fst].
    rewrite Hmap. apply no_reference_left.
  - intros other Hother.
    unfold getLineItemsByInvoiceId, bind, get_store, ret; cbn [fst].
    rewrite Hmap. now apply other_references_kept.
  - exact Hinv.
  - unfold st. now rewrite deleteInvoice_run.
Qed.

(** ** Absent ids *)

Lemma store_eta (s : MemStorage) :
  {| clients := clients s; invoices := invoices s;
     lineItemsMap := lineItemsMap s; invoiceCounter := invoiceCounter s |} = s.
Proof. now destruct s. Qed.

Lemma has_absent {V} (k : string) (m : SMap.t V) :
  SMap.get k m = None -> SMap.has k m = false.
Proof. unfold SMap.has; now intros ->. Qed.

Lemma find_number_absent (n : string) (invs : list Invoice.t) :
  (forall inv, In inv invs -> Invoice.invoiceNumber inv <> n) ->
  find (fun inv => String.eqb (Invoice.invoiceNumber inv) n) invs = None.
Proof.
  intros H.
  destruct (find _ invs) as [inv |] eqn:E; [| reflexivity].
  apply find_some in E as [Hin Heq].
  apply String.eqb_eq in Heq. now destruct (H inv Hin).
Qed.

(** C9, as stated, fails: the invoice "ghost" is absent from a store that
    holds one line item referencing it; [deleteInvoice] returns [false] and
    yet removes that line item. *)
Lemma deleteInvoice_absent_changes_store :
  SMap.get "ghost" (invoices strayStore) = None
  /\ fst (deleteInvoice "ghost" strayStore) = false
  /\ List.length (lineItemsMap strayStore) = 1%nat
  /\ lineItemsMap (snd (deleteInvoice "ghost" strayStore)) = []
  /\ snd (deleteInvoice "ghost" strayStore) <> strayStore.
Proof. vm_compute. repeat split; discriminate. Qed.

(** C9, amended: on a reachable store, looking up or updating a client, an
    invoice or a line item under an absent id, or an invoice under an absent
    number, returns nothing; deleting a client or a line item under an
    absent id returns [false]; all of these leave the store unchanged.
    [deleteInvoice] under an absent id returns [false] and leaves clients
    and invoices unchanged, but removes the line items that reference the
    id; it leaves the store unchanged when no line item references the
    id. *)
Theorem absent_id_operations :
  forall (ops : list op) (id : string),
    let s := run ops in
    (SMap.get id (clients s) = None ->
       getClient id s = (None, s)
       /\ (forall c, updateClient id c s = (None, s))
       /\ deleteClient id s = (false, s))
    /\ (SMap.get id (invoices s) = None ->
          getInvoice id s = (None, s)
          /\ (forall now p, updateInvoice id now p s = (None, s))
          /\ fst (deleteInvoice id s) = false
          /\ clients (snd (deleteInvoice id s)) = clients s
          /\ invoices (snd (deleteInvoice id s)) = invoices s
          /\ lineItemsMap (snd (deleteInvoice id s))
             = filter (fun kv => negb (references id (snd kv)))
                      (lineItemsMap s)
          /\ (fst (getLineItemsByInvoiceId id s) = [] ->
                deleteInvoice id s = (false, s)))
    /\ ((forall inv, In inv (SMap.values (invoices s)) ->
           Invoice.invoiceNumber inv <> id) ->
          getInvoiceByNumber id s = (None, s))
    /\ (SMap.get id (lineItemsMap s) = None ->
          (forall l, updateLineItem id l s = (None, s))
          /\ deleteLineItem id s = (false, s)).
Proof.
  intros ops id s.
  destruct (run_wf ops) as [Hk Hu]. fold s in Hk, Hu.
  split; [| split; [| split]].
  - intros H. split; [| split].
    + unfold getClient, bind, get_store, ret. now rewrite H.
    + intros c. unfold updateClient, bind, get_store, ret. now rewrite H.
    + unfold deleteClient, bind, get_store, set_clients, ret.
      rewrite (has_absent _ _ H), (remove_absent _ _ H), store_eta.
      reflexivity.
  - intros H. rewrite deleteInvoice_run; cbn [fst snd clients invoices
                                               lineItemsMap].
    split; [| split; [| split; [| split; [| split; [| split]]]]].
    + unfold getInvoice, bind, get_store, ret. now rewrite H.
    + intros now p. unfold updateInvoice, bind, get_store, ret.
      now rewrite H.
    + now apply has_absent.
    + reflexivity.
    + now apply remove_absent.
    + now apply remove_referencing.
    + unfold getLineItemsByInvoiceId, bind, get_store, ret; cbn [fst].
      fold (references id). intros Hnone.
      rewrite (has_absent _ _ H), (remove_absent _ _ H), Hnone.
      cbn [fold_left]. now rewrite store_eta.
  - intros H. unfold getInvoiceByNumber, bind, get_store, ret.
    now rewrite (find_number_absent _ _ H).
  - intros H. split.
    + intros l. unfold updateLineItem, bind, get_store, ret. now rewrite H.
    + unfold deleteLineItem, bind, get_store, set_lineItems, ret.
      rewrite (has_absent _ _ H), (remove_absent _ _ H), store_eta.
      reflexivity.
Qed.

Lemma absent_id_operations_witness :
  getClient "nobody" (run twoInvoices) = (None, run twoInvoices)
  /\ getInvoice "nobody" (run twoInvoices) = (None, run twoInvoices)
  /\ deleteInvoice "nobody" (run twoInvoices) = (false, run twoInvoices)
  /\ getInvoiceByNumber "nobody" (run twoInvoices) = (None, run twoInvoices)
  /\ deleteLineItem "nobody" (run twoInvoices) = (false, run twoInvoices).
Proof.
  destruct (absent_id_operations twoInvoices "nobody")
    as [Hc [Hi [Hn Hl]]].
  destruct (Hc eq_refl) as [H1 _].
  destruct (Hi eq_refl) as [H2 [_ [_ [_ [_ [_ H3]]]]]].
  destruct (Hl eq_refl) as [_ H4].
  split; [exact H1 |].
  split; [exact H2 |].
  split; [exact (H3 eq_refl) |].
  split; [| exact H4].
  apply Hn. vm_compute.
  intros inv [<- | [<- | []]]; discriminate.
Defined.

(** ** The invariant on the monetary fields *)

Lemma get_in_values {V} (k : string) (v : V) (m : SMap.t V) :
  SMap.get k m = Some v -> In v (SMap.values m).
Proof.
  unfold SMap.values.
  induction m as [| [k' v'] m IH]; simpl; [discriminate |].
  destruct (String.eqb k' k); [intros [= ->]; now left |].
  intros H; right; now apply IH.
Qed.











(** ** Invoice numbering *)

Lemma replace_prefix (s p : string) :
  Str.startsWith s p = true ->
  Str.replace s p "" = Str.skip (String.length p) s.
Proof.
  unfold Str.startsWith; intros H.
  destruct s; unfold Str.replace; now rewrite H.
Qed.

(** The array of the code is the scan of the specification. *)
Lemma existingNumbers_parsed (s : MemStorage) :
  existingNumbers s = parsedSuffixes (invoiceNumbers s).
Proof.
  unfold existingNumbers, invoiceNumbers.
  induction (map Invoice.invoiceNumber (SMap.values (invoices s)))
    as [| num nums IH]; cbn [filter map parsedSuffixes]; [reflexivity |].
  destruct (Str.startsWith num "INV-") eqn:E; [| exact IH].
  cbn [map filter]. rewrite (replace_prefix _ _ E).
  change (String.length "INV-") with 4%nat.
  destruct (JS.isNaN (JS.parseInt (Str.skip 4 num))); cbn [negb];
    now rewrite IH.
Qed.

Lemma parsedSuffixes_not_NaN (nums : list string) :
  Forall (fun x => JS.isNaN x = false) (parsedSuffixes nums).
Proof.
  induction nums as [| num nums IH]; cbn [parsedSuffixes]; [constructor |].
  destruct (Str.startsWith num "INV-"); [| exact IH].
  destruct (JS.isNaN (JS.parseInt (Str.skip 4 num))) eqn:E;
    [exact IH | now constructor].
Qed.

Lemma parsedSuffixes_in (nums : list string) (num : string) :
  In num nums -> Str.startsWith num "INV-" = true ->
  JS.isNaN (JS.parseInt (Str.skip 4 num)) = false ->
  In (JS.parseInt (Str.skip 4 num)) (parsedSuffixes nums).
Proof.
  intros Hin Hp Hn.
  induction nums as [| num' nums IH]; [destruct Hin |].
  cbn [parsedSuffixes].
  destruct Hin as [-> | Hin].
  - rewrite Hp, Hn. now left.
  - destruct (Str.startsWith num' "INV-"); [| now apply IH].
    destruct (JS.isNaN (JS.parseInt (Str.skip 4 num')));
      [now apply IH | right; now apply IH].
Qed.

Lemma getNextInvoiceNumber_run (s : MemStorage) :
  getNextInvoiceNumber s = (nextFrom (parsedSuffixes (invoiceNumbers s)), s).
Proof.
  unfold getNextInvoiceNumber, bind, get_store, ret.
  rewrite existingNumbers_parsed. unfold nextFrom.
  now destruct (parsedSuffixes (invoiceNumbers s)).
Qed.

(** C3: [getNextInvoiceNumber] leaves the store as it is; its array is the
    scan of the invoice numbers with the prefix "INV-", each suffix parsed,
    those parsing to [NaN] dropped; with no number left the result is
    "INV-001" (a maximum of 0, plus 1), otherwise it is "INV-" followed by
    [String(m + 1)] padded with "0" to three characters, for an element [m]
    of the array that no element exceeds. A new store gives "INV-001" and a
    store with INV-001 and INV-003 gives "INV-004". *)
Theorem getNextInvoiceNumber_max_plus_one :
  (forall s : MemStorage,
     snd (getNextInvoiceNumber s) = s
     /\ existingNumbers s = parsedSuffixes (invoiceNumbers s)
     /\ match parsedSuffixes (invoiceNumbers s) with
        | [] => fst (getNextInvoiceNumber s) = "INV-001"
        | ns =>
            exists m : JS.number,
              In m ns
              /\ (forall n, In n ns -> JS.leb n m = true)
              /\ fst (getNextInvoiceNumber s)
                 = "INV-" ++ Str.padStart
                               (JS.ToString (JS.add m (JS.of_Z 1))) 3 "0"
        end)
  /\ fst (getNextInvoiceNumber newStorage) = "INV-001"
  /\ invoiceNumbers gapStore = ["INV-001"; "INV-003"]
  /\ fst (getNextInvoiceNumber gapStore) = "INV-004".
Proof.
  split; [| split; [| split]]; [| vm_compute; reflexivity ..].
  intros s. rewrite getNextInvoiceNumber_run; cbn [fst snd].
  split; [reflexivity |]. split; [apply existingNumbers_parsed |].
  pose proof (parsedSuffixes_not_NaN (invoiceNumbers s)) as Hn.
  destruct (parsedSuffixes (invoiceNumbers s)) as [| x xs].
  - vm_compute; reflexivity.
  - destruct (Math_max_spec x xs Hn) as [Hin Hall].
    exists (JS.Math_max (x :: xs)). repeat split; assumption.
Qed.

(** ** Numbers within the exact range *)

Lemma safe_list (ns : list JS.number) :
  Forall safeNatural ns ->
  exists zs, ns = map JS.of_Z zs
             /\ Forall (fun z => 0 <= z < 2 ^ 53 - 1) zs.
Proof.
  induction 1 as [| x ns [n [Hn ->]] _ [zs [-> Hzs]]].
  - exists []; split; [reflexivity | constructor].
  - exists (n :: zs); split; [reflexivity | now constructor].
Qed.

Lemma fold_max_bounds (zs : list Z) (a : Z) (bound : Z) :
  0 <= a < bound -> Forall (fun z => 0 <= z < bound) zs ->
  0 <= fold_left Z.max zs a < bound
  /\ a <= fold_left Z.max zs a
  /\ (forall z, In z zs -> z <= fold_left Z.max zs a).
Proof.
  revert a; induction zs as [| z zs IH]; intros a Ha Hzs; cbn [fold_left].
  - repeat split; try lia. intros z [].
  - inversion Hzs as [| ? ? Hz Hrest]; subst.
    destruct (IH (Z.max a z) ltac:(lia) Hrest) as [Hb [Hle Hall]].
    repeat split; try lia.
    intros y [<- | Hy]; [lia | now apply Hall].
Qed.

(** The maximum of a non-empty array of exact natural numbers. *)
Lemma Math_max_safe (z : Z) (zs : list Z) :
  Forall (fun z => 0 <= z < 2 ^ 53 - 1) (z :: zs) ->
  exists m, 0 <= m < 2 ^ 53 - 1
            /\ JS.Math_max (map JS.of_Z (z :: zs)) = JS.of_Z m
            /\ (forall y, In y (z :: zs) -> y <= m).
Proof.
  intros H. inversion H as [| ? ? Hz Hzs]; subst.
  exists (fold_left Z.max zs z).
  destruct (fold_max_bounds zs z (2 ^ 53 - 1) Hz Hzs) as [Hb [Hle Hall]].
  split; [assumption |]. split.
  - unfold JS.Math_max; cbn [map fold_left].
    rewrite max_step_first.
    + apply fold_max_of_Z; [lia |].
      eapply Forall_impl; [| exact Hzs]. cbv beta; lia.
    + destruct z as [| p | p]; [reflexivity | | lia].
      now rewrite of_Z_pos by lia.
  - intros y [<- | Hy]; [assumption | now apply Hall].
Qed.

Lemma of_Z_not_NaN (n : Z) : 0 <= n < 2 ^ 53 -> JS.isNaN (JS.of_Z n) = false.
Proof.
  intros [H0 Hn]. destruct n as [| p | p]; [reflexivity | | lia].
  now rewrite of_Z_pos.
Qed.

Lemma skip_prefix (t : string) : Str.skip 4 ("INV-" ++ t) = t.
Proof. reflexivity. Qed.

Lemma startsWith_prefix (t : string) : Str.startsWith ("INV-" ++ t) "INV-" = true.
Proof. unfold Str.startsWith. cbn. now destruct t. Qed.

(** The next number for a maximum [m] in the exact range. *)
Lemma next_number_safe (nums : list string) (m : Z) :
  0 <= m < 2 ^ 53 - 1 ->
  (forall z, 0 <= z < 2 ^ 53 -> In (JS.of_Z z) (parsedSuffixes nums) -> z <= m) ->
  let next := "INV-" ++ Str.padStart (Str.digits (m + 1)) 3 "0" in
  isInvNNN next = true /\ ~ In next nums.
Proof.
  intros Hm Hmax next.
  destruct (digits_spec (m + 1) ltac:(lia)) as [Hdec Hval].
  destruct (padStart3_spec (Str.digits (m + 1)) (digits_nonempty _) Hdec)
    as [Hpdec [Hpval Hplen]].
  rewrite Hval in Hpval.
  split.
  - unfold isInvNNN, next.
    rewrite startsWith_prefix, skip_prefix, Hpdec.
    cbn [andb]. now apply Nat.leb_le.
  - intros Hin.
    assert (Hparse : JS.parseInt (Str.skip 4 next) = JS.of_Z (m + 1)).
    { unfold next. rewrite skip_prefix.
      rewrite parseInt_decimal; rewrite ?Hpval; try lia; try assumption.
      - reflexivity.
      - intros E. rewrite E in Hplen. cbn in Hplen. lia. }
    assert (Hin' : In (JS.of_Z (m + 1)) (parsedSuffixes nums)).
    { rewrite <- Hparse. apply parsedSuffixes_in; [assumption | |].
      - apply startsWith_prefix.
      - rewrite Hparse. apply of_Z_not_NaN. lia. }
    specialize (Hmax (m + 1) ltac:(lia) Hin'). lia.
Qed.

(** The next number in the exact range: the maximum [m] of the parsed
    suffixes, 0 if there is none, gives the digits of [m + 1]. *)
Lemma nextFrom_safe (nums : list string) :
  Forall safeNatural (parsedSuffixes nums) ->
  exists m : Z,
    0 <= m < 2 ^ 53 - 1
    /\ nextFrom (parsedSuffixes nums)
       = "INV-" ++ Str.padStart (Str.digits (m + 1)) 3 "0"
    /\ (forall z, 0 <= z < 2 ^ 53 ->
                  In (JS.of_Z z) (parsedSuffixes nums) -> z <= m)
    /\ (m = 0 \/ In (JS.of_Z m) (parsedSuffixes nums)).
Proof.
  intros Hsafe.
  destruct (safe_list _ Hsafe) as [zs [Ezs Hzs]].
  unfold nextFrom. rewrite Ezs.
  destruct zs as [| z zs]; cbn [map].
  - exists 0. split; [lia |]. split; [vm_compute; reflexivity |].
    split; [intros z _ [] | now left].
  - destruct (Math_max_safe z zs Hzs) as [m [Hm [Emax Hall]]].
    cbn [map] in Emax.
    exists m. split; [assumption |]. split.
    + rewrite Emax. rewrite (add_of_Z m 1) by lia. rewrite ToString_of_Z by lia. reflexivity.
    + split.
      * intros y Hy Hin.
        change (JS.of_Z z :: map JS.of_Z zs) with (map JS.of_Z (z :: zs)) in Hin.
        apply in_map_iff in Hin as [y' [E Hy']].
        assert (0 <= y' < 2 ^ 53 - 1)
          by (apply (proj1 (Forall_forall _ _) Hzs); assumption).
        apply of_Z_inj in E; [| lia | lia]. subst y'. now apply Hall.
      * right. rewrite <- Emax.
        assert (Hn : Forall (fun x => JS.isNaN x = false)
                            (JS.of_Z z :: map JS.of_Z zs)).
        { cbn [map] in Ezs. rewrite <- Ezs. apply parsedSuffixes_not_NaN. }
        apply (Math_max_spec _ _ Hn).
Qed.

(** C4, as stated, fails: with the stored number "INV--5" the next number is
    "INV-0-4", which is not of the form INV-NNN; and with the stored number
    "INV-9007199254740992" (2 ^ 53, where adding 1 is no longer exact) the
    next number is that very number. *)
Lemma next_number_malformed_or_used :
  invoiceNumbers (renumbered "INV--5") = ["INV--5"]
  /\ fst (getNextInvoiceNumber (renumbered "INV--5")) = "INV-0-4"
  /\ isInvNNN (fst (getNextInvoiceNumber (renumbered "INV--5"))) = false
  /\ fst (getNextInvoiceNumber (renumbered "INV-9007199254740992"))
     = "INV-9007199254740992"
  /\ In (fst (getNextInvoiceNumber (renumbered "INV-9007199254740992")))
        (invoiceNumbers (renumbered "INV-9007199254740992")).
Proof.
  split; [vm_compute; reflexivity |].
  split; [vm_compute; reflexivity |].
  split; [vm_compute; reflexivity |].
  split; [vm_compute; reflexivity |].
  vm_compute. left; reflexivity.
Qed.

Lemma same_eq (x y : JS.number) : JS.same x y = true -> x = y.
Proof.
  destruct x as [a | a | | a m e], y as [b | b | | b m' e']; cbn [JS.same];
    try discriminate; try reflexivity.
  - intros H. now apply Bool.eqb_prop in H as ->.
  - intros H. now apply Bool.eqb_prop in H as ->.
  - intros H. apply andb_prop in H as [H He]. apply andb_prop in H as [Hs Hm].
    apply Bool.eqb_prop in Hs as ->. apply Pos.eqb_eq in Hm as ->.
    now apply Z.eqb_eq in He as ->.
Qed.

Lemma leb_of_Z (a b : Z) :
  0 <= a < 2 ^ 53 -> 0 <= b < 2 ^ 53 ->
  JS.leb (JS.of_Z a) (JS.of_Z b) = (a <=? b).
Proof.
  intros [Ha0 Ha] [Hb0 Hb]. unfold JS.leb, SFleb.
  destruct a as [| a | a], b as [| b | b]; try lia; try reflexivity.
  - now rewrite of_Z_pos.
  - now rewrite of_Z_pos.
  - rewrite !of_Z_pos, compare_canonical by assumption.
    change (Z.pos a <=? Z.pos b) with (Pos.leb a b).
    unfold Pos.leb. now destruct (Pos.compare a b).
Qed.

(** A number whose suffix [parseInt] reads above the maximum is the number
    of no invoice. *)
Lemma fresh_above_max (nums : list string) (next : string) (x : JS.number) :
  match parsedSuffixes nums with
  | [] => JS.posZero
  | _ => JS.Math_max (parsedSuffixes nums)
  end = x ->
  Str.startsWith next "INV-" = true ->
  JS.isNaN (JS.parseInt (Str.skip 4 next)) = false ->
  JS.leb (JS.parseInt (Str.skip 4 next)) x = false ->
  ~ In next nums.
Proof.
  intros Hmax Hprefix Hnum Habove Hin.
  pose proof (parsedSuffixes_in nums next Hin Hprefix Hnum) as Hparsed.
  pose proof (parsedSuffixes_not_NaN nums) as Hall.
  destruct (parsedSuffixes nums) as [| n ns]; [destruct Hparsed |].
  destruct (Math_max_spec n ns Hall) as [_ Hle].
  rewrite <- Hmax, (Hle _ Hparsed) in Habove. discriminate.
Qed.

Lemma padded_form (n : Z) :
  0 <= n -> isInvNNN ("INV-" ++ Str.padStart (Str.digits n) 3 "0") = true.
Proof.
  intros Hn.
  destruct (digits_spec n Hn) as [Hdec _].
  destruct (padStart3_spec (Str.digits n) (digits_nonempty _) Hdec)
    as [Hpdec [_ Hplen]].
  unfold isInvNNN. rewrite startsWith_prefix, skip_prefix, Hpdec.
  cbn [andb]. now apply Nat.leb_le.
Qed.

Lemma maxNumber_parsed (s : MemStorage) :
  match parsedSuffixes (invoiceNumbers s) with
  | [] => JS.posZero
  | _ => JS.Math_max (parsedSuffixes (invoiceNumbers s))
  end = maxNumber s.
Proof.
  unfold maxNumber. rewrite existingNumbers_parsed.
  now destruct (parsedSuffixes (invoiceNumbers s)).
Qed.

(** The next number for a maximum that is a natural number with an exact
    successor. *)
Lemma next_after_natural (nums : list string) (m : Z) :
  0 <= m < 2 ^ 53 - 1 ->
  match parsedSuffixes nums with
  | [] => JS.posZero
  | _ => JS.Math_max (parsedSuffixes nums)
  end = JS.of_Z m ->
  JS.ToString (JS.add (JS.of_Z m) (JS.of_Z 1)) = Str.digits (m + 1)
  /\ ~ In ("INV-" ++ Str.padStart (Str.digits (m + 1)) 3 "0") nums.
Proof.
  intros Hm Hmax. split.
  - rewrite (add_of_Z m 1) by lia. now rewrite ToString_of_Z by lia.
  - destruct (digits_spec (m + 1) ltac:(lia)) as [Hdec Hval].
    destruct (padStart3_spec (Str.digits (m + 1)) (digits_nonempty _) Hdec)
      as [Hpdec [Hpval Hplen]].
    rewrite Hval in Hpval.
    assert (Hparse : JS.parseInt
                       (Str.skip 4 ("INV-" ++ Str.padStart
                                                (Str.digits (m + 1)) 3 "0"))
                     = JS.of_Z (m + 1)).
    { rewrite skip_prefix.
      rewrite parseInt_decimal; rewrite ?Hpval; try lia; try assumption.
      - reflexivity.
      - intros E. rewrite E in Hplen. cbn in Hplen. lia. }
    apply (fresh_above_max nums _ (JS.of_Z m) Hmax).
    + apply startsWith_prefix.
    + rewrite Hparse. apply of_Z_not_NaN. lia.
    + rewrite Hparse, leb_of_Z by lia. apply Z.leb_gt. lia.
Qed.

(** C4, amended: on every store whose largest parsed suffix, 0 when there
    is none, is an integer [m] from -1 to [2 ^ 53 - 1], the string
    [getNextInvoiceNumber] returns is "INV-" followed by the decimal numeral
    of [m + 1], padded with zeros on the left to three digits; it is of the
    form INV-NNN and is the number of no stored invoice. *)
Theorem next_number_fresh_in_safe_range :
  forall (s : MemStorage) (m : Z),
    -1 <= m < 2 ^ 53 ->
    isInteger m (maxNumber s) = true ->
    fst (getNextInvoiceNumber s)
    = "INV-" ++ Str.padStart (Str.digits (m + 1)) 3 "0"
    /\ isInvNNN (fst (getNextInvoiceNumber s)) = true
    /\ ~ In (fst (getNextInvoiceNumber s)) (invoiceNumbers s).
Proof.
  intros s m Hm Hint.
  rewrite getNextInvoiceNumber_run; cbn [fst].
  pose proof (maxNumber_parsed s) as Hmax.
  unfold nextFrom. rewrite Hmax.
  enough (H : JS.ToString (JS.add (maxNumber s) (JS.of_Z 1))
              = Str.digits (m + 1)
              /\ ~ In ("INV-" ++ Str.padStart (Str.digits (m + 1)) 3 "0")
                      (invoiceNumbers s)).
  { destruct H as [E Hfresh]. rewrite E.
    split; [reflexivity |]. split; [apply padded_form; lia | exact Hfresh]. }
  unfold isInteger in Hint. apply orb_prop in Hint as [Hint | Hint].
  - apply same_eq in Hint. rewrite Hint in Hmax |- *.
    assert (Hcases : m = -1 \/ m = 2 ^ 53 - 1 \/ 0 <= m < 2 ^ 53 - 1) by lia.
    destruct Hcases as [-> | [-> | Hnat]].
    + split; [vm_compute; reflexivity |].
      apply (fresh_above_max _ _ (JS.of_Z (-1)) Hmax);
        vm_compute; reflexivity.
    + split; [vm_compute; reflexivity |].
      apply (fresh_above_max _ _ (JS.of_Z (2 ^ 53 - 1)) Hmax);
        vm_compute; reflexivity.
    + now apply next_after_natural.
  - apply andb_prop in Hint as [H0 Hint]. apply Z.eqb_eq in H0. subst m.
    apply same_eq in Hint. rewrite Hint in Hmax |- *.
    split; [vm_compute; reflexivity |].
    apply (fresh_above_max _ _ (S754_zero true) Hmax);
      vm_compute; reflexivity.
Qed.

Lemma next_number_fresh_witness :
  -1 <= 3 < 2 ^ 53
  /\ invoiceNumbers negativeNumberStore = ["INV--5"; "INV-002"; "INV-003"]
  /\ isInteger 3 (maxNumber negativeNumberStore) = true
  /\ fst (getNextInvoiceNumber negativeNumberStore) = "INV-004"
  /\ isInvNNN (fst (getNextInvoiceNumber negativeNumberStore)) = true
  /\ ~ In (fst (getNextInvoiceNumber negativeNumberStore))
          (invoiceNumbers negativeNumberStore).
Proof.
  assert (Hm : -1 <= 3 < 2 ^ 53) by lia.
  split; [exact Hm |]. split; [reflexivity |]. split; [reflexivity |].
  exact (next_number_fresh_in_safe_range negativeNumberStore 3 Hm eq_refl).
Defined.

(** ** Suffixes that are not numerals *)


Lemma take_while_numeral (s rest : string) :
  all_dec s = true -> endsNumeral rest = true ->
  Str.take_while (Str.is_digit 10) (s ++ rest) = s.
Proof.
  intros Hs Hrest.
  induction s as [| c s IH]; cbn [append Str.take_while].
  - destruct rest as [| c r]; [reflexivity |].
    cbn [endsNumeral] in Hrest.
    apply andb_prop in Hrest as [Hrest _].
    apply andb_prop in Hrest as [Hrest _].
    unfold JS.is_dec in Hrest. cbn [Str.take_while].
    now destruct (Str.is_digit 10 c).
  - cbn [all_dec] in Hs. apply andb_prop in Hs as [Hc Hs].
    unfold JS.is_dec in Hc. rewrite Hc. now rewrite IH.
Qed.

Lemma strip_hex_numeral (c : ascii) (s rest : string) :
  all_dec s = true -> endsNumeral rest = true ->
  JS.strip_hex (String c (s ++ rest)) = (10, String c (s ++ rest)).
Proof.
  intros Hs Hrest.
  destruct s as [| c2 s]; cbn [append].
  - destruct rest as [| c2 r]; [apply strip_hex_single |].
    cbn [endsNumeral] in Hrest.
    apply andb_prop in Hrest as [Hrest HX].
    apply andb_prop in Hrest as [_ Hx].
    apply negb_true_iff in Hx. apply negb_true_iff in HX.
    now apply strip_hex_not_x.
  - cbn [all_dec] in Hs. apply andb_prop in Hs as [H2 _].
    destruct (is_dec_not_x c2 H2). now apply strip_hex_not_x.
Qed.

(** [parseInt] reads a leading decimal numeral and drops what follows. *)
Lemma parseInt_leading_numeral (s rest : string) :
  s <> "" -> all_dec s = true -> endsNumeral rest = true ->
  0 <= Str.digits_value 10 s 0 < 2 ^ 53 ->
  JS.parseInt (s ++ rest) = JS.of_Z (Str.digits_value 10 s 0).
Proof.
  intros Hne Hs Hrest Hv.
  destruct s as [| c r]; [congruence |].
  pose proof Hs as Hs'. cbn [all_dec] in Hs'.
  apply andb_prop in Hs' as [Hc Hr].
  unfold JS.parseInt, Str.trimStart. cbn [append Str.drop_while].
  rewrite (is_dec_not_space c Hc), strip_sign_dec by assumption.
  rewrite strip_hex_numeral by assumption.
  change (String c (r ++ rest)) with (String c r ++ rest).
  rewrite take_while_numeral by assumption.
  now apply signed_of_Z.
Qed.




(** ** Numbers assigned by [createInvoice] are distinct *)

Lemma assigned_parse (k : Z) (num : string) :
  k < 2 ^ 53 -> assigned k num ->
  exists n, 1 <= n <= k
            /\ num = "INV-" ++ Str.padStart (Str.digits n) 3 "0"
            /\ Str.startsWith num "INV-" = true
            /\ JS.parseInt (Str.skip 4 num) = JS.of_Z n.
Proof.
  intros Hk [n [Hn ->]]. exists n.
  split; [assumption |]. split; [reflexivity |].
  split; [apply startsWith_prefix |].
  rewrite skip_prefix.
  destruct (digits_spec n ltac:(lia)) as [Hdec Hval].
  destruct (padStart3_spec (Str.digits n) (digits_nonempty _) Hdec)
    as [Hpdec [Hpval Hplen]].
  rewrite Hval in Hpval.
  rewrite parseInt_decimal; rewrite ?Hpval; try lia; try assumption.
  - reflexivity.
  - intros E. rewrite E in Hplen. cbn in Hplen. lia.
Qed.

(** The suffixes of assigned numbers parse to the numbers assigned. *)
Lemma assigned_parsed (k : Z) (nums : list string) :
  k < 2 ^ 53 -> Forall (assigned k) nums ->
  Forall (fun x => exists n, 1 <= n <= k /\ x = JS.of_Z n)
         (parsedSuffixes nums).
Proof.
  intros Hk H.
  induction H as [| num nums Hnum _ IH]; cbn [parsedSuffixes];
    [constructor |].
  destruct (assigned_parse k num Hk Hnum) as [n [Hn [_ [Hp Hv]]]].
  rewrite Hp, Hv, of_Z_not_NaN by lia.
  constructor; [now exists n | exact IH].
Qed.

Lemma next_assigned (k : Z) (nums : list string) :
  0 <= k < 2 ^ 53 - 1 -> Forall (assigned k) nums ->
  assigned (k + 1) (nextFrom (parsedSuffixes nums))
  /\ ~ In (nextFrom (parsedSuffixes nums)) nums.
Proof.
  intros Hk Hnums.
  pose proof (assigned_parsed k nums ltac:(lia) Hnums) as Hparsed.
  assert (Hsafe : Forall safeNatural (parsedSuffixes nums)).
  { eapply Forall_impl; [| exact Hparsed].
    intros x [n [Hn ->]]. exists n. split; [lia | reflexivity]. }
  destruct (nextFrom_safe nums Hsafe) as [m [Hm [Enext [Hmax Hor]]]].
  assert (Hmk : m <= k).
  { destruct Hor as [-> | Hin]; [lia |].
    destruct (proj1 (Forall_forall _ _) Hparsed _ Hin) as [n [Hn E]].
    apply of_Z_inj in E; lia. }
  rewrite Enext. split.
  - exists (m + 1). split; [lia | reflexivity].
  - apply next_number_safe; assumption.
Qed.

Lemma numbersOf_set_in (k : string) (v : Invoice.t) (m : SMap.t Invoice.t)
    (x : string) :
  In x (numbersOf (SMap.set k v m)) ->
  x = Invoice.invoiceNumber v \/ In x (numbersOf m).
Proof.
  unfold numbersOf, SMap.values.
  induction m as [| [k' v'] m IH]; cbn [SMap.set map snd].
  - intros [<- | []]; now left.
  - destruct (String.eqb k' k); cbn [map snd In].
    + intros [<- | H]; [now left | right; now right].
    + intros [<- | H]; [right; now left |].
      destruct (IH H); [now left | right; now right].
Qed.

Lemma numbersOf_set_fresh (k : string) (v : Invoice.t)
    (m : SMap.t Invoice.t) :
  ~ In (Invoice.invoiceNumber v) (numbersOf m) ->
  NoDup (numbersOf m) -> NoDup (numbersOf (SMap.set k v m)).
Proof.
  unfold numbersOf, SMap.values.
  induction m as [| [k' v'] m IH]; cbn [SMap.set map snd]; intros Hv Hm.
  - constructor; [intros [] | constructor].
  - inversion Hm as [| ? ? Hnotin Hnodup]; subst.
    destruct (String.eqb k' k); cbn [map snd].
    + constructor; [| assumption].
      intros Hin; apply Hv; now right.
    + constructor.
      * intros Hin.
        destruct (numbersOf_set_in k v m _ Hin) as [E | Hin'].
        -- apply Hv; left; now symmetry.
        -- now apply Hnotin.
      * apply IH; [| assumption]. intros Hin; apply Hv; now right.
Qed.

Lemma numbersOf_set_same (k : string) (v v0 : Invoice.t)
    (m : SMap.t Invoice.t) :
  SMap.get k m = Some v0 ->
  Invoice.invoiceNumber v = Invoice.invoiceNumber v0 ->
  numbersOf (SMap.set k v m) = numbersOf m.
Proof.
  unfold numbersOf, SMap.values. intros Hget Hnum.
  induction m as [| [k' v'] m IH]; cbn [SMap.get] in Hget; [discriminate |].
  cbn [SMap.set].
  destruct (String.eqb k' k); cbn [map snd].
  - injection Hget as ->. now rewrite Hnum.
  - now rewrite IH.
Qed.

Lemma numbersOf_remove_in (k : string) (m : SMap.t Invoice.t) (x : string) :
  In x (numbersOf (SMap.remove k m)) -> In x (numbersOf m).
Proof.
  unfold numbersOf, SMap.values, SMap.remove.
  induction m as [| [k' v'] m IH]; cbn [filter map snd fst]; [intros [] |].
  destruct (String.eqb k' k); cbn [negb map snd In].
  - intros H; right; now apply IH.
  - intros [<- | H]; [now left | right; now apply IH].
Qed.

Lemma numbersOf_remove_NoDup (k : string) (m : SMap.t Invoice.t) :
  NoDup (numbersOf m) -> NoDup (numbersOf (SMap.remove k m)).
Proof.
  induction m as [| [k' v'] m IH]; intros H; [constructor |].
  unfold numbersOf, SMap.values in H; cbn [map snd] in H.
  inversion H as [| ? ? Hnotin Hnodup]; subst.
  unfold SMap.remove; cbn [filter fst].
  destruct (String.eqb k' k); cbn [negb].
  - now apply IH.
  - unfold numbersOf, SMap.values; cbn [map snd].
    constructor; [| now apply IH].
    intros Hin. apply Hnotin. now apply (numbersOf_remove_in k m).
Qed.

Lemma assigned_mono (k k' : Z) (num : string) :
  k <= k' -> assigned k num -> assigned k' num.
Proof. intros Hk [n [Hn E]]. exists n. split; [lia | assumption]. Qed.

Lemma exec_numbered (o : op) (k : Z) (s : MemStorage) :
  keepsNumber o = true -> 0 <= k < 2 ^ 53 - 1 ->
  numbered k s -> numbered (k + 1) (exec o s).
Proof.
  intros Hkeep Hk [Ha Hd].
  assert (Ha' : Forall (assigned (k + 1)) (invoiceNumbers s)).
  { eapply Forall_impl; [| exact Ha].
    intros num; apply assigned_mono; lia. }
  assert (Hsame : numbered (k + 1) s) by now split.
  destruct o as [id now c | id c | id | id lineId created updated r
                | id now p | id | id l | id l | id]; cbn [exec].
  - exact Hsame.
  - unfold updateClient, bind, get_store.
    now destruct (SMap.get id (clients s)).
  - exact Hsame.
  - rewrite createInvoice_run; cbn [snd].
    unfold numbered, invoiceNumbers; cbn [invoices].
    fold (numbersOf (SMap.set id (madeInvoice id created updated r s)
                              (invoices s))).
    destruct (next_assigned k (invoiceNumbers s) Hk Ha) as [Hnew Hfresh].
    assert (Enum : Invoice.invoiceNumber (madeInvoice id created updated r s)
                   = nextFrom (parsedSuffixes (invoiceNumbers s))).
    { cbn [madeInvoice Invoice.invoiceNumber].
      now rewrite getNextInvoiceNumber_run. }
    split.
    + apply Forall_forall; intros x Hin.
      destruct (numbersOf_set_in _ _ _ _ Hin) as [-> | Hin'].
      * now rewrite Enum.
      * now apply (proj1 (Forall_forall _ _) Ha').
    + apply numbersOf_set_fresh; [now rewrite Enum | exact Hd].
  - unfold updateInvoice, bind, get_store.
    destruct (SMap.get id (invoices s)) as [existing |] eqn:E;
      [| exact Hsame].
    cbn in Hkeep.
    destruct (InsertInvoice.p_invoiceNumber p) eqn:Ep; [discriminate |].
    cbn [snd set_invoices ret].
    unfold numbered, invoiceNumbers; cbn [invoices].
    match goal with
    | |- context [SMap.set id ?u (invoices s)] =>
        fold (numbersOf (SMap.set id u (invoices s)));
        rewrite (numbersOf_set_same id u existing (invoices s) E)
    end.
    + exact Hsame.
    + reflexivity.
  - rewrite deleteInvoice_run; cbn [snd].
    unfold numbered, invoiceNumbers; cbn [invoices].
    fold (numbersOf (SMap.remove id (invoices s))).
    split.
    + apply Forall_forall; intros x Hin.
      apply numbersOf_remove_in in Hin.
      now apply (proj1 (Forall_forall _ _) Ha').
    + now apply numbersOf_remove_NoDup.
  - exact Hsame.
  - unfold updateLineItem, bind, get_store.
    now destruct (SMap.get id (lineItemsMap s)).
  - exact Hsame.
Qed.

(** X5: as long as no [updateInvoice] patch carries an invoice number, the
    numbers of the stored invoices are those [createInvoice] assigned, of the
    form INV-NNN and pairwise distinct. *)
Theorem assigned_numbers_distinct (ops : list op) :
  forallb keepsNumber ops = true ->
  Z.of_nat (List.length ops) < 2 ^ 53 ->
  Forall (fun num => isInvNNN num = true) (invoiceNumbers (run ops))
  /\ NoDup (invoiceNumbers (run ops)).
Proof.
  intros Hkeep Hlen.
  assert (H : numbered (Z.of_nat (List.length ops)) (run ops)).
  { induction ops as [| o ops IH] using rev_ind.
    - split; constructor.
    - rewrite forallb_app in Hkeep. apply andb_prop in Hkeep as [Hops Ho].
      cbn in Ho. rewrite andb_true_r in Ho.
      rewrite length_app in Hlen |- *. cbn [List.length] in Hlen |- *.
      rewrite Nat2Z.inj_add in Hlen |- *.
      rewrite run_snoc. apply exec_numbered; [assumption | lia |].
      apply IH; [assumption | lia]. }
  destruct H as [Ha Hd]. split; [| exact Hd].
  eapply Forall_impl; [| exact Ha].
  intros num [n [Hn ->]].
  destruct (digits_spec n ltac:(lia)) as [Hdec _].
  destruct (padStart3_spec (Str.digits n) (digits_nonempty _) Hdec)
    as [Hpdec [_ Hplen]].
  unfold isInvNNN. rewrite startsWith_prefix, skip_prefix, Hpdec.
  cbn [andb]. now apply Nat.leb_le.
Qed.
(** ** More on maps *)

Lemma get_set_other {V} (k k' : string) (v : V) (m : SMap.t V) :
  k <> k' -> SMap.get k' (SMap.set k v m) = SMap.get k' m.
Proof.
  intros Hk; induction m as [| [k0 v0] m IH]; simpl.
  - destruct (String.eqb_spec k k'); [contradiction | reflexivity].
  - destruct (String.eqb_spec k0 k) as [-> |]; simpl.
    + destruct (String.eqb_spec k k'); [contradiction | reflexivity].
    + now rewrite IH.
Qed.

Lemma get_remove_other {V} (k k' : string) (m : SMap.t V) :
  k <> k' -> SMap.get k' (SMap.remove k m) = SMap.get k' m.
Proof.
  intros Hk; induction m as [| [k0 v0] m IH]; simpl; [reflexivity |].
  destruct (String.eqb_spec k0 k) as [-> |]; simpl.
  - destruct (String.eqb_spec k k'); [contradiction | exact IH].
  - now rewrite IH.
Qed.

Lemma keys_set_present {V} (k : string) (v v0 : V) (m : SMap.t V) :
  SMap.get k m = Some v0 -> map fst (SMap.set k v m) = map fst m.
Proof.
  induction m as [| [k0 v1] m IH]; simpl; [discriminate |].
  destruct (String.eqb_spec k0 k) as [-> |]; simpl; [reflexivity |].
  intros H; now rewrite IH.
Qed.

Lemma set_fresh {V} (k : string) (v : V) (m : SMap.t V) :
  SMap.get k m = None -> SMap.set k v m = (m ++ [(k, v)])%list.
Proof.
  induction m as [| [k0 v0] m IH]; simpl; [reflexivity |].
  destruct (String.eqb k0 k); [discriminate |].
  intros H; now rewrite IH.
Qed.

Lemma remove_set_fresh {V} (k : string) (v : V) (m : SMap.t V) :
  SMap.get k m = None -> SMap.remove k (SMap.set k v m) = m.
Proof.
  intros H. rewrite set_fresh by assumption.
  unfold SMap.remove. rewrite filter_app; simpl.
  rewrite String.eqb_refl; simpl. rewrite app_nil_r.
  now apply remove_absent.
Qed.

Lemma get_app {V} (k : string) (m m' : SMap.t V) :
  SMap.get k (m ++ m')%list
  = match SMap.get k m with Some v => Some v | None => SMap.get k m' end.
Proof.
  induction m as [| [k0 v0] m IH]; simpl; [reflexivity |].
  now destruct (String.eqb k0 k).
Qed.

Lemma in_get {V} (k : string) (v : V) (m : SMap.t V) :
  In (k, v) m -> SMap.get k m <> None.
Proof.
  induction m as [| [k0 v0] m IH]; simpl; [intros [] |].
  intros [[= -> ->] | H].
  - now rewrite String.eqb_refl.
  - destruct (String.eqb k0 k); [discriminate | now apply IH].
Qed.

Lemma values_app {V} (m m' : SMap.t V) :
  SMap.values (m ++ m')%list = (SMap.values m ++ SMap.values m')%list.
Proof. apply map_app. Qed.

Lemma in_values_set {V} (k : string) (v : V) (m : SMap.t V) :
  In v (SMap.values (SMap.set k v m)).
Proof.
  unfold SMap.values.
  induction m as [| [k0 v0] m IH]; simpl; [now left |].
  destruct (String.eqb k0 k); simpl; [now left | now right].
Qed.

Lemma has_true_iff {V} (k : string) (m : SMap.t V) :
  SMap.has k m = true <-> exists v, SMap.get k m = Some v.
Proof.
  unfold SMap.has. destruct (SMap.get k m) as [v |].
  - split; [intros _; now exists v | reflexivity].
  - split; [discriminate | intros [v H]; discriminate].
Qed.
(** ** Creating, reading and deleting an invoice *)

Lemma madeLineItems_ids (id : string) (lineId : nat -> string)
    (items : list Request.item) (i : nat) :
  map LineItem.id (madeLineItems id lineId i items)
  = map lineId (seq i (List.length items)).
Proof.
  revert i; induction items as [| it items IH]; intros i; simpl;
    [reflexivity | now rewrite IH].
Qed.

Lemma madeLineItems_reference (id : string) (lineId : nat -> string)
    (items : list Request.item) (i : nat) :
  filter (references id) (madeLineItems id lineId i items)
  = madeLineItems id lineId i items.
Proof.
  revert i; induction items as [| it items IH]; intros i; simpl;
    [reflexivity |].
  unfold references at 1; cbn [LineItem.invoiceId madeLineItem].
  now rewrite String.eqb_refl, IH.
Qed.

(** Line items with new, pairwise distinct ids go to the end of the map, in
    their order. *)
Lemma fold_put_fresh (items : list LineItem.t) (m : SMap.t LineItem.t) :
  NoDup (map LineItem.id items) ->
  Forall (fun l => SMap.get (LineItem.id l) m = None) items ->
  fold_left put_lineItem items m = (m ++ map entryOf items)%list.
Proof.
  revert m; induction items as [| l items IH]; intros m Hd Hf; simpl.
  - now rewrite app_nil_r.
  - inversion Hd as [| ? ? Hnotin Hd']; subst.
    inversion Hf as [| ? ? Hl Hf']; subst.
    unfold put_lineItem at 2. rewrite set_fresh by assumption.
    rewrite IH; [now rewrite <- app_assoc | assumption |].
    apply Forall_forall; intros l' Hin.
    rewrite get_app, (proj1 (Forall_forall _ _) Hf' l' Hin); simpl.
    destruct (String.eqb_spec (LineItem.id l) (LineItem.id l')) as [E |];
      [| reflexivity].
    exfalso; apply Hnotin; rewrite E; now apply in_map.
Qed.

Lemma madeLineItems_put (id : string) (lineId : nat -> string)
    (items : list Request.item) (s : MemStorage) :
  freshLineIds lineId (List.length items) s ->
  fold_left put_lineItem (madeLineItems id lineId 0 items) (lineItemsMap s)
  = (lineItemsMap s ++ map entryOf (madeLineItems id lineId 0 items))%list.
Proof.
  intros [Hd Hf]. apply fold_put_fresh.
  - now rewrite madeLineItems_ids.
  - apply Forall_forall; intros l Hin.
    apply (in_map LineItem.id) in Hin. rewrite madeLineItems_ids in Hin.
    apply in_map_iff in Hin as [i [<- Hi]].
    exact (proj1 (Forall_forall _ _) Hf i Hi).
Qed.

Lemma values_entries (items : list LineItem.t) :
  SMap.values (map entryOf items) = items.
Proof.
  unfold SMap.values. rewrite map_map; simpl. apply map_id.
Qed.

(** X1: [getInvoice] of a new invoice gives back what [createInvoice]
    returned: the record and its line items in the order of the request,
    provided no line item in the store carried the new id as its invoice and
    the line item ids drawn are new and pairwise distinct. *)
Theorem createInvoice_then_getInvoice
    (id : string) (lineId : nat -> string) (created updated : Date)
    (r : Request.t) (s : MemStorage) :
  fst (getLineItemsByInvoiceId id s) = [] ->
  freshLineIds lineId (List.length (Request.lineItems r)) s ->
  let st := snd (createInvoice id lineId created updated r s) in
  getInvoice id st = (Some (fst (createInvoice id lineId created updated r s)), st).
Proof.
  intros Hnone Hfresh st. unfold st.
  rewrite createInvoice_run; cbn [fst snd].
  rewrite madeLineItems_put by assumption.
  unfold getInvoice, getLineItemsByInvoiceId. unfold bind, get_store, ret.
  cbn [invoices lineItemsMap].
  rewrite get_set_same.
  cbn [lineItemsMap]. rewrite values_app, filter_app, values_entries.
  unfold getLineItemsByInvoiceId in Hnone.
  unfold bind, get_store, ret in Hnone. cbn [fst] in Hnone.
  rewrite Hnone; cbn [app].
  change (fun item => String.eqb (LineItem.invoiceId item) id)
    with (references id).
  now rewrite madeLineItems_reference.
Qed.

Lemma fresh_keys_kept (items : list LineItem.t) (m : SMap.t LineItem.t) :
  Forall (fun l => SMap.get (LineItem.id l) m = None) items ->
  filter (fun kv : string * LineItem.t =>
            negb (existsb (fun it => String.eqb (LineItem.id it) (fst kv))
                          items)) m = m.
Proof.
  intros Hf.
  assert (H : forall kv, In kv m ->
                negb (existsb (fun it => String.eqb (LineItem.id it) (fst kv))
                              items) = true).
  { intros [k v] Hin; cbn [fst].
    apply negb_true_iff. apply not_true_is_false. intros Hex.
    apply existsb_exists in Hex as [it [Hit Heq]].
    apply String.eqb_eq in Heq.
    apply (in_get _ _ _ Hin). rewrite <- Heq.
    exact (proj1 (Forall_forall _ _) Hf it Hit). }
  clear Hf. induction m as [| kv m IH]; simpl; [reflexivity |].
  rewrite (H kv) by now left.
  f_equal. apply IH. intros kv' Hin. apply H. now right.
Qed.

Lemma filter_nothing {A} (p : A -> bool) (l : list A) :
  (forall x, In x l -> p x = false) -> filter p l = [].
Proof.
  induction l as [| x l IH]; intros H; simpl; [reflexivity |].
  rewrite (H x) by now left. apply IH. intros y Hy. apply H. now right.
Qed.

Lemma own_keys_removed (items : list LineItem.t) :
  filter (fun kv : string * LineItem.t =>
            negb (existsb (fun it => String.eqb (LineItem.id it) (fst kv))
                          items)) (map entryOf items) = [].
Proof.
  apply filter_nothing. intros kv Hin.
  apply in_map_iff in Hin as [l [<- Hin]]; cbn [entryOf fst].
  apply negb_false_iff, existsb_exists. exists l.
  split; [assumption | apply String.eqb_refl].
Qed.

(** X2: deleting an invoice right after it was created gives back the store as
    it was before, and the number the invoice had is the next one to be
    assigned again. *)
Theorem createInvoice_then_deleteInvoice
    (id : string) (lineId : nat -> string) (created updated : Date)
    (r : Request.t) (s : MemStorage) :
  SMap.get id (invoices s) = None ->
  fst (getLineItemsByInvoiceId id s) = [] ->
  freshLineIds lineId (List.length (Request.lineItems r)) s ->
  let made := fst (createInvoice id lineId created updated r s) in
  let st := snd (createInvoice id lineId created updated r s) in
  deleteInvoice id st = (true, s)
  /\ fst (getNextInvoiceNumber (snd (deleteInvoice id st)))
     = Invoice.invoiceNumber (invoice made).
Proof.
  intros Hnew Hnone Hfresh made st.
  assert (Hdel : deleteInvoice id st = (true, s)).
  { unfold st. rewrite createInvoice_run; cbn [snd].
    rewrite deleteInvoice_run; cbn [clients invoices lineItemsMap invoiceCounter].
    unfold SMap.has. rewrite get_set_same.
    rewrite remove_set_fresh by assumption.
    rewrite madeLineItems_put by assumption.
    rewrite values_app, filter_app, values_entries.
    unfold getLineItemsByInvoiceId in Hnone.
    unfold bind, get_store, ret in Hnone. cbn [fst] in Hnone.
    change (fun item => String.eqb (LineItem.invoiceId item) id)
      with (references id) in Hnone.
    rewrite Hnone, madeLineItems_reference; cbn [app].
    rewrite fold_remove_filter, filter_app, own_keys_removed, app_nil_r.
    rewrite fresh_keys_kept.
    - now rewrite store_eta.
    - destruct Hfresh as [_ Hf].
      apply Forall_forall; intros l Hin.
      apply (in_map LineItem.id) in Hin. rewrite madeLineItems_ids in Hin.
      apply in_map_iff in Hin as [i [<- Hi]].
      exact (proj1 (Forall_forall _ _) Hf i Hi). }
  split; [exact Hdel |].
  rewrite Hdel; cbn [snd]. unfold made.
  now rewrite createInvoice_run.
Qed.
(** ** Records are stored under their own ids *)

Lemma keyedBy_set {V} (key : V -> string) (k : string) (v : V)
    (m : SMap.t V) :
  key v = k -> keyedBy key m -> keyedBy key (SMap.set k v m).
Proof.
  intros Hv; unfold keyedBy.
  induction m as [| [k0 v0] m IH]; simpl; intros H.
  - now repeat constructor.
  - inversion H as [| ? ? Hhd Htl].
    destruct (String.eqb k0 k); constructor; auto.
Qed.

Lemma keyedBy_remove {V} (key : V -> string) (k : string) (m : SMap.t V) :
  keyedBy key m -> keyedBy key (SMap.remove k m).
Proof.
  unfold keyedBy, SMap.remove; intros H.
  apply Forall_forall; intros kv Hin.
  apply filter_In in Hin as [Hin _].
  exact (proj1 (Forall_forall _ _) H kv Hin).
Qed.

Lemma keyedBy_get {V} (key : V -> string) (k : string) (v : V)
    (m : SMap.t V) :
  keyedBy key m -> SMap.get k m = Some v -> key v = k.
Proof.
  unfold keyedBy; induction m as [| [k0 v0] m IH]; simpl; intros H;
    [discriminate |].
  inversion H as [| ? ? Hhd Htl]; cbn [fst snd] in Hhd.
  destruct (String.eqb_spec k0 k) as [<- |]; [intros [= <-] | now apply IH].
  exact Hhd.
Qed.

Lemma keyedBy_ids {V} (key : V -> string) (m : SMap.t V) :
  keyedBy key m -> map key (SMap.values m) = map fst m.
Proof.
  unfold keyedBy, SMap.values; induction 1 as [| kv m Hkv _ IH]; simpl;
    [reflexivity | now rewrite Hkv, IH].
Qed.

Lemma unique_keys_get {V} (k : string) (v : V) (m : SMap.t V) :
  unique_keys m -> In (k, v) m -> SMap.get k m = Some v.
Proof.
  unfold unique_keys; induction m as [| [k0 v0] m IH]; simpl; intros Hu;
    [intros [] |].
  inversion Hu as [| ? ? Hnotin Hu']; subst.
  intros [[= -> ->] | Hin]; [now rewrite String.eqb_refl |].
  destruct (String.eqb_spec k0 k) as [-> |]; [| now apply IH].
  exfalso; apply Hnotin. now apply (in_map fst) in Hin.
Qed.

Lemma in_values_entry {V} (v : V) (m : SMap.t V) :
  In v (SMap.values m) -> exists k, In (k, v) m.
Proof.
  unfold SMap.values; intros H.
  apply in_map_iff in H as [[k v'] [Hv Hin]]; cbn [snd] in Hv; subst.
  now exists k.
Qed.

Lemma NoDup_map_inj {A B} (f : A -> B) (l : list A) (x y : A) :
  NoDup (map f l) -> In x l -> In y l -> f x = f y -> x = y.
Proof.
  induction l as [| a l IH]; simpl; intros Hd; [intros [] |].
  inversion Hd as [| ? ? Hnotin Hd']; subst.
  intros [-> | Hx] [-> | Hy] E; auto.
  - exfalso; apply Hnotin; rewrite E; now apply in_map.
  - exfalso; apply Hnotin; rewrite <- E; now apply in_map.
Qed.

Lemma exec_store_wf (o : op) (s : MemStorage) :
  store_wf s -> store_wf (exec o s).
Proof.
  intros (Hck & Hcu & Hik & Hiu & Hlk & Hlu).
  destruct (exec_wf o s (conj Hlk Hlu)) as [Hlk' Hlu'].
  unfold store_wf.
  enough (H : keyedBy Client.id (clients (exec o s))
              /\ unique_keys (clients (exec o s))
              /\ keyedBy Invoice.id (invoices (exec o s))
              /\ unique_keys (invoices (exec o s))) by tauto.
  clear Hlk' Hlu'.
  destruct o as [id now c | id c | id | id lineId created updated r
                | id now p | id | id l | id l | id]; cbn [exec].
  - unfold createClient, bind, get_store, set_clients, ret; cbn.
    repeat split; auto using unique_keys_set.
    now apply keyedBy_set.
  - unfold updateClient, bind, get_store.
    destruct (SMap.get id (clients s)) as [existing |] eqn:E;
      [| cbn; tauto].
    unfold set_clients, ret; cbn.
    repeat split; auto using unique_keys_set.
    apply keyedBy_set; [| assumption].
    exact (keyedBy_get _ _ _ _ Hck E).
  - unfold deleteClient, bind, get_store, set_clients, ret; cbn.
    repeat split; auto using unique_keys_remove, keyedBy_remove.
  - rewrite createInvoice_run; cbn.
    repeat split; auto using unique_keys_set.
    now apply keyedBy_set.
  - unfold updateInvoice, bind, get_store.
    destruct (SMap.get id (invoices s)) as [existing |] eqn:E;
      [| cbn; tauto].
    unfold set_invoices, ret; cbn.
    repeat split; auto using unique_keys_set.
    apply keyedBy_set; [| assumption].
    exact (keyedBy_get _ _ _ _ Hik E).
  - rewrite deleteInvoice_run; cbn.
    repeat split; auto using unique_keys_remove, keyedBy_remove.
  - unfold createLineItem, bind, get_store, set_lineItems, ret; cbn. tauto.
  - unfold updateLineItem, bind, get_store.
    destruct (SMap.get id (lineItemsMap s)); cbn; tauto.
  - unfold deleteLineItem, bind, get_store, set_lineItems, ret; cbn. tauto.
Qed.

Lemma run_store_wf (ops : list op) : store_wf (run ops).
Proof.
  apply run_invariant; [| apply exec_store_wf].
  unfold store_wf, keyedBy, unique_keys; cbn.
  repeat split; constructor.
Qed.

Lemma exec_counter (o : op) (s : MemStorage) :
  invoiceCounter (exec o s) = invoiceCounter s.
Proof.
  destruct o as [id now c | id c | id | id lineId created updated r
                | id now p | id | id l | id l | id]; cbn [exec].
  - reflexivity.
  - unfold updateClient, bind, get_store.
    now destruct (SMap.get id (clients s)).
  - reflexivity.
  - now rewrite createInvoice_run.
  - unfold updateInvoice, bind, get_store.
    now destruct (SMap.get id (invoices s)).
  - now rewrite deleteInvoice_run.
  - reflexivity.
  - unfold updateLineItem, bind, get_store.
    now destruct (SMap.get id (lineItemsMap s)).
  - reflexivity.
Qed.

(** X3: in every store the operations can build, a record found under an id
    carries that id, no two stored clients, invoices or line items share an
    id, and the field [invoiceCounter] still has its initial value 1: the
    numbering never reads or advances it. *)
Theorem stored_ids_consistent (ops : list op) :
  let s := run ops in
  (forall id c, fst (getClient id s) = Some c -> Client.id c = id)
  /\ (forall id r, fst (getInvoice id s) = Some r ->
        Invoice.id (invoice r) = id)
  /\ (forall id l, In l (fst (getLineItemsByInvoiceId id s)) ->
        SMap.get (LineItem.id l) (lineItemsMap s) = Some l)
  /\ NoDup (map Client.id (SMap.values (clients s)))
  /\ NoDup (map Invoice.id (SMap.values (invoices s)))
  /\ NoDup (map LineItem.id (SMap.values (lineItemsMap s)))
  /\ invoiceCounter s = 1.
Proof.
  intros s.
  destruct (run_store_wf ops) as (Hck & Hcu & Hik & Hiu & Hlk & Hlu).
  fold s in Hck, Hcu, Hik, Hiu, Hlk, Hlu.
  split; [| split; [| split; [| split; [| split; [| split]]]]].
  - intros id c H. exact (keyedBy_get _ _ _ _ Hck H).
  - intros id r. unfold getInvoice, getLineItemsByInvoiceId.
    unfold bind, get_store, ret.
    destruct (SMap.get id (invoices s)) as [inv |] eqn:E; [| discriminate].
    intros [= <-]. exact (keyedBy_get _ _ _ _ Hik E).
  - intros id l. unfold getLineItemsByInvoiceId, bind, get_store, ret;
      cbn [fst].
    intros Hin. apply filter_In in Hin as [Hin _].
    apply in_values_entry in Hin as [k Hin].
    assert (Hk : LineItem.id l = k)
      by exact (proj1 (Forall_forall _ _) Hlk (k, l) Hin).
    rewrite Hk. now apply unique_keys_get.
  - now rewrite keyedBy_ids.
  - now rewrite keyedBy_ids.
  - now rewrite keyedBy_ids.
  - unfold s. apply (run_invariant (fun s => invoiceCounter s = 1));
      [reflexivity |].
    intros o s0 H. now rewrite exec_counter.
Qed.

(** ** Looking an invoice up by its number *)

Lemma run_numbered (ops : list op) :
  forallb keepsNumber ops = true ->
  Z.of_nat (List.length ops) < 2 ^ 53 ->
  numbered (Z.of_nat (List.length ops)) (run ops).
Proof.
  induction ops as [| o ops IH] using rev_ind; intros Hkeep Hlen.
  - split; constructor.
  - rewrite forallb_app in Hkeep. apply andb_prop in Hkeep as [Hops Ho].
    cbn in Ho. rewrite andb_true_r in Ho.
    rewrite length_app in Hlen |- *. cbn [List.length] in Hlen |- *.
    rewrite Nat2Z.inj_add in Hlen |- *.
    rewrite run_snoc. apply exec_numbered; [assumption | lia |].
    apply IH; [assumption | lia].
Qed.

(** X4: as long as no [updateInvoice] patch carries an invoice number, lookups
    by number and by id agree: an invoice found under an id is found under its
    number, and an invoice found under a number carries that number and is the
    one found under its id. *)
Theorem getInvoiceByNumber_agrees_with_getInvoice (ops : list op) :
  forallb keepsNumber ops = true ->
  Z.of_nat (List.length ops) < 2 ^ 53 ->
  let s := run ops in
  (forall id r, fst (getInvoice id s) = Some r ->
     getInvoiceByNumber (Invoice.invoiceNumber (invoice r)) s = (Some r, s))
  /\ (forall num r, fst (getInvoiceByNumber num s) = Some r ->
        Invoice.invoiceNumber (invoice r) = num
        /\ getInvoice (Invoice.id (invoice r)) s = (Some r, s)).
Proof.
  intros Hkeep Hlen s.
  destruct (run_store_wf ops) as (_ & _ & Hik & Hiu & _ & _).
  destruct (run_numbered ops Hkeep Hlen) as [_ Hd].
  fold s in Hik, Hiu, Hd. unfold invoiceNumbers in Hd.
  split.
  - intros id r. unfold getInvoice, getInvoiceByNumber, getLineItemsByInvoiceId.
    unfold bind, get_store, ret.
    destruct (SMap.get id (invoices s)) as [inv |] eqn:E; [| discriminate].
    cbn [fst]. intros [= <-]; cbn [invoice].
    destruct (find _ (SMap.values (invoices s))) as [inv' |] eqn:F.
    + apply find_some in F as [Hin Heq]. apply String.eqb_eq in Heq.
      assert (inv' = inv) as ->.
      { apply (NoDup_map_inj Invoice.invoiceNumber (SMap.values (invoices s)));
          [exact Hd | exact Hin | exact (get_in_values _ _ _ E) | exact Heq]. }
      now rewrite (keyedBy_get _ _ _ _ Hik E).
    + exfalso. eapply find_none in F; [| exact (get_in_values _ _ _ E)].
      cbn in F. now rewrite String.eqb_refl in F.
  - intros num r. unfold getInvoice, getInvoiceByNumber, getLineItemsByInvoiceId.
    unfold bind, get_store, ret.
    destruct (find _ (SMap.values (invoices s))) as [inv |] eqn:F;
      [| discriminate].
    cbn [fst]. intros [= <-]; cbn [invoice].
    apply find_some in F as [Hin Heq]. apply String.eqb_eq in Heq.
    split; [exact Heq |].
    apply in_values_entry in Hin as [k Hin].
    assert (Hk : Invoice.id inv = k)
      by exact (proj1 (Forall_forall _ _) Hik (k, inv) Hin).
    assert (Hget : SMap.get (Invoice.id inv) (invoices s) = Some inv)
      by (rewrite Hk; now apply unique_keys_get).
    now rewrite Hget.
Qed.
(** ** Clients *)

Lemma find_first {A} (p : A -> bool) (l : list A) :
  match find p l with
  | Some x =>
      p x = true
      /\ exists before after,
           l = (before ++ x :: after)%list
           /\ Forall (fun y => p y = false) before
  | None => Forall (fun y => p y = false) l
  end.
Proof.
  induction l as [| a l IH]; simpl; [constructor |].
  destruct (p a) eqn:E.
  - split; [exact E |]. exists [], l. now split.
  - destruct (find p l) as [x |].
    + destruct IH as [Hx [before [after [-> Hb]]]].
      split; [exact Hx |]. exists (a :: before), after.
      split; [reflexivity | now constructor].
    + now constructor.
Qed.

Lemma set_same {V} (k : string) (v : V) (m : SMap.t V) :
  SMap.get k m = Some v -> SMap.set k v m = m.
Proof.
  induction m as [| [k0 v0] m IH]; simpl; [discriminate |].
  destruct (String.eqb_spec k0 k) as [-> |].
  - now intros [= ->].
  - intros H; now rewrite IH.
Qed.

(** X13: a client just created is found under its id with the name and e-mail
    given, the creation time of the call and an empty address turned into
    [null]; a lookup by its e-mail finds a client (an older one with the same
    e-mail, if there is one: e-mails are not kept unique); other clients, the
    invoices and the line items are as before. *)
Theorem createClient_then_lookup :
  forall (id : string) (now : Date) (c : InsertClient.t) (s : MemStorage),
    let created := fst (createClient id now c s) in
    let st := snd (createClient id now c s) in
    getClient id st = (Some created, st)
    /\ Client.id created = id
    /\ Client.name created = InsertClient.name c
    /\ Client.email created = InsertClient.email c
    /\ Client.createdAt created = Some now
    /\ Client.address created
       = match InsertClient.address c with
         | Some "" | None => None
         | Some a => Some a
         end
    /\ (exists found,
          fst (getClientByEmail (InsertClient.email c) st) = Some found
          /\ Client.email found = InsertClient.email c
          /\ (fst (getClientByEmail (InsertClient.email c) s) = None ->
              found = created))
    /\ (forall other, other <> id ->
          getClient other st = (fst (getClient other s), st))
    /\ invoices st = invoices s
    /\ lineItemsMap st = lineItemsMap s.
Proof.
  intros id now c s created st.
  unfold created, st, createClient, getClient, getClientByEmail, bind,
    get_store, set_clients, ret; cbn [fst snd clients invoices lineItemsMap].
  split; [now rewrite get_set_same |].
  do 4 (split; [reflexivity |]).
  split.
  { cbn [Client.address]. unfold or_null.
    now destruct (InsertClient.address c) as [[| ch r] |]. }
  split.
  { match goal with
    | |- context [find ?p (SMap.values (SMap.set id ?v _))] =>
        set (p0 := p); set (v0 := v)
    end.
    destruct (find p0 (SMap.values (SMap.set id v0 (clients s))))
      as [found |] eqn:E.
    - exists found. split; [reflexivity |].
      pose proof (find_some _ _ E) as [Hin Heq].
      split; [now apply String.eqb_eq in Heq |].
      intros Hnone.
      pose proof (find_none _ _ Hnone) as Hold.
      unfold SMap.values in Hin. apply in_map_iff in Hin as [[k v] [Hv Hin]].
      cbn [snd] in Hv; subst v.
      clear E Hnone. induction (clients s) as [| [k1 v1] m IH];
        cbn [SMap.set] in Hin.
      + destruct Hin as [[= _ ->] | []]. reflexivity.
      + destruct (String.eqb k1 id).
        * destruct Hin as [[= _ ->] | Hin]; [reflexivity |].
          exfalso. assert (Hf : p0 found = false).
          { apply Hold. unfold SMap.values; cbn [map].
            right. now apply (in_map snd) in Hin. }
          congruence.
        * destruct Hin as [[= _ ->] | Hin].
          -- exfalso. assert (Hf : p0 found = false)
               by (apply Hold; now left).
             congruence.
          -- apply IH; [exact Hin |].
             intros x Hx. apply Hold. now right.
    - exfalso.
      eapply find_none in E; [| apply in_values_set].
      unfold p0, v0 in E; cbn [Client.email] in E.
      now rewrite String.eqb_refl in E. }
  split; [| split; reflexivity].
  intros other Hother. now rewrite get_set_other.
Qed.

(** X14: a lookup by e-mail returns the first client, in the order the clients
    were added, that has the e-mail, and nothing when none has it; it leaves
    the store alone. *)
Theorem getClientByEmail_first_match :
  forall (email : string) (s : MemStorage),
    snd (getClientByEmail email s) = s
    /\ match fst (getClientByEmail email s) with
       | Some found =>
           Client.email found = email
           /\ exists before after,
                SMap.values (clients s) = (before ++ found :: after)%list
                /\ Forall (fun c => Client.email c <> email) before
       | None =>
           Forall (fun c => Client.email c <> email) (SMap.values (clients s))
       end.
Proof.
  intros email s. split; [reflexivity |].
  unfold getClientByEmail, bind, get_store, ret; cbn [fst].
  pose proof (find_first (fun client => String.eqb (Client.email client) email)
                         (SMap.values (clients s))) as H.
  assert (Hneq : forall l,
             Forall (fun y : Client.t =>
                       String.eqb (Client.email y) email = false) l ->
             Forall (fun c => Client.email c <> email) l).
  { intros l. apply Forall_impl. intros c Hc. now apply String.eqb_neq. }
  destruct (find _ (SMap.values (clients s))) as [found |].
  - destruct H as [Hx [before [after [E Hb]]]].
    split; [now apply String.eqb_eq |].
    exists before, after. split; [exact E | now apply Hneq].
  - now apply Hneq.
Qed.

(** X15: updating a stored client returns and stores the merged record: the id
    and the creation time are kept, a patched address is taken as it is (an
    empty string stays an empty string), the client keeps its place in the
    map, a patch without fields changes nothing, and no other client, invoice
    or line item changes. *)
Theorem updateClient_merges
    (id : string) (patch : InsertClient.partial) (existing : Client.t)
    (s : MemStorage) :
  SMap.get id (clients s) = Some existing ->
  exists (updated : Client.t) (st : MemStorage),
    updateClient id patch s = (Some updated, st)
    /\ getClient id st = (Some updated, st)
    /\ Client.id updated = Client.id existing
    /\ Client.createdAt updated = Client.createdAt existing
    /\ Client.name updated = over (Client.name existing) (InsertClient.p_name patch)
    /\ Client.email updated
       = over (Client.email existing) (InsertClient.p_email patch)
    /\ Client.address updated
       = over (Client.address existing) (InsertClient.p_address patch)
    /\ map fst (clients st) = map fst (clients s)
    /\ (forall other, other <> id ->
          SMap.get other (clients st) = SMap.get other (clients s))
    /\ (patch = InsertClient.mkp None None None -> st = s)
    /\ invoices st = invoices s
    /\ lineItemsMap st = lineItemsMap s.
Proof.
  intros Hget.
  unfold updateClient, getClient, bind, get_store. rewrite Hget.
  unfold set_clients, ret.
  eexists; eexists. split; [reflexivity |].
  cbn [clients invoices lineItemsMap].
  split; [now rewrite get_set_same |].
  do 5 (split; [reflexivity |]).
  split; [exact (keys_set_present _ _ _ _ Hget) |].
  split; [intros other Hother; now apply get_set_other |].
  split; [| split; reflexivity].
  intros ->; cbn [over InsertClient.p_name InsertClient.p_email
                  InsertClient.p_address].
  replace {| Client.id := Client.id existing;
             Client.name := Client.name existing;
             Client.email := Client.email existing;
             Client.address := Client.address existing;
             Client.createdAt := Client.createdAt existing |}
    with existing by now destruct existing.
  rewrite set_same by assumption. apply store_eta.
Qed.

(** X16: deleting a client reports whether it was there and removes it and
    nothing else: the invoices, also those that carry its id as [clientId],
    and the line items stay. *)
Theorem deleteClient_removes_only_client :
  forall (id : string) (s : MemStorage),
    let st := snd (deleteClient id s) in
    (fst (deleteClient id s) = true <-> exists c, fst (getClient id s) = Some c)
    /\ getClient id st = (None, st)
    /\ (forall other, other <> id ->
          getClient other st = (fst (getClient other s), st))
    /\ invoices st = invoices s
    /\ lineItemsMap st = lineItemsMap s.
Proof.
  intros id s st. unfold st, deleteClient, getClient, bind, get_store,
    set_clients, ret; cbn [fst snd clients invoices lineItemsMap].
  split; [apply has_true_iff |].
  split; [now rewrite get_remove_same |].
  split; [| split; reflexivity].
  intros other Hother. now rewrite get_remove_other.
Qed.
(** ** Line items *)

Lemma values_set_fresh {V} (k : string) (v : V) (m : SMap.t V) :
  SMap.get k m = None ->
  SMap.values (SMap.set k v m) = (SMap.values m ++ [v])%list.
Proof. intros H. now rewrite set_fresh, values_app by assumption. Qed.

Lemma values_remove_keyed {V} (key : V -> string) (k : string)
    (m : SMap.t V) :
  keyedBy key m ->
  SMap.values (SMap.remove k m)
  = filter (fun v => negb (String.eqb (key v) k)) (SMap.values m).
Proof.
  unfold keyedBy, SMap.values, SMap.remove.
  induction 1 as [| [k0 v0] m Hkv _ IH]; simpl; [reflexivity |].
  cbn [fst snd] in Hkv. rewrite Hkv.
  destruct (String.eqb k0 k); simpl; now rewrite IH.
Qed.

Lemma filter_filter_swap {A} (p q : A -> bool) (l : list A) :
  filter p (filter q l) = filter q (filter p l).
Proof.
  induction l as [| x l IH]; simpl; [reflexivity |].
  destruct (p x) eqn:Ep, (q x) eqn:Eq; simpl; rewrite ?Ep, ?Eq, IH;
    reflexivity.
Qed.

(** X17: a line item just created is stored under the id drawn with the
    invoice id and the description given; its quantity is the one given, or
    1 when that is missing, 0 or NaN; its rate and its amount are the ones
    given, or "0" when they are missing or empty. So the quantity stored is
    never 0 or NaN and the rate and amount are never empty. The item is
    listed for the invoice id it names, whether or not such an invoice
    exists; under a new id it comes last there and the lists of the other
    invoices are as before. No invoice changes: the amounts of the invoice
    are not recomputed. *)
Theorem createLineItem_defaults_and_listing :
  forall (id : string) (l : InsertLineItem.t) (s : MemStorage),
    let created := fst (createLineItem id l s) in
    let st := snd (createLineItem id l s) in
    LineItem.id created = id
    /\ LineItem.invoiceId created = InsertLineItem.invoiceId l
    /\ LineItem.description created = InsertLineItem.description l
    /\ LineItem.quantity created
       = match InsertLineItem.quantity l with
         | Some q => if JS.truthy q then q else JS.of_Z 1
         | None => JS.of_Z 1
         end
    /\ LineItem.rate created
       = match InsertLineItem.rate l with
         | Some "" | None => "0"
         | Some x => x
         end
    /\ LineItem.amount created
       = match InsertLineItem.amount l with
         | Some "" | None => "0"
         | Some x => x
         end
    /\ JS.truthy (LineItem.quantity created) = true
    /\ LineItem.rate created <> ""
    /\ LineItem.amount created <> ""
    /\ SMap.get id (lineItemsMap st) = Some created
    /\ In created
          (fst (getLineItemsByInvoiceId (InsertLineItem.invoiceId l) st))
    /\ (SMap.get id (lineItemsMap s) = None ->
        forall invoiceId,
          fst (getLineItemsByInvoiceId invoiceId st)
          = (fst (getLineItemsByInvoiceId invoiceId s)
             ++ (if String.eqb (InsertLineItem.invoiceId l) invoiceId
                 then [created] else []))%list)
    /\ (forall other, other <> id ->
          SMap.get other (lineItemsMap st) = SMap.get other (lineItemsMap s))
    /\ invoices st = invoices s
    /\ clients st = clients s.
Proof.
  intros id l s created st.
  unfold created, st, createLineItem, getLineItemsByInvoiceId.
  unfold bind, get_store, set_lineItems, ret.
  cbn [fst snd clients invoices lineItemsMap LineItem.id LineItem.invoiceId
       LineItem.description LineItem.quantity LineItem.rate LineItem.amount].
  do 4 (split; [reflexivity |]).
  split.
  { unfold or_string. now destruct (InsertLineItem.rate l) as [[| c r] |]. }
  split.
  { unfold or_string. now destruct (InsertLineItem.amount l) as [[| c r] |]. }
  split.
  { destruct (InsertLineItem.quantity l) as [q |]; [| reflexivity].
    destruct (JS.truthy q) eqn:E; [exact E | reflexivity]. }
  split.
  { unfold or_string. now destruct (InsertLineItem.rate l) as [[| c r] |]. }
  split.
  { unfold or_string. now destruct (InsertLineItem.amount l) as [[| c r] |]. }
  split; [apply get_set_same |].
  split.
  { apply filter_In. split; [apply in_values_set |].
    cbn [LineItem.invoiceId]. apply String.eqb_refl. }
  split.
  { intros Hnew invoiceId.
    rewrite values_set_fresh, filter_app by assumption.
    cbn [filter LineItem.invoiceId].
    now destruct (String.eqb (InsertLineItem.invoiceId l) invoiceId). }
  split; [| split; reflexivity].
  intros other Hother. now apply get_set_other.
Qed.

(** X18: updating a stored line item returns and stores the merged record
    under the same id and at the same place in the map: every field of the
    patch replaces the field of the stored item and every other field is
    kept. Nothing is recomputed: the amount stays as it was unless the
    patch carries one, also when the quantity or the rate change. An item
    given another invoice id is listed for that invoice from then on; a
    patch without fields changes nothing; no other line item and no invoice
    or client changes. *)
Theorem updateLineItem_merges
    (id : string) (patch : InsertLineItem.partial) (existing : LineItem.t)
    (s : MemStorage) :
  SMap.get id (lineItemsMap s) = Some existing ->
  exists (updated : LineItem.t) (st : MemStorage),
    updateLineItem id patch s = (Some updated, st)
    /\ SMap.get id (lineItemsMap st) = Some updated
    /\ LineItem.id updated = LineItem.id existing
    /\ LineItem.invoiceId updated
       = match InsertLineItem.p_invoiceId patch with
         | Some v => v
         | None => LineItem.invoiceId existing
         end
    /\ LineItem.description updated
       = match InsertLineItem.p_description patch with
         | Some v => v
         | None => LineItem.description existing
         end
    /\ LineItem.quantity updated
       = match InsertLineItem.p_quantity patch with
         | Some v => v
         | None => LineItem.quantity existing
         end
    /\ LineItem.rate updated
       = match InsertLineItem.p_rate patch with
         | Some v => v
         | None => LineItem.rate existing
         end
    /\ LineItem.amount updated
       = match InsertLineItem.p_amount patch with
         | Some v => v
         | None => LineItem.amount existing
         end
    /\ In updated
          (fst (getLineItemsByInvoiceId (LineItem.invoiceId updated) st))
    /\ map fst (lineItemsMap st) = map fst (lineItemsMap s)
    /\ (forall other, other <> id ->
          SMap.get other (lineItemsMap st) = SMap.get other (lineItemsMap s))
    /\ (patch = emptyLinePatch -> st = s)
    /\ invoices st = invoices s
    /\ clients st = clients s.
Proof.
  intros Hget.
  unfold updateLineItem, getLineItemsByInvoiceId.
  unfold bind, get_store. rewrite Hget.
  unfold set_lineItems, ret.
  eexists; eexists. split; [reflexivity |].
  cbn [fst clients invoices lineItemsMap].
  split; [now rewrite get_set_same |].
  do 6 (split; [reflexivity |]).
  split.
  { apply filter_In. split; [apply in_values_set | apply String.eqb_refl]. }
  split; [exact (keys_set_present _ _ _ _ Hget) |].
  split; [intros other Hother; now apply get_set_other |].
  split; [| split; reflexivity].
  intros ->; cbn [over emptyLinePatch InsertLineItem.p_invoiceId
                  InsertLineItem.p_description InsertLineItem.p_quantity
                  InsertLineItem.p_rate InsertLineItem.p_amount].
  replace {| LineItem.id := LineItem.id existing;
             LineItem.invoiceId := LineItem.invoiceId existing;
             LineItem.description := LineItem.description existing;
             LineItem.quantity := LineItem.quantity existing;
             LineItem.rate := LineItem.rate existing;
             LineItem.amount := LineItem.amount existing |}
    with existing by now destruct existing.
  rewrite set_same by assumption. apply store_eta.
Qed.

(** X19: deleting a line item reports whether it was there; in a store the
    operations have built it takes exactly that item off the list of every
    invoice, the others keeping their order, and leaves the invoices and their
    amounts alone. *)
Theorem deleteLineItem_removes_only_item :
  forall (ops : list op) (id : string),
    let s := run ops in
    let st := snd (deleteLineItem id s) in
    (fst (deleteLineItem id s) = true
     <-> exists l, SMap.get id (lineItemsMap s) = Some l)
    /\ SMap.get id (lineItemsMap st) = None
    /\ (forall invoiceId,
          fst (getLineItemsByInvoiceId invoiceId st)
          = filter (fun l => negb (String.eqb (LineItem.id l) id))
                   (fst (getLineItemsByInvoiceId invoiceId s)))
    /\ (forall other, other <> id ->
          SMap.get other (lineItemsMap st) = SMap.get other (lineItemsMap s))
    /\ invoices st = invoices s
    /\ clients st = clients s.
Proof.
  intros ops id s st.
  destruct (run_store_wf ops) as (_ & _ & _ & _ & Hlk & _). fold s in Hlk.
  unfold st, deleteLineItem, getLineItemsByInvoiceId.
  unfold bind, get_store, set_lineItems, ret.
  cbn [fst snd clients invoices lineItemsMap].
  split; [apply has_true_iff |].
  split; [apply get_remove_same |].
  split.
  { intros invoiceId.
    rewrite (values_remove_keyed LineItem.id) by assumption.
    apply filter_filter_swap. }
  split; [| split; reflexivity].
  intros other Hother. now apply get_remove_other.
Qed.

(** ** What changes the invoices *)

Lemma exec_invoices_frame (o : op) (s : MemStorage) :
  onInvoices o = false -> invoices (exec o s) = invoices s.
Proof.
  destruct o as [id now c | id c | id | id lineId created updated r
                | id now p | id | id l | id l | id]; cbn [exec onInvoices];
    try discriminate; intros _; try reflexivity.
  - unfold updateClient, bind, get_store.
    now destruct (SMap.get id (clients s)).
  - unfold updateLineItem, bind, get_store.
    now destruct (SMap.get id (lineItemsMap s)).
Qed.

(** X7: operations on line items and on clients never change an invoice:
    whatever is added to, changed in or taken from the line items of an
    invoice, its stored subtotal, tax amount and total and every other field
    stay as they were, and so do the statistics and the next invoice number.
    *)
Theorem invoices_change_only_by_invoice_operations
    (ops : list op) (s : MemStorage) :
  forallb (fun o => negb (onInvoices o)) ops = true ->
  let st := runFrom s ops in
  invoices st = invoices s
  /\ (forall id, option_map invoice (fst (getInvoice id st))
                 = option_map invoice (fst (getInvoice id s)))
  /\ fst (getInvoiceStats st) = fst (getInvoiceStats s)
  /\ fst (getNextInvoiceNumber st) = fst (getNextInvoiceNumber s).
Proof.
  intros Hops st.
  assert (H : invoices st = invoices s).
  { unfold st, runFrom. clear st. revert s.
    induction ops as [| o ops IH]; intros s; [reflexivity |].
    cbn [forallb] in Hops. apply andb_prop in Hops as [Ho Hops].
    cbn [fold_left]. rewrite IH by assumption.
    apply exec_invoices_frame. now apply negb_true_iff. }
  split; [exact H |].
  split; [| split].
  - intros id. unfold getInvoice, getLineItemsByInvoiceId.
    unfold bind, get_store, ret. rewrite H.
    now destruct (SMap.get id (invoices s)).
  - unfold getInvoiceStats, bind, get_store, ret; cbn [fst]. now rewrite H.
  - unfold getNextInvoiceNumber, existingNumbers, bind, get_store, ret;
      cbn [fst]. unfold existingNumbers. now rewrite H.
Qed.
(** ** Updating an invoice *)

(** X6: updating a stored invoice returns and stores the merged record:
    every field of the patch replaces the field of the stored invoice and
    every other field is kept, the id and the creation time are kept and the
    time of the update is set. Nothing is recomputed: the tax amount and the
    total stay as they were unless the patch itself carries them, also when
    the tax rate or the subtotal change. [getInvoice] then gives the updated
    record with the line items as before; the invoice keeps its place in the
    map, and no other invoice, line item or client changes. *)
Theorem updateInvoice_merges
    (id : string) (now : Date) (patch : InsertInvoice.partial)
    (existing : Invoice.t) (s : MemStorage) :
  SMap.get id (invoices s) = Some existing ->
  exists (updated : Invoice.t) (st : MemStorage),
    updateInvoice id now patch s = (Some updated, st)
    /\ getInvoice id st
       = (Some {| invoice := updated;
                  lineItems := fst (getLineItemsByInvoiceId id s) |}, st)
    /\ Invoice.id updated = Invoice.id existing
    /\ Invoice.invoiceNumber updated
       = match InsertInvoice.p_invoiceNumber patch with
         | Some v => v
         | None => Invoice.invoiceNumber existing
         end
    /\ Invoice.clientId updated
       = match InsertInvoice.p_clientId patch with
         | Some v => v
         | None => Invoice.clientId existing
         end
    /\ Invoice.clientName updated
       = match InsertInvoice.p_clientName patch with
         | Some v => v
         | None => Invoice.clientName existing
         end
    /\ Invoice.clientEmail updated
       = match InsertInvoice.p_clientEmail patch with
         | Some v => v
         | None => Invoice.clientEmail existing
         end
    /\ Invoice.clientAddress updated
       = match InsertInvoice.p_clientAddress patch with
         | Some v => v
         | None => Invoice.clientAddress existing
         end
    /\ Invoice.issueDate updated
       = match InsertInvoice.p_issueDate patch with
         | Some v => v
         | None => Invoice.issueDate existing
         end
    /\ Invoice.dueDate updated
       = match InsertInvoice.p_dueDate patch with
         | Some v => v
         | None => Invoice.dueDate existing
         end
    /\ Invoice.status updated
       = match InsertInvoice.p_status patch with
         | Some v => v
         | None => Invoice.status existing
         end
    /\ Invoice.subtotal updated
       = match InsertInvoice.p_subtotal patch with
         | Some v => v
         | None => Invoice.subtotal existing
         end
    /\ Invoice.taxRate updated
       = match InsertInvoice.p_taxRate patch with
         | Some v => v
         | None => Invoice.taxRate existing
         end
    /\ Invoice.taxAmount updated
       = match InsertInvoice.p_taxAmount patch with
         | Some v => v
         | None => Invoice.taxAmount existing
         end
    /\ Invoice.total updated
       = match InsertInvoice.p_total patch with
         | Some v => v
         | None => Invoice.total existing
         end
    /\ Invoice.notes updated
       = match InsertInvoice.p_notes patch with
         | Some v => v
         | None => Invoice.notes existing
         end
    /\ Invoice.createdAt updated = Invoice.createdAt existing
    /\ Invoice.updatedAt updated = Some now
    /\ map fst (invoices st) = map fst (invoices s)
    /\ (forall other, other <> id ->
          SMap.get other (invoices st) = SMap.get other (invoices s))
    /\ lineItemsMap st = lineItemsMap s
    /\ clients st = clients s.
Proof.
  intros Hget.
  unfold updateInvoice, getInvoice, getLineItemsByInvoiceId.
  unfold bind, get_store. rewrite Hget.
  unfold set_invoices, ret.
  eexists; eexists. split; [reflexivity |].
  cbn [fst clients invoices lineItemsMap].
  split; [now rewrite get_set_same |].
  do 16 (split; [reflexivity |]).
  split; [exact (keys_set_present _ _ _ _ Hget) |].
  split; [intros other Hother; now apply get_set_other | split; reflexivity].
Qed.

(** ** Statistics and the operations *)

Lemma count_two_statuses (a b : string) (invs : list Invoice.t) :
  a <> b ->
  (List.length (filter (fun inv => String.eqb (Invoice.status inv) a) invs)
   + List.length (filter (fun inv => String.eqb (Invoice.status inv) b) invs)
   <= List.length invs)%nat.
Proof.
  intros Hab. induction invs as [| inv invs IH]; simpl; [lia |].
  destruct (String.eqb_spec (Invoice.status inv) a) as [Ea |],
           (String.eqb_spec (Invoice.status inv) b) as [Eb |]; simpl;
    try lia.
  congruence.
Qed.

(** X8: a new invoice enters the statistics as a draft: the number of invoices
    goes up by one, and the revenue and the numbers of pending and overdue
    invoices stay as they were. *)
Theorem createInvoice_counts_as_draft
    (id : string) (lineId : nat -> string) (created updated : Date)
    (r : Request.t) (s : MemStorage) :
  SMap.get id (invoices s) = None ->
  let before := fst (getInvoiceStats s) in
  let after :=
    fst (getInvoiceStats (snd (createInvoice id lineId created updated r s))) in
  totalInvoices after = S (totalInvoices before)
  /\ totalRevenue after = totalRevenue before
  /\ pendingInvoices after = pendingInvoices before
  /\ overdueInvoices after = overdueInvoices before.
Proof.
  intros Hnew before after. unfold before, after.
  rewrite createInvoice_run; cbn [snd].
  unfold getInvoiceStats, bind, get_store, ret;
    cbn [fst invoices totalInvoices totalRevenue pendingInvoices
         overdueInvoices].
  rewrite values_set_fresh by assumption.
  rewrite !filter_app, length_app; cbn [filter madeInvoice Invoice.status].
  cbn [String.eqb Ascii.eqb Bool.eqb andb]; cbn [List.length].
  rewrite !app_nil_r. repeat split. lia.
Qed.

(** X10: the statistics leave the store alone; the invoices that are pending
    and those that are overdue are together no more than all invoices; and
    without a paid invoice the revenue reads "0.00". *)
Theorem getInvoiceStats_bounds :
  forall s : MemStorage,
    let stats := fst (getInvoiceStats s) in
    snd (getInvoiceStats s) = s
    /\ (pendingInvoices stats + overdueInvoices stats
        <= totalInvoices stats)%nat
    /\ (countStatus "paid" (SMap.values (invoices s)) = 0%nat ->
        totalRevenue stats = "0.00")
    /\ (invoices s = [] ->
        stats = {| totalInvoices := 0; totalRevenue := "0.00";
                   pendingInvoices := 0; overdueInvoices := 0 |}).
Proof.
  intros s stats. unfold stats, getInvoiceStats, bind, get_store, ret;
    cbn [fst snd totalInvoices totalRevenue pendingInvoices overdueInvoices].
  split; [reflexivity |].
  split; [apply count_two_statuses; discriminate |].
  split.
  - intros Hnone.
    assert (E : filter (fun inv => String.eqb (Invoice.status inv) "paid")
                       (SMap.values (invoices s)) = []).
    { induction (SMap.values (invoices s)) as [| inv invs IH];
        [reflexivity |].
      cbn [countStatus] in Hnone. cbn [filter].
      destruct (String.eqb (Invoice.status inv) "paid");
        [discriminate | apply IH; exact Hnone]. }
    rewrite E. reflexivity.
  - intros ->. reflexivity.
Qed.
(** ** Listing clients and invoices *)

Section Sort.
Context {A : Type} (time : A -> Z).

(** The comparison function of both listings. *)
Let compare (a b : A) : Z := time b - time a.

Lemma sortInsert_perm (x : A) (l : list A) :
  Permutation (sortInsert compare x l) (x :: l).
Proof.
  induction l as [| y l IH]; simpl; [reflexivity |].
  destruct (compare x y <=? 0); [reflexivity |].
  rewrite IH. apply perm_swap.
Qed.

Lemma sort_perm (l : list A) : Permutation (sort compare l) l.
Proof.
  induction l as [| x l IH]; simpl; [reflexivity |].
  unfold sort in IH. rewrite sortInsert_perm. now constructor.
Qed.

Lemma sortInsert_sorted (x : A) (l : list A) :
  newestFirst time l -> newestFirst time (sortInsert compare x l).
Proof.
  unfold newestFirst.
  induction 1 as [| y l Hl IH Hy]; simpl.
  - repeat constructor.
  - destruct (Z.leb_spec (compare x y) 0) as [Hle | Hgt]; unfold compare in *.
    + constructor; [now constructor |].
      constructor; [lia |].
      eapply Forall_impl; [| exact Hy]. intros z Hz; cbn in Hz. lia.
    + constructor; [exact IH |].
      eapply Permutation_Forall; [symmetry; apply sortInsert_perm |].
      constructor; [lia | exact Hy].
Qed.

Lemma sort_sorted (l : list A) : newestFirst time (sort compare l).
Proof.
  induction l as [| x l IH]; simpl; [constructor |].
  now apply sortInsert_sorted.
Qed.

Lemma sortInsert_stable (t : Z) (x : A) (l : list A) :
  createdAtTime time t (sortInsert compare x l)
  = createdAtTime time t (x :: l).
Proof.
  unfold createdAtTime.
  induction l as [| y l IH]; simpl; [reflexivity |].
  destruct (Z.leb_spec (compare x y) 0) as [Hle | Hgt]; unfold compare in *;
    [reflexivity |].
  simpl. rewrite IH; simpl.
  destruct (Z.eqb_spec (time x) t), (Z.eqb_spec (time y) t);
    try reflexivity.
  lia.
Qed.

Lemma sort_stable (t : Z) (l : list A) :
  createdAtTime time t (sort compare l) = createdAtTime time t l.
Proof.
  induction l as [| x l IH]; [reflexivity |].
  change (sort compare (x :: l)) with (sortInsert compare x (sort compare l)).
  rewrite sortInsert_stable. unfold createdAtTime in *; cbn [filter].
  now rewrite IH.
Qed.
End Sort.

(** X12: the list of all clients holds every stored client once, newest first;
    clients created at the same time keep the order in which they were added;
    the store is left alone. *)
Theorem getAllClients_newest_first :
  forall s : MemStorage,
    let listed := fst (getAllClients s) in
    snd (getAllClients s) = s
    /\ Permutation listed (SMap.values (clients s))
    /\ newestFirst clientTime listed
    /\ (forall t, createdAtTime clientTime t listed
                  = createdAtTime clientTime t (SMap.values (clients s))).
Proof.
  intros s listed. unfold listed, getAllClients, bind, get_store, ret;
    cbn [fst snd].
  split; [reflexivity |].
  split; [apply (sort_perm clientTime) |].
  split; [apply (sort_sorted clientTime) |].
  intros t. apply (sort_stable clientTime).
Qed.

Lemma collect_invoices (invs : list Invoice.t) (i : nat) (s : MemStorage) :
  for_collect i invs
    (fun _ inv =>
       lineItems <- getLineItemsByInvoiceId (Invoice.id inv) ;;
       ret {| invoice := inv; lineItems := lineItems |}) s
  = (map (withLineItems s) invs, s).
Proof.
  revert i; induction invs as [| inv invs IH]; intros i; simpl;
    [reflexivity |].
  unfold bind at 1. unfold bind at 1.
  unfold getLineItemsByInvoiceId at 1. unfold bind at 1, get_store at 1.
  unfold ret at 1. unfold ret at 1. unfold bind at 1.
  rewrite IH. reflexivity.
Qed.

(** X11: the list of all invoices holds every stored invoice once, each with
    the line items that name its id, newest first; invoices created at the
    same time keep the order in which they were added; the store is left
    alone. In a store the operations have built, every entry is what
    [getInvoice] answers for its id. *)
Theorem getAllInvoices_newest_first :
  forall ops : list op,
    let s := run ops in
    let listed := fst (getAllInvoices s) in
    snd (getAllInvoices s) = s
    /\ Permutation listed (map (withLineItems s) (SMap.values (invoices s)))
    /\ newestFirst invoiceTime listed
    /\ (forall t, createdAtTime invoiceTime t listed
                  = createdAtTime invoiceTime t
                      (map (withLineItems s) (SMap.values (invoices s))))
    /\ (forall r, In r listed ->
          getInvoice (Invoice.id (invoice r)) s = (Some r, s)).
Proof.
  intros ops s listed.
  assert (E : getAllInvoices s
              = (sort newestInvoiceFirst
                   (map (withLineItems s) (SMap.values (invoices s))), s)).
  { unfold getAllInvoices. unfold bind at 1, get_store at 1.
    unfold bind at 1. now rewrite collect_invoices. }
  unfold listed. rewrite E; cbn [fst snd].
  split; [reflexivity |].
  split; [apply (sort_perm invoiceTime) |].
  split; [apply (sort_sorted invoiceTime) |].
  split; [intros t; apply (sort_stable invoiceTime) |].
  intros r Hin.
  apply (Permutation_in _ (sort_perm invoiceTime _)) in Hin.
  apply in_map_iff in Hin as [inv [<- Hin]].
  destruct (run_store_wf ops) as (_ & _ & Hik & Hiu & _ & _).
  fold s in Hik, Hiu.
  apply in_values_entry in Hin as [k Hin].
  assert (Hk : Invoice.id inv = k)
    by exact (proj1 (Forall_forall _ _) Hik (k, inv) Hin).
  assert (Hget : SMap.get (Invoice.id inv) (invoices s) = Some inv)
    by (rewrite Hk; now apply unique_keys_get).
  unfold getInvoice, withLineItems, getLineItemsByInvoiceId.
  unfold bind, get_store, ret; cbn [invoice fst].
  now rewrite Hget.
Qed.
(** ** The line items of the invoice form *)

Lemma filterIndex_remove {A} (index : nat) (l : list A) (i : nat) :
  Form.filterIndex (fun j => negb (Nat.eqb j index)) i l
  = if (index <? i)%nat then l
    else (firstn (index - i) l ++ skipn (S (index - i)) l)%list.
Proof.
  revert i; induction l as [| x l IH]; intros i; cbn [Form.filterIndex].
  - destruct (index <? i)%nat; [reflexivity |].
    now rewrite firstn_nil, skipn_nil.
  - rewrite IH.
    destruct (Nat.ltb_spec index i) as [Hlt | Hge].
    + destruct (Nat.eqb_spec i index); [lia |]. cbn [negb].
      destruct (Nat.ltb_spec index (S i)); [reflexivity | lia].
    + destruct (Nat.eqb_spec i index) as [-> | Hne]; cbn [negb].
      * destruct (Nat.ltb_spec index (S index)); [| lia].
        now rewrite Nat.sub_diag.
      * destruct (Nat.ltb_spec index (S i)); [lia |].
        replace (index - i)%nat with (S (index - S i)) by lia.
        reflexivity.
Qed.

Lemma removeLineItem_nonempty (index : nat)
    (lineItems : list Form.LineItemFormData) :
  (lineItems <> [] -> Form.removeLineItem index lineItems <> [])
  /\ ((1 < List.length lineItems)%nat ->
      Form.removeLineItem index lineItems
      = (firstn index lineItems ++ skipn (S index) lineItems)%list).
Proof.
  assert (Hrm : (1 < List.length lineItems)%nat ->
                Form.removeLineItem index lineItems
                = (firstn index lineItems ++ skipn (S index) lineItems)%list).
  { intros Hlen. unfold Form.removeLineItem.
    destruct (Nat.ltb_spec 1 (List.length lineItems)); [| lia].
    rewrite filterIndex_remove. cbn [Nat.ltb Nat.leb].
    now rewrite Nat.sub_0_r. }
  split; [| exact Hrm].
  intros Hne.
  destruct (Nat.ltb_spec 1 (List.length lineItems)) as [Hlen | Hlen].
  - rewrite Hrm by assumption. intros E.
    apply (f_equal (@List.length _)) in E.
    rewrite length_app, length_firstn, length_skipn in E.
    cbn [List.length] in E. lia.
  - unfold Form.removeLineItem.
    destruct (Nat.ltb_spec 1 (List.length lineItems)); [lia | exact Hne].
Qed.

(** X20: removing a line item never empties the form: with a single item the
    list stays as it is; with more, the item at the index goes and the others
    keep their order, and an index outside the list removes nothing. Removing
    the item that was just added gives back the list. *)
Theorem removeLineItem_keeps_an_item :
  forall (index : nat) (lineItems : list Form.LineItemFormData),
    (lineItems <> [] -> Form.removeLineItem index lineItems <> [])
    /\ ((1 < List.length lineItems)%nat ->
        (index < List.length lineItems)%nat ->
        Form.removeLineItem index lineItems
        = (firstn index lineItems ++ skipn (S index) lineItems)%list
        /\ List.length (Form.removeLineItem index lineItems)
           = pred (List.length lineItems))
    /\ ((List.length lineItems <= 1)%nat
        \/ (List.length lineItems <= index)%nat ->
        Form.removeLineItem index lineItems = lineItems)
    /\ (lineItems <> [] ->
        Form.removeLineItem (List.length lineItems)
                            (Form.addLineItem lineItems) = lineItems).
Proof.
  intros index lineItems.
  destruct (removeLineItem_nonempty index lineItems) as [Hkeep Hrm].
  assert (Hout : (List.length lineItems <= index)%nat ->
                 (firstn index lineItems ++ skipn (S index) lineItems)%list
                 = lineItems).
  { intros Hi. rewrite firstn_all2, skipn_all2 by lia. apply app_nil_r. }
  split; [| split; [| split]].
  - exact Hkeep.
  - intros Hlen Hi. rewrite Hrm by assumption.
    split; [reflexivity |].
    rewrite length_app, length_firstn, length_skipn. lia.
  - intros [Hlen | Hi].
    + unfold Form.removeLineItem.
      destruct (Nat.ltb_spec 1 (List.length lineItems)); [lia | reflexivity].
    + unfold Form.removeLineItem.
      destruct (Nat.ltb_spec 1 (List.length lineItems)); [| reflexivity].
      rewrite filterIndex_remove. cbn [Nat.ltb Nat.leb].
      rewrite Nat.sub_0_r. now apply Hout.
  - intros Hne. unfold Form.removeLineItem, Form.addLineItem.
    rewrite length_app; cbn [List.length].
    destruct (Nat.ltb_spec 1 (List.length lineItems + 1)) as [_ | Hlen].
    + rewrite filterIndex_remove. cbn [Nat.ltb Nat.leb].
      rewrite Nat.sub_0_r.
      rewrite firstn_app, Nat.sub_diag, firstn_all; cbn [firstn].
      rewrite app_nil_r.
      rewrite skipn_all2 by (rewrite length_app; cbn [List.length]; lia).
      apply app_nil_r.
    + destruct lineItems; [congruence | cbn [List.length] in Hlen; lia].
Qed.

Lemma mapIndex_length {A B} (f : A -> nat -> B) (l : list A) (i : nat) :
  List.length (Form.mapIndex f i l) = List.length l.
Proof.
  revert i; induction l as [| x l IH]; intros i; cbn; [reflexivity |].
  now rewrite IH.
Qed.

Lemma mapIndex_nth {A B} (f : A -> nat -> B) (l : list A) (i n : nat) :
  nth_error (Form.mapIndex f i l) n
  = option_map (fun x => f x (i + n)%nat) (nth_error l n).
Proof.
  revert i n; induction l as [| x l IH]; intros i n;
    cbn [Form.mapIndex]; destruct n as [| n]; cbn [nth_error option_map];
    try reflexivity.
  - now rewrite Nat.add_0_r.
  - rewrite IH. now replace (S i + n)%nat with (i + S n)%nat by lia.
Qed.

(** X21: typing into a row changes the item at that index and no other: the
    list keeps its length and, besides the field typed into, every item its
    fields; an index outside the list changes nothing. *)
Theorem form_updateLineItem_changes_one_item :
  forall (index : nat) (fv : Form.fieldValue)
         (lineItems : list Form.LineItemFormData),
    List.length (Form.updateLineItem index fv lineItems)
    = List.length lineItems
    /\ nth_error (Form.updateLineItem index fv lineItems) index
       = option_map (Form.setField fv) (nth_error lineItems index)
    /\ (forall i, i <> index ->
          nth_error (Form.updateLineItem index fv lineItems) i
          = nth_error lineItems i)
    /\ ((List.length lineItems <= index)%nat ->
        Form.updateLineItem index fv lineItems = lineItems).
Proof.
  intros index fv lineItems. unfold Form.updateLineItem.
  split; [apply mapIndex_length |].
  split; [| split].
  - rewrite mapIndex_nth. cbn [Nat.add]. rewrite Nat.eqb_refl.
    now destruct (nth_error lineItems index).
  - intros i Hi. rewrite mapIndex_nth. cbn [Nat.add].
    destruct (Nat.eqb_spec i index); [contradiction |].
    now destruct (nth_error lineItems i).
  - intros Hlen. apply nth_error_ext. intros n.
    rewrite mapIndex_nth. cbn [Nat.add].
    destruct (nth_error lineItems n) eqn:E; [| reflexivity].
    cbn [option_map].
    destruct (Nat.eqb_spec n index) as [-> |]; [| reflexivity].
    apply nth_error_None in Hlen. congruence.
Qed.
(** ** What the form holds *)

Lemma typedQuantity_truthy (value : string) :
  JS.truthy (Form.typedQuantity value) = true.
Proof.
  unfold Form.typedQuantity.
  destruct (JS.truthy (JS.parseInt value)) eqn:E; [exact E | reflexivity].
Qed.

Lemma typedRate_not_NaN (value : string) :
  JS.isNaN (Form.typedRate value) = false.
Proof.
  unfold Form.typedRate.
  destruct (JS.parseFloat value) as [[] | [] | | [] m e]; reflexivity.
Qed.

Lemma filterIndex_Forall {A} (P : A -> Prop) (keep : nat -> bool)
    (l : list A) (i : nat) :
  Forall P l -> Forall P (Form.filterIndex keep i l).
Proof.
  intros H; revert i; induction H as [| x l Hx _ IH]; intros i;
    cbn [Form.filterIndex]; [constructor |].
  destruct (keep i); [constructor; [exact Hx | apply IH] | apply IH].
Qed.

Lemma mapIndex_Forall {A} (P : A -> Prop) (f : A -> nat -> A)
    (l : list A) (i : nat) :
  (forall x j, P x -> P (f x j)) ->
  Forall P l -> Forall P (Form.mapIndex f i l).
Proof.
  intros Hf H; revert i; induction H as [| x l Hx _ IH]; intros i;
    cbn [Form.mapIndex]; constructor; auto.
Qed.

(** X22: whatever the user adds, removes and types, the form holds at least
    one line item, no quantity in it is 0 or NaN and no rate is NaN. *)
Theorem form_lineItems_invariant :
  forall actions : list Form.action,
    Form.after actions <> []
    /\ Forall (fun item => JS.truthy (Request.quantity item) = true
                           /\ JS.isNaN (Request.rate item) = false)
              (Form.after actions).
Proof.
  intros actions. unfold Form.after.
  assert (Hinit : Form.initialLineItems <> []
                  /\ Forall (fun item =>
                               JS.truthy (Request.quantity item) = true
                               /\ JS.isNaN (Request.rate item) = false)
                            Form.initialLineItems).
  { split; [discriminate |]. repeat constructor. }
  revert Hinit. generalize Form.initialLineItems as l.
  induction actions as [| a actions IH]; intros l [Hne Hall]; [now split |].
  cbn [fold_left]. apply IH.
  destruct a as [| index | index value | index value | index value];
    cbn [Form.step].
  - unfold Form.addLineItem. split; [now destruct l |].
    apply Forall_app. split; [exact Hall |]. repeat constructor.
  - split.
    + exact (proj1 (removeLineItem_nonempty index l) Hne).
    + unfold Form.removeLineItem.
      destruct (1 <? List.length l)%nat; [| exact Hall].
      now apply filterIndex_Forall.
  - split.
    + intros E. apply (f_equal (@List.length _)) in E.
      unfold Form.updateLineItem in E. rewrite mapIndex_length in E.
      destruct l; [congruence | discriminate].
    + apply mapIndex_Forall; [| exact Hall].
      intros x j Hx. now destruct (Nat.eqb j index).
  - split.
    + intros E. apply (f_equal (@List.length _)) in E.
      unfold Form.updateLineItem in E. rewrite mapIndex_length in E.
      destruct l; [congruence | discriminate].
    + apply mapIndex_Forall; [| exact Hall].
      intros x j [Hq Hr]. destruct (Nat.eqb j index); [| now split].
      cbn [Form.setField Request.quantity Request.rate].
      split; [apply typedQuantity_truthy | exact Hr].
  - split.
    + intros E. apply (f_equal (@List.length _)) in E.
      unfold Form.updateLineItem in E. rewrite mapIndex_length in E.
      destruct l; [congruence | discriminate].
    + apply mapIndex_Forall; [| exact Hall].
      intros x j [Hq Hr]. destruct (Nat.eqb j index); [| now split].
      cbn [Form.setField Request.quantity Request.rate].
      split; [exact Hq | apply typedRate_not_NaN].
Qed.
(** ** The amounts the form shows *)

Lemma form_subtotal (items : list Request.item) (acc : JS.number) :
  fold_left
    (fun sum item =>
       JS.add sum (JS.mul (Request.quantity item) (Request.rate item)))
    items acc
  = fold_left JS.add (map lineAmount items) acc.
Proof.
  revert acc; induction items as [| it items IH]; intros acc; simpl;
    [reflexivity | apply IH].
Qed.

Lemma toFixed_zero (b : bool) (f : nat) :
  JS.toFixed (S754_zero b) f = JS.toFixed JS.posZero f.
Proof. reflexivity. Qed.

Lemma hundredth_of_zero (b : bool) :
  JS.div (S754_zero b) (JS.of_Z 100) = S754_zero b.
Proof. now destruct b. Qed.

(** A tax rate of [-0] gives the amounts of a tax rate of [0]. *)
Lemma zero_rate_amounts (sub : JS.number) (b : bool) :
  round2 (JS.mul sub (S754_zero b)) = round2 (JS.mul sub JS.posZero)
  /\ round2 (JS.add sub (JS.mul sub (S754_zero b)))
     = round2 (JS.add sub (JS.mul sub JS.posZero)).
Proof.
  unfold round2, JS.add, JS.mul, JS.posZero.
  destruct b, sub as [[] | [] | | [] m e]; split; reflexivity.
Qed.

(** X23: the subtotal, tax amount and total the form shows while the invoice
    is written are the ones [createInvoice] stores for what the form submits,
    and the amount shown in each row is the one stored with its line item, as
    long as the tax rate is a number. *)
Theorem form_shows_stored_totals
    (data : Request.t) (items : list Form.LineItemFormData)
    (id : string) (lineId : nat -> string) (created updated : Date)
    (s : MemStorage) :
  JS.isNaN (Request.taxRate data) = false ->
  let made :=
    fst (createInvoice id lineId created updated (Form.onSubmit data items) s)
  in
  Form.shownTotals items (Request.taxRate data)
  = (Invoice.subtotal (invoice made), Invoice.taxAmount (invoice made),
     Invoice.total (invoice made))
  /\ map Form.shownAmount items = map LineItem.amount (lineItems made).
Proof.
  intros Hnum made. unfold made. rewrite createInvoice_run; cbn [fst].
  cbn [invoice lineItems madeInvoice Invoice.subtotal Invoice.taxAmount
       Invoice.total].
  split.
  - unfold Form.shownTotals, Form.calculateTotals, rawTotal, rawTax,
      rawSubtotal.
    cbn [Form.subtotal Form.taxAmount Form.total Form.onSubmit
         Request.lineItems Request.taxRate].
    rewrite form_subtotal.
    set (sub := fold_left JS.add (map lineAmount items) JS.posZero).
    destruct (Request.taxRate data) as [b | b | | b m e] eqn:E;
      try discriminate; cbn [JS.truthy]; try reflexivity.
    change JS.posZero with (S754_zero false). rewrite !hundredth_of_zero.
    destruct (zero_rate_amounts sub b) as [Htax Htotal].
    unfold round2 in *. now rewrite Htax, Htotal.
  - cbn [Form.onSubmit Request.lineItems].
    rewrite madeLineItems_amounts, map_map. reflexivity.
Qed.

(** Adding [0] to the subtotal changes none of the amounts shown. *)
Lemma blank_amounts (sub k : JS.number) :
  let sub' := JS.add sub JS.posZero in
  (JS.toFixed sub' 2, JS.toFixed (JS.mul sub' k) 2,
   JS.toFixed (JS.add sub' (JS.mul sub' k)) 2)
  = (JS.toFixed sub 2, JS.toFixed (JS.mul sub k) 2,
     JS.toFixed (JS.add sub (JS.mul sub k)) 2).
Proof.
  unfold JS.add, JS.mul, JS.posZero.
  destruct sub as [[] | [] | | [] m e]; try reflexivity;
    destruct k as [[] | [] | | [] m' e']; reflexivity.
Qed.

(** X24: a blank line item, as the button adds it, shows the amount 0.00 and
    leaves the three amounts the form shows as they are. *)
Theorem form_blank_item_keeps_totals :
  forall (items : list Form.LineItemFormData) (taxRate : JS.number),
    Form.shownTotals (Form.addLineItem items) taxRate
    = Form.shownTotals items taxRate
    /\ Form.shownAmount Form.blankItem = "0.00".
Proof.
  intros items taxRate. split; [| reflexivity].
  unfold Form.shownTotals, Form.calculateTotals, Form.addLineItem.
  cbn [Form.subtotal Form.taxAmount Form.total].
  rewrite fold_left_app; cbn [fold_left].
  change (JS.mul (Request.quantity Form.blankItem)
                 (Request.rate Form.blankItem)) with JS.posZero.
  apply blank_amounts.
Qed.
(** ** What the rows read from their inputs *)

Lemma truthy_of_Z (n : Z) : 0 < n < 2 ^ 53 -> JS.truthy (JS.of_Z n) = true.
Proof.
  intros [H0 Hn]. destruct n as [| p | p]; [lia | | lia].
  now rewrite of_Z_pos.
Qed.

(** X25: a quantity typed as a whole number, with or without decimals after
    it, is read as that whole number, and as 1 when the number is 0. *)
Theorem typedQuantity_reads_whole_number (numeral rest : string) :
  numeral <> "" -> all_dec numeral = true -> endsNumeral rest = true ->
  Str.digits_value 10 numeral 0 < 2 ^ 53 ->
  Form.typedQuantity (numeral ++ rest)
  = JS.of_Z (Z.max 1 (Str.digits_value 10 numeral 0)).
Proof.
  intros Hne Hdec Hrest Hv.
  assert (H0 : 0 <= Str.digits_value 10 numeral 0).
  { assert (G : forall s acc, 0 <= acc -> all_dec s = true ->
                              0 <= Str.digits_value 10 s acc).
    { induction s as [| c s IH]; intros acc Hacc Hs; cbn [Str.digits_value];
        [exact Hacc |].
      cbn [all_dec] in Hs. apply andb_prop in Hs as [Hc Hs].
      destruct (is_dec_value c Hc) as [Hcode ->].
      apply IH; [lia | exact Hs]. }
    now apply G. }
  unfold Form.typedQuantity.
  rewrite parseInt_leading_numeral by (try assumption; lia).
  destruct (Z.eq_dec (Str.digits_value 10 numeral 0) 0) as [E | E].
  - rewrite E. reflexivity.
  - rewrite truthy_of_Z by lia. f_equal. lia.
Qed.
(** ** Changing the status of an invoice *)

Lemma set_split {V} (k : string) (v v0 : V) (m : SMap.t V) :
  SMap.get k m = Some v0 ->
  exists m1 m2,
    m = (m1 ++ (k, v0) :: m2)%list
    /\ SMap.set k v m = (m1 ++ (k, v) :: m2)%list.
Proof.
  induction m as [| [k1 v1] m IH]; simpl; [discriminate |].
  destruct (String.eqb_spec k1 k) as [-> |].
  - intros [= ->]. now exists [], m.
  - intros H. destruct (IH H) as [m1 [m2 [-> E]]].
    exists ((k1, v1) :: m1), m2. split; [reflexivity |].
    now rewrite E.
Qed.

(** X9: giving a stored invoice another status moves it from one count of the
    statistics to the other: the number of invoices stays, the numbers of
    pending and of overdue invoices lose the invoice if it was sent or overdue
    and gain it if it is now, and the revenue stays as long as the invoice
    neither was nor becomes paid. *)
Theorem updateInvoice_status_moves_counts
    (id : string) (now : Date) (status : string) (existing : Invoice.t)
    (s : MemStorage) :
  SMap.get id (invoices s) = Some existing ->
  let before := fst (getInvoiceStats s) in
  let after :=
    fst (getInvoiceStats (snd (updateInvoice id now (statusPatch status) s)))
  in
  let one (b : bool) := if b then 1%nat else 0%nat in
  totalInvoices after = totalInvoices before
  /\ (pendingInvoices after + one (String.eqb (Invoice.status existing) "sent")
      = pendingInvoices before + one (String.eqb status "sent"))%nat
  /\ (overdueInvoices after
      + one (String.eqb (Invoice.status existing) "overdue")
      = overdueInvoices before + one (String.eqb status "overdue"))%nat
  /\ (Invoice.status existing <> "paid" -> status <> "paid" ->
      totalRevenue after = totalRevenue before).
Proof.
  intros Hget before after one. unfold before, after.
  unfold updateInvoice, bind, get_store. rewrite Hget.
  unfold set_invoices, ret; cbn [snd].
  unfold getInvoiceStats, bind, get_store, ret;
    cbn [fst invoices totalInvoices totalRevenue pendingInvoices
         overdueInvoices].
  match goal with
  | |- context [SMap.set id ?v (invoices s)] => set (updated := v)
  end.
  destruct (set_split id updated existing (invoices s) Hget)
    as [m1 [m2 [E1 E2]]].
  rewrite E2, E1. unfold SMap.values.
  rewrite !map_app; cbn [map snd]. rewrite !filter_app, !length_app.
  cbn [filter List.length].
  assert (Hst : Invoice.status updated = status) by reflexivity.
  rewrite !Hst.
  split; [reflexivity |].
  split; [| split].
  - destruct (String.eqb (Invoice.status existing) "sent"),
             (String.eqb status "sent"); cbn [List.length one]; lia.
  - destruct (String.eqb (Invoice.status existing) "overdue"),
             (String.eqb status "overdue"); cbn [List.length one]; lia.
  - intros Hwas Hnow.
    apply String.eqb_neq in Hwas, Hnow. now rewrite Hwas, Hnow.
Qed.
(** ** The properties at concrete stores *)

Ltac fresh_line_ids :=
  split;
  [ cbn [map seq];
    repeat (constructor; [cbn; intuition discriminate |]); constructor
  | cbn [seq];
    repeat (constructor; [vm_compute; reflexivity |]); constructor ].

Lemma createInvoice_then_getInvoice_witness :
  fst (getLineItemsByInvoiceId "c" twoInvoiceStore) = []
  /\ freshLineIds (lineIdsOf "c") 1 twoInvoiceStore
  /\ getInvoice "c"
       (snd (createInvoice "c" (lineIdsOf "c") 3 3 thirtyCents twoInvoiceStore))
     = (Some (fst (createInvoice "c" (lineIdsOf "c") 3 3 thirtyCents
                                 twoInvoiceStore)),
        snd (createInvoice "c" (lineIdsOf "c") 3 3 thirtyCents
                           twoInvoiceStore)).
Proof.
  assert (Hnone : fst (getLineItemsByInvoiceId "c" twoInvoiceStore) = [])
    by reflexivity.
  assert (Hfresh : freshLineIds (lineIdsOf "c") 1 twoInvoiceStore)
    by fresh_line_ids.
  split; [exact Hnone |]. split; [exact Hfresh |].
  exact (createInvoice_then_getInvoice "c" (lineIdsOf "c") 3 3 thirtyCents
           twoInvoiceStore Hnone Hfresh).
Defined.

Lemma createInvoice_then_deleteInvoice_witness :
  SMap.get "c" (invoices twoInvoiceStore) = None
  /\ fst (getLineItemsByInvoiceId "c" twoInvoiceStore) = []
  /\ freshLineIds (lineIdsOf "c") 1 twoInvoiceStore
  /\ deleteInvoice "c"
       (snd (createInvoice "c" (lineIdsOf "c") 3 3 thirtyCents twoInvoiceStore))
     = (true, twoInvoiceStore)
  /\ fst (getNextInvoiceNumber
            (snd (deleteInvoice "c"
                    (snd (createInvoice "c" (lineIdsOf "c") 3 3 thirtyCents
                                        twoInvoiceStore)))))
     = Invoice.invoiceNumber
         (invoice (fst (createInvoice "c" (lineIdsOf "c") 3 3 thirtyCents
                                      twoInvoiceStore))).
Proof.
  assert (Hnew : SMap.get "c" (invoices twoInvoiceStore) = None)
    by reflexivity.
  assert (Hnone : fst (getLineItemsByInvoiceId "c" twoInvoiceStore) = [])
    by reflexivity.
  assert (Hfresh : freshLineIds (lineIdsOf "c") 1 twoInvoiceStore)
    by fresh_line_ids.
  split; [exact Hnew |]. split; [exact Hnone |]. split; [exact Hfresh |].
  exact (createInvoice_then_deleteInvoice "c" (lineIdsOf "c") 3 3 thirtyCents
           twoInvoiceStore Hnew Hnone Hfresh).
Defined.

Lemma getInvoiceByNumber_agrees_witness :
  forallb keepsNumber paidAndDeleted = true
  /\ Z.of_nat (List.length paidAndDeleted) < 2 ^ 53
  /\ getInvoiceByNumber "INV-001" (run paidAndDeleted)
     = (Some {| invoice := paidInvoice;
                lineItems :=
                  fst (getLineItemsByInvoiceId "a" (run paidAndDeleted)) |},
        run paidAndDeleted).
Proof.
  split; [reflexivity |]. split; [reflexivity |].
  exact (proj1 (getInvoiceByNumber_agrees_with_getInvoice paidAndDeleted
                  eq_refl eq_refl)
               "a"
               {| invoice := paidInvoice;
                  lineItems :=
                    fst (getLineItemsByInvoiceId "a" (run paidAndDeleted)) |}
               eq_refl).
Defined.

Lemma assigned_numbers_distinct_witness :
  forallb keepsNumber paidAndDeleted = true
  /\ Z.of_nat (List.length paidAndDeleted) < 2 ^ 53
  /\ Forall (fun num => isInvNNN num = true)
            (invoiceNumbers (run paidAndDeleted))
  /\ NoDup (invoiceNumbers (run paidAndDeleted)).
Proof.
  split; [reflexivity |]. split; [reflexivity |].
  exact (assigned_numbers_distinct paidAndDeleted eq_refl eq_refl).
Defined.

Lemma updateClient_merges_witness :
  SMap.get "k" (clients oneClient) = Some storedClient
  /\ exists (updated : Client.t) (st : MemStorage),
       updateClient "k" emptyAddress oneClient = (Some updated, st)
       /\ getClient "k" st = (Some updated, st)
       /\ Client.id updated = "k"
       /\ Client.address updated = Some "".
Proof.
  split; [reflexivity |].
  destruct (updateClient_merges "k" emptyAddress storedClient oneClient
              eq_refl)
    as (updated & st & Hrun & Hget & Hid & _ & _ & _ & Haddr & _).
  exists updated, st.
  split; [exact Hrun |]. split; [exact Hget |].
  split; [exact Hid | exact Haddr].
Defined.

Lemma updateLineItem_merges_witness :
  SMap.get "l1" (lineItemsMap strayStore) = Some storedStray
  /\ exists (updated : LineItem.t) (st : MemStorage),
       updateLineItem "l1" threeOfThem strayStore = (Some updated, st)
       /\ LineItem.description updated = "stray"
       /\ LineItem.quantity updated = dec "3"
       /\ LineItem.rate updated = "5.00"
       /\ LineItem.amount updated = "5.00"
       /\ invoices st = invoices strayStore.
Proof.
  split; [reflexivity |].
  destruct (updateLineItem_merges "l1" threeOfThem storedStray strayStore
              eq_refl)
    as (updated & st & Hrun & _ & _ & _ & Hd & Hq & Hr & Ha & _ & _ & _ & _
        & Hi & _).
  exists updated, st.
  split; [exact Hrun |]. split; [exact Hd |]. split; [exact Hq |].
  split; [exact Hr |]. split; [exact Ha | exact Hi].
Defined.

Lemma invoices_change_only_by_invoice_operations_witness :
  forallb (fun o => negb (onInvoices o)) lineItemEdits = true
  /\ invoices (runFrom twoInvoiceStore lineItemEdits)
     = invoices twoInvoiceStore
  /\ fst (getInvoiceStats (runFrom twoInvoiceStore lineItemEdits))
     = fst (getInvoiceStats twoInvoiceStore)
  /\ map LineItem.id
         (fst (getLineItemsByInvoiceId "a"
                 (runFrom twoInvoiceStore lineItemEdits)))
     = ["a/1"; "x"].
Proof.
  split; [reflexivity |].
  destruct (invoices_change_only_by_invoice_operations lineItemEdits
              twoInvoiceStore eq_refl) as (Hinv & _ & Hstats & _).
  split; [exact Hinv |]. split; [exact Hstats | reflexivity].
Defined.

Lemma updateInvoice_merges_witness :
  SMap.get "a" (invoices twoInvoiceStore) = Some (firstInvoice twoInvoiceStore)
  /\ exists (updated : Invoice.t) (st : MemStorage),
       updateInvoice "a" 5 (statusPatch "sent") twoInvoiceStore
       = (Some updated, st)
       /\ Invoice.invoiceNumber updated = "INV-001"
       /\ Invoice.clientName updated = "Acme"
       /\ Invoice.status updated = "sent"
       /\ Invoice.subtotal updated = "125.00"
       /\ Invoice.total updated = "137.50"
       /\ Invoice.createdAt updated = Some 1
       /\ Invoice.updatedAt updated = Some 5.
Proof.
  split; [reflexivity |].
  destruct (updateInvoice_merges "a" 5 (statusPatch "sent")
              (firstInvoice twoInvoiceStore) twoInvoiceStore eq_refl)
    as (updated & st & Hrun & _ & _ & Hnum & _ & Hname & _ & _ & _ & _ & Hst
        & Hsub & _ & _ & Htotal & _ & Hcreated & Hat & _).
  exists updated, st.
  split; [exact Hrun |]. split; [exact Hnum |]. split; [exact Hname |].
  split; [exact Hst |]. split; [exact Hsub |]. split; [exact Htotal |].
  split; [exact Hcreated | exact Hat].
Defined.

Lemma createInvoice_counts_as_draft_witness :
  SMap.get "e" (invoices statsStore) = None
  /\ totalInvoices
       (fst (getInvoiceStats
               (snd (createInvoice "e" (lineIdsOf "e") 9 9 thirtyCents
                                   statsStore))))
     = S (totalInvoices (fst (getInvoiceStats statsStore)))
  /\ totalRevenue
       (fst (getInvoiceStats
               (snd (createInvoice "e" (lineIdsOf "e") 9 9 thirtyCents
                                   statsStore))))
     = totalRevenue (fst (getInvoiceStats statsStore)).
Proof.
  split; [reflexivity |].
  destruct (createInvoice_counts_as_draft "e" (lineIdsOf "e") 9 9 thirtyCents
              statsStore eq_refl) as (Hn & Hrev & _).
  split; [exact Hn | exact Hrev].
Defined.

Lemma updateInvoice_status_moves_counts_witness :
  SMap.get "c" (invoices statsStore) = Some sentInvoice
  /\ totalInvoices
       (fst (getInvoiceStats
               (snd (updateInvoice "c" 9 (statusPatch "overdue") statsStore))))
     = totalInvoices (fst (getInvoiceStats statsStore))
  /\ S (pendingInvoices
          (fst (getInvoiceStats
                  (snd (updateInvoice "c" 9 (statusPatch "overdue")
                                      statsStore)))))
     = pendingInvoices (fst (getInvoiceStats statsStore))
  /\ overdueInvoices
       (fst (getInvoiceStats
               (snd (updateInvoice "c" 9 (statusPatch "overdue") statsStore))))
     = S (overdueInvoices (fst (getInvoiceStats statsStore))).
Proof.
  split; [reflexivity |].
  destruct (updateInvoice_status_moves_counts "c" 9 "overdue" sentInvoice
              statsStore eq_refl) as (Hn & Hp & Ho & _).
  split; [exact Hn |].
  split; [rewrite Nat.add_1_r, Nat.add_0_r in Hp; exact Hp |].
  rewrite Nat.add_1_r, Nat.add_0_r in Ho; exact Ho.
Defined.

Lemma form_shows_stored_totals_witness :
  JS.isNaN (Request.taxRate thirtyCents) = false
  /\ Form.shownTotals (Request.lineItems thirtyCents)
                      (Request.taxRate thirtyCents)
     = ("0.30", "0.01", "0.32")
  /\ Form.shownTotals (Request.lineItems thirtyCents)
                      (Request.taxRate thirtyCents)
     = (Invoice.subtotal
          (invoice (fst (createInvoice "a" (lineIdsOf "a") 1 1
                           (Form.onSubmit thirtyCents
                              (Request.lineItems thirtyCents)) newStorage))),
        Invoice.taxAmount
          (invoice (fst (createInvoice "a" (lineIdsOf "a") 1 1
                           (Form.onSubmit thirtyCents
                              (Request.lineItems thirtyCents)) newStorage))),
        Invoice.total
          (invoice (fst (createInvoice "a" (lineIdsOf "a") 1 1
                           (Form.onSubmit thirtyCents
                              (Request.lineItems thirtyCents)) newStorage)))).
Proof.
  split; [reflexivity |]. split; [vm_compute; reflexivity |].
  exact (proj1 (form_shows_stored_totals thirtyCents
                  (Request.lineItems thirtyCents) "a" (lineIdsOf "a") 1 1
                  newStorage eq_refl)).
Defined.

Lemma typedQuantity_reads_whole_number_witness :
  "2" <> "" /\ all_dec "2" = true /\ endsNumeral ".7" = true
  /\ Str.digits_value 10 "2" 0 < 2 ^ 53
  /\ Form.typedQuantity "2.7" = JS.of_Z 2.
Proof.
  assert (Hne : "2" <> "") by discriminate.
  split; [exact Hne |]. split; [reflexivity |]. split; [reflexivity |].
  split; [reflexivity |].
  exact (typedQuantity_reads_whole_number "2" ".7" Hne eq_refl eq_refl
           eq_refl).
Defined.
